(** * Child anthropometry measurement pipeline

    A shallow embedding of [application/ml_cv/child.py] (the strict
    variant, module [Child]) and [application/ml_cv/2.py] (the relaxed
    variant, module [Relaxed]), followed by the properties their
    specification states about them.

    Numbers.  Python floats are modelled as exact rationals ([Q]), so
    rounding errors, infinities and NaN are outside the model; image
    dimensions, pixel coordinates and pixel values are integers ([Z]).
    Division by a float zero raises, as in Python, or yields no number
    where numpy would yield [inf].

    Collaborators.  [math.hypot] and [math.pi] have no exact rational
    counterpart and are taken from an interface ([MathLib]); so are the
    OpenCV and MediaPipe calls ([Vision]) and the generator behind
    [random.uniform] ([RandomSource]), whose state is passed explicitly.
    A contour is represented by what OpenCV reports about it.  Everything
    else is computed as the code computes it.

    Output.  The lines printed by [estimate_wrist_from_arm_length] are
    kept as a list of events next to the value returned. *)

From Stdlib Require Import String QArith Qround Qabs ZArith List Bool Lia Lqa.
Import ListNotations.

Local Open Scope Q_scope.

(** ** Python and numpy primitives *)

Module Py.

(** [a < b] on floats, as a boolean. *)
Definition ltb (a b : Q) : bool := negb (Qle_bool b a).
(** [a <= b] on floats. *)
Definition leb (a b : Q) : bool := Qle_bool a b.

(** [max(a, b)]: the second argument is returned only when it is
    strictly greater than the first. *)
Definition max (a b : Q) : Q := if ltb a b then b else a.
(** [min(a, b)]: the second argument is returned only when it is
    strictly smaller than the first. *)
Definition min (a b : Q) : Q := if ltb b a then b else a.

(** [max(ys)] and [min(ys)]: the first greatest (smallest) element.  The
    pipeline calls them on list literals only, which are never empty; the
    value on the empty list (a [ValueError] in Python) is immaterial. *)
Definition max_list (ys : list Q) : Q := fold_left max (tl ys) (hd 0 ys).
Definition min_list (ys : list Q) : Q := fold_left min (tl ys) (hd 0 ys).

(** [max(l, key=key)]: the first element whose key is maximal; [None]
    stands for the [ValueError] raised on an empty sequence. *)
Fixpoint max_by_from {A : Type} (key : A -> Q) (best : A) (l : list A) : A :=
  match l with
  | [] => best
  | a :: l' => max_by_from key (if ltb (key best) (key a) then a else best) l'
  end.
Definition max_by {A : Type} (key : A -> Q) (l : list A) : option A :=
  match l with
  | [] => None
  | a :: l' => Some (max_by_from key a l')
  end.

(** [int(q)]: truncation toward zero. *)
Definition int (q : Q) : Z := Z.quot (Qnum q) (Zpos (Qden q)).

(** [round(q)]: the nearest integer, ties going to the even one. *)
Definition round (q : Q) : Z :=
  let f := Qfloor q in
  let r := q - inject_Z f in
  if ltb r 0.5 then f
  else if ltb 0.5 r then (f + 1)%Z
  else if Z.even f then f else (f + 1)%Z.

(** [abs(q)]. *)
Definition abs (q : Q) : Q := Qabs q.

(** Exceptions the pipeline can raise. *)
Inductive exn : Type :=
| RuntimeError (msg : string)
| ZeroDivisionError.

Inductive result (A : Type) : Type :=
| Ok (a : A)
| Raise (e : exn).
Arguments Ok {A} a.
Arguments Raise {A} e.

(** [a / b] on Python floats: a zero divisor raises. *)
Definition truediv (a b : Q) : result Q :=
  if Qeq_bool b 0 then Raise ZeroDivisionError else Ok (a / b).

(** [a / b] where [a] is a numpy float64: a zero divisor gives [inf] or
    [nan] (here [None]) and raises nothing. *)
Definition np_truediv (a b : Q) : option Q :=
  if Qeq_bool b 0 then None else Some (a / b).

(** [range(start, stop, 2)]. *)
Fixpoint range2_from (fuel : nat) (start stop : Z) : list Z :=
  match fuel with
  | O => []
  | S fuel' =>
      if (start <? stop)%Z then start :: range2_from fuel' (start + 2) stop
      else []
  end.
Definition range2 (start stop : Z) : list Z :=
  range2_from (Z.to_nat (stop - start)) start stop.

(** A stable sort on keys, [l.sort(key=key)]: elements with equal keys
    keep their order.  [lt] is the strict order on keys. *)
Section Sort.
Context {A K : Type} (key : A -> K) (lt : K -> K -> bool).

Fixpoint insert_asc (a : A) (l : list A) : list A :=
  match l with
  | [] => [a]
  | b :: l' => if lt (key b) (key a) then b :: insert_asc a l' else a :: l
  end.
Definition sort (l : list A) : list A := fold_right insert_asc [] l.

(** [l.sort(key=key, reverse=True)]: descending, still stable. *)
Fixpoint insert_desc (a : A) (l : list A) : list A :=
  match l with
  | [] => [a]
  | b :: l' => if lt (key a) (key b) then b :: insert_desc a l' else a :: l
  end.
Definition sort_reverse (l : list A) : list A := fold_right insert_desc [] l.
End Sort.

(** Comparison of two-element tuples of floats: the first components
    decide unless they are equal. *)
Definition tuple_ltb (p q : Q * Q) : bool :=
  if Qeq_bool (fst p) (fst q) then ltb (snd p) (snd q) else ltb (fst p) (fst q).

(** [l[start:stop]] with [0 <= start]; a negative [stop] counts from the
    end, as Python slices do. *)
Definition slice {A : Type} (l : list A) (start stop : Z) : list A :=
  let n := Z.of_nat (length l) in
  let lo := Z.min start n in
  let hi := if (stop <? 0)%Z then Z.max 0 (stop + n) else Z.min stop n in
  firstn (Z.to_nat (hi - lo)) (skipn (Z.to_nat lo) l).

(** [np.median] of a list of integers; [None] on the empty list. *)
Definition median (l : list Z) : option Q :=
  let s := sort (fun z : Z => z) Z.ltb l in
  let n := length s in
  match n with
  | O => None
  | _ =>
      if Nat.even n
      then Some ((inject_Z (nth (n / 2 - 1) s 0%Z) + inject_Z (nth (n / 2) s 0%Z)) / 2)
      else Some (inject_Z (nth (n / 2) s 0%Z))
  end.

(** [np.mean] of a list of floats; [None] on the empty list. *)
Definition mean (l : list Q) : option Q :=
  match l with
  | [] => None
  | _ => Some (fold_left Qplus l 0 / inject_Z (Z.of_nat (length l)))
  end.

End Py.

Import Py.

(** ** Data model *)

(** The pose landmarks the pipeline reads. *)
Inductive PoseLandmark : Type :=
| NOSE | LEFT_EYE | RIGHT_EYE | LEFT_EAR | RIGHT_EAR
| LEFT_SHOULDER | RIGHT_SHOULDER | LEFT_ELBOW | RIGHT_ELBOW
| LEFT_WRIST | RIGHT_WRIST
| LEFT_ANKLE | RIGHT_ANKLE | LEFT_HEEL | RIGHT_HEEL
| LEFT_FOOT_INDEX | RIGHT_FOOT_INDEX.

(** A landmark: normalized coordinates and a confidence score. *)
Record Landmark : Type := mkLandmark {
  lm_x : Q;
  lm_y : Q;
  lm_visibility : Q
}.

(** [results.pose_landmarks.landmark], indexed by [PoseLandmark]. *)
Definition Landmarks : Type := PoseLandmark -> Landmark.

(** Arrays of pixels, row by row. *)
Definition Array2 (A : Type) : Type := list (list A).
Definition BGR : Type := (Z * Z * Z)%type.

(** [a.shape[0]], [a.shape[1]] and [a.size == 0]. *)
Definition shape0 {A : Type} (a : Array2 A) : Z := Z.of_nat (length a).
Definition shape1 {A : Type} (a : Array2 A) : Z := Z.of_nat (length (hd [] a)).
Definition size_is_zero {A : Type} (a : Array2 A) : bool :=
  ((shape0 a =? 0) || (shape1 a =? 0))%Z.

(** [image[y0:y1, x0:x1]]. *)
Definition crop_of {A : Type} (image : Array2 A) (y0 y1 x0 x1 : Z) : Array2 A :=
  map (fun row => slice row x0 x1) (slice image y0 y1).

(** What OpenCV reports about a contour. *)
Record RotatedRect : Type := mkRect {
  rect_center : Q * Q;
  rect_size : Q * Q;
  rect_angle : Q
}.

Record Moments : Type := mkMoments { m00 : Q; m10 : Q; m01 : Q }.

Record Contour : Type := mkContour {
  contourArea : Q;
  minAreaRect : RotatedRect;
  moments : Moments;
  boundingRect : Z * Z * Z * Z
}.

(** ** External collaborators *)

(** [math.hypot] and [math.pi]. *)
Class MathLib : Type := {
  hypot : Q -> Q -> Q;
  pi : Q
}.

(** The OpenCV and MediaPipe calls of the pipeline. *)
Class Vision : Type := {
  imread : string -> option (Array2 BGR);
  cvtColor_BGR2GRAY : Array2 BGR -> Array2 Z;
  GaussianBlur : Array2 Z -> Z * Z -> Q -> Array2 Z;
  bilateralFilter : Array2 Z -> Z -> Q -> Q -> Array2 Z;
  Canny : Array2 Z -> Q -> Q -> Array2 Z;
  adaptiveThreshold_GAUSSIAN_BINARY_INV : Array2 Z -> Z -> Z -> Q -> Array2 Z;
  findContours_EXTERNAL : Array2 Z -> list Contour;
  pose_process : Array2 BGR -> option Landmarks
}.

(** The generator behind the [random] module: [random.random()] returns a
    float and moves the generator on. *)
Class RandomSource : Type := {
  rng : Type;
  random_random : rng -> Q * rng
}.

(** [random.uniform(a, b)] is [a + (b - a) * random()]. *)
Definition random_uniform `{RandomSource} (a b : Q) (g : rng) : Q * rng :=
  let '(u, g') := random_random g in (a + (b - a) * u, g').

(** [cv2.bitwise_or] on two edge maps. *)
Definition bitwise_or (a b : Array2 Z) : Array2 Z :=
  map (fun rs => map (fun p => Z.lor (fst p) (snd p)) (combine (fst rs) (snd rs)))
      (combine a b).

(** [np.nonzero(row)[0]]: the columns of the non-zero pixels. *)
Fixpoint nonzero_from (i : Z) (row : list Z) : list Z :=
  match row with
  | [] => []
  | p :: row' =>
      if (p =? 0)%Z then nonzero_from (i + 1) row' else i :: nonzero_from (i + 1) row'
  end.
Definition nonzero (row : list Z) : list Z := nonzero_from 0 row.

(** [cv2.cvtColor(img, cv2.COLOR_BGR2RGB)]. *)
Definition cvtColor_BGR2RGB (img : Array2 BGR) : Array2 BGR :=
  map (map (fun p : BGR => let '(b, g, r) := p in (r, g, b))) img.

(** The two sides the wrist code loops over, and
    [getattr(PoseLandmark, f'{side}_WRIST')] and its siblings. *)
Inductive Side : Type := LEFT | RIGHT.

Definition WRIST (side : Side) : PoseLandmark :=
  match side with LEFT => LEFT_WRIST | RIGHT => RIGHT_WRIST end.
Definition ELBOW (side : Side) : PoseLandmark :=
  match side with LEFT => LEFT_ELBOW | RIGHT => RIGHT_ELBOW end.
Definition SHOULDER (side : Side) : PoseLandmark :=
  match side with LEFT => LEFT_SHOULDER | RIGHT => RIGHT_SHOULDER end.

(** The lines [estimate_wrist_from_arm_length] prints, in order.  Of the
    diagnostic output only these are modelled: they tell which arm was
    examined and whether the random estimate was reached.  The other
    [print] calls of the pipeline change no returned value and are left
    out. *)
Inductive event : Type :=
| PrintAttempting
| PrintArmVisibility (side : Side) (visibilities : list Q)
| PrintForearm (side : Side) (forearm_length_cm wrist_circ : Q)
| PrintEstimated (side : Side) (wrist_circ forearm_length_cm : Q)
| PrintOutOfRange (side : Side) (wrist_circ : Q)
| PrintFailed (e : exn)
| PrintTypical (typical_child_wrist : Q).

(** How the block for one arm inside the [try] ends: a [return], a normal
    end that lets the code go on, or an exception. *)
Inductive arm_outcome : Type :=
| Returned (wrist_circ : Q)
| FellThrough
| Raised (e : exn).

(** The dictionary [process_image] returns. *)
Record MeasurementResult : Type := mkResult {
  height_cm : Q;
  head_circumference_cm : Q;
  wrist_circumference_cm : option Q;
  wrist_fallback_used : bool;
  pixel_per_cm : Q
}.

(** ** The strict variant, [child.py] *)

Module Child.
Section WithCollaborators.
Context `{MathLib} `{Vision} `{RandomSource}.

(** A ruler candidate: [(area, long_side, rect)]. *)
Definition candidate : Type := (Q * Q * RotatedRect)%type.

(** The loop of [detect_scale_pixel_length] that collects candidates. *)
Fixpoint ruler_candidates (contours : list Contour) (w h : Z) : list candidate :=
  match contours with
  | [] => []
  | cnt :: rest =>
      let area := contourArea cnt in
      if ltb area (0.0005 * inject_Z w * inject_Z h) then ruler_candidates rest w h
      else
        let rect := minAreaRect cnt in
        let '(rw, rh) := rect_size rect in
        let long_side := max rw rh in
        let short_side := min rw rh in
        if leb short_side 0 then ruler_candidates rest w h
        else
          let aspect := long_side / (short_side + 1e-8) in
          if ltb 3.0 aspect
             && ltb (0.05 * inject_Z (Z.max w h)) long_side
             && ltb long_side (0.9 * inject_Z (Z.max w h))
          then (area, long_side, rect) :: ruler_candidates rest w h
          else ruler_candidates rest w h
  end.

(** The rest of [detect_scale_pixel_length], from the contours on. *)
Definition scale_from_contours (contours : list Contour) (w h : Z) : option Q :=
  match ruler_candidates contours w h with
  | [] =>
      match max_by contourArea contours with
      | Some best_cnt =>
          let rect := minAreaRect best_cnt in
          Some (max (fst (rect_size rect)) (snd (rect_size rect)))
      | None => None
      end
  | c :: cs =>
      match sort_reverse (fun x : candidate => fst (fst x)) ltb (c :: cs) with
      | (_area, pixel_length, _rect) :: _ => Some pixel_length
      | [] => None
      end
  end.

Definition scale_contours (image_gray : Array2 Z) : list Contour :=
  let blurred := GaussianBlur image_gray (5, 5)%Z 0 in
  let edges := Canny blurred 50 150 in
  findContours_EXTERNAL edges.

Definition detect_scale_pixel_length (image_gray : Array2 Z) (orig_img : Array2 BGR)
  : option Q :=
  scale_from_contours (scale_contours image_gray) (shape1 image_gray) (shape0 image_gray).

(** [estimate_head_top_y].  Indexing [landmarks] cannot fail, so the
    [except] branch (offset 0.06) is never taken. *)
Definition estimate_head_top_y (landmarks : Landmarks) (image_h : Z) : Q :=
  let ys := map (fun name => lm_y (landmarks name))
                [LEFT_EYE; RIGHT_EYE; NOSE; LEFT_EAR; RIGHT_EAR] in
  let min_y := min_list ys in
  let shoulder_y :=
    (lm_y (landmarks LEFT_SHOULDER) + lm_y (landmarks RIGHT_SHOULDER)) / 2.0 in
  let offset := max 0.04 (0.14 * abs (shoulder_y - min_y)) in
  let top_y := max 0.0 (min_y - offset) in
  top_y * inject_Z image_h.

Definition estimate_feet_y (landmarks : Landmarks) (image_h : Z) : Q :=
  let ys := map (fun name => lm_y (landmarks name))
                [LEFT_ANKLE; RIGHT_ANKLE; LEFT_HEEL; RIGHT_HEEL;
                 LEFT_FOOT_INDEX; RIGHT_FOOT_INDEX] in
  let feet_y := max_list ys in
  min (inject_Z image_h) (feet_y * inject_Z image_h).

Definition landmark_point_to_pixel (lm : Landmark) (image_w image_h : Z) : Z * Z :=
  (int (lm_x lm * inject_Z image_w), int (lm_y lm * inject_Z image_h)).

Definition measure_head_circumference
  (landmarks : Landmarks) (image_w image_h : Z) (pixel_per_cm : Q) : result Q :=
  let left_ear := landmarks LEFT_EAR in
  let right_ear := landmarks RIGHT_EAR in
  let left_eye := landmarks LEFT_EYE in
  let right_eye := landmarks RIGHT_EYE in
  let head_width_px :=
    if ltb 0.3 (lm_visibility left_ear) && ltb 0.3 (lm_visibility right_ear) then
      let '(lx, ly) := landmark_point_to_pixel left_ear image_w image_h in
      let '(rx, ry) := landmark_point_to_pixel right_ear image_w image_h in
      hypot (inject_Z (rx - lx)) (inject_Z (ry - ly))
    else
      let '(lx, ly) := landmark_point_to_pixel left_eye image_w image_h in
      let '(rx, ry) := landmark_point_to_pixel right_eye image_w image_h in
      hypot (inject_Z (rx - lx)) (inject_Z (ry - ly)) * 1.6 in
  match truediv head_width_px pixel_per_cm with
  | Raise e => Raise e
  | Ok head_width_cm => Ok (pi * head_width_cm * 1.08)
  end.

(** The scanline loop of [measure_wrist_circumference]. *)
Definition scanline_widths (edges : Array2 Z) (center_y search_range : Z) : list Z :=
  flat_map
    (fun dy =>
       let y := (center_y + dy)%Z in
       if ((0 <=? y) && (y <? shape0 edges))%Z then
         let row := nth (Z.to_nat y) edges [] in
         let nz := nonzero row in
         if (2 <=? length nz)%nat then
           let width := (last nz 0 - hd 0 nz)%Z in
           if ((10 <? width) && (width <? 80))%Z then [width] else []
         else []
       else [])
    (range2 (- search_range) search_range).

(** One turn of the loop over the sides in [measure_wrist_circumference]:
    what the turn appends to [wrist_measurements]. *)
Definition wrist_side_measurement
  (landmarks : Landmarks) (image : Array2 BGR) (image_w image_h : Z)
  (pixel_per_cm : Q) (side : Side) : list Q :=
  let wrist := landmarks (WRIST side) in
  if ltb (lm_visibility wrist) 0.5 then []
  else
    let '(wx, wy) := landmark_point_to_pixel wrist image_w image_h in
    let crop_size := int (max 50 (0.05 * inject_Z (Z.max image_w image_h))) in
    let x0 := Z.max 0 (wx - crop_size) in
    let x1 := Z.min image_w (wx + crop_size) in
    let y0 := Z.max 0 (wy - crop_size) in
    let y1 := Z.min image_h (wy + crop_size) in
    let crop := crop_of image y0 y1 x0 x1 in
    if size_is_zero crop then []
    else
      let gray := cvtColor_BGR2GRAY crop in
      let filtered := bilateralFilter gray 9 75 75 in
      let edges := Canny filtered 30 90 in
      let center_y := (shape0 crop / 2)%Z in
      let search_range := (shape0 crop / 4)%Z in
      let wrist_widths := scanline_widths edges center_y search_range in
      match median wrist_widths with
      | None => []
      | Some wrist_width_px =>
          match np_truediv wrist_width_px pixel_per_cm with
          | None => []
          | Some wrist_width_cm =>
              let wrist_circ := pi * wrist_width_cm * 1.3 in
              if leb 8 wrist_circ && leb wrist_circ 16 then [wrist_circ] else []
          end
      end.

Definition measure_wrist_circumference
  (landmarks : Landmarks) (image : Array2 BGR) (image_w image_h : Z)
  (pixel_per_cm : Q) : option Q :=
  let wrist_measurements :=
    flat_map (wrist_side_measurement landmarks image image_w image_h pixel_per_cm)
             [LEFT; RIGHT] in
  mean wrist_measurements.

(** The block of [estimate_wrist_from_arm_length] for one arm; the source
    has it twice, for the left and for the right landmarks. *)
Definition try_arm
  (landmarks : Landmarks) (image_w image_h : Z) (pixel_per_cm : Q) (side : Side)
  : list event * arm_outcome :=
  let elbow := landmarks (ELBOW side) in
  let wrist := landmarks (WRIST side) in
  let out1 := [PrintArmVisibility side [lm_visibility elbow; lm_visibility wrist]] in
  if ltb 0.3 (lm_visibility elbow) && ltb 0.3 (lm_visibility wrist) then
    let forearm_length_px :=
      hypot ((lm_x wrist - lm_x elbow) * inject_Z image_w)
            ((lm_y wrist - lm_y elbow) * inject_Z image_h) in
    match truediv forearm_length_px pixel_per_cm with
    | Raise e => (out1, Raised e)
    | Ok forearm_length_cm =>
        let wrist_circ := forearm_length_cm * 0.16 in
        let out2 := out1 ++ [PrintForearm side forearm_length_cm wrist_circ] in
        if leb 8 wrist_circ && leb wrist_circ 18
        then (out2 ++ [PrintEstimated side wrist_circ forearm_length_cm],
              Returned wrist_circ)
        else (out2 ++ [PrintOutOfRange side wrist_circ], FellThrough)
    end
  else (out1, FellThrough).

(** The [try] block: the left arm, then, unless the left block returned or
    raised, the right arm. *)
Definition try_arms
  (landmarks : Landmarks) (image_w image_h : Z) (pixel_per_cm : Q)
  : list event * arm_outcome :=
  let '(out_left, left_arm) := try_arm landmarks image_w image_h pixel_per_cm LEFT in
  match left_arm with
  | FellThrough =>
      let '(out_right, right_arm) :=
        try_arm landmarks image_w image_h pixel_per_cm RIGHT in
      (out_left ++ out_right, right_arm)
  | _ => (out_left, left_arm)
  end.

(** [estimate_wrist_from_arm_length]: the value returned, what was printed
    and the state of the random generator afterwards. *)
Definition estimate_wrist_from_arm_length
  (landmarks : Landmarks) (image_w image_h : Z) (pixel_per_cm : Q) (g : rng)
  : Q * list event * rng :=
  let '(out_try, outcome) := try_arms landmarks image_w image_h pixel_per_cm in
  match outcome with
  | Returned wrist_circ => (wrist_circ, PrintAttempting :: out_try, g)
  | _ =>
      let out_except :=
        match outcome with Raised e => [PrintFailed e] | _ => [] end in
      let '(typical_child_wrist, g') := random_uniform 12.5 14.5 g in
      (typical_child_wrist,
       PrintAttempting :: out_try ++ out_except ++ [PrintTypical typical_child_wrist],
       g')
  end.

(** [pixel_height] of [process_image]. *)
Definition pixel_height (landmarks : Landmarks) (h : Z) : Q :=
  let top_y := estimate_head_top_y landmarks h in
  let feet_y := estimate_feet_y landmarks h in
  max 0.0 (feet_y - top_y).

(** [process_image]: the dictionary or the exception, what was printed and
    the state of the random generator afterwards. *)
Definition process_image (path : string) (g : rng)
  : result MeasurementResult * list event * rng :=
  match imread path with
  | None => (Raise (RuntimeError "Unable to open image"), [], g)
  | Some img =>
      let h := shape0 img in
      let w := shape1 img in
      let gray := cvtColor_BGR2GRAY img in
      match detect_scale_pixel_length gray img with
      | None =>
          (Raise (RuntimeError "Could not detect the 15 cm scale automatically."), [], g)
      | Some pixel_length =>
          let pixel_per_cm := pixel_length / 15.0 in
          match pose_process (cvtColor_BGR2RGB img) with
          | None =>
              (Raise (RuntimeError
                        "Pose landmarks not detected. Ensure full body is visible."),
               [], g)
          | Some landmarks =>
              match truediv (pixel_height landmarks h) pixel_per_cm with
              | Raise e => (Raise e, [], g)
              | Ok height_cm =>
                  match measure_head_circumference landmarks w h pixel_per_cm with
                  | Raise e => (Raise e, [], g)
                  | Ok head_circ_cm =>
                      let '(wrist_circ_cm, used, out, g') :=
                        match measure_wrist_circumference landmarks img w h pixel_per_cm with
                        | Some wrist_circ_cm => (wrist_circ_cm, false, [], g)
                        | None =>
                            let '(wrist_circ_cm, out, g') :=
                              estimate_wrist_from_arm_length landmarks w h pixel_per_cm g in
                            (wrist_circ_cm, true, out, g')
                        end in
                      (Ok {| height_cm := height_cm;
                             head_circumference_cm := head_circ_cm;
                             wrist_circumference_cm :=
                               if Qeq_bool wrist_circ_cm 0 then None else Some wrist_circ_cm;
                             wrist_fallback_used := used;
                             pixel_per_cm := pixel_per_cm |},
                       out, g')
                  end
              end
          end
      end
  end.

End WithCollaborators.
End Child.

(** ** The relaxed variant, [2.py] *)

Module Relaxed.
Section WithCollaborators.
Context `{MathLib} `{Vision} `{RandomSource}.

(** A ruler candidate: [(area, long_side, rect, aspect)]. *)
Definition candidate : Type := (Q * Q * RotatedRect * Q)%type.

(** The loop of [detect_scale_pixel_length] that collects candidates. *)
Fixpoint ruler_candidates (contours : list Contour) (w h : Z) : list candidate :=
  match contours with
  | [] => []
  | cnt :: rest =>
      let area := contourArea cnt in
      if ltb area (0.0005 * inject_Z w * inject_Z h) then ruler_candidates rest w h
      else
        let rect := minAreaRect cnt in
        let '(rw, rh) := rect_size rect in
        let long_side := max rw rh in
        let short_side := min rw rh in
        if leb short_side 0 then ruler_candidates rest w h
        else
          let aspect := long_side / (short_side + 1e-8) in
          if ltb 8.0 aspect
             && ltb (0.08 * inject_Z (Z.max w h)) long_side
             && ltb long_side (0.4 * inject_Z (Z.max w h))
          then (area, long_side, rect, aspect) :: ruler_candidates rest w h
          else ruler_candidates rest w h
  end.

(** The rest of [detect_scale_pixel_length], from the contours on. *)
Definition scale_from_contours (contours : list Contour) (w h : Z) : option Q :=
  match ruler_candidates contours w h with
  | [] =>
      match max_by contourArea contours with
      | Some best_cnt =>
          let rect := minAreaRect best_cnt in
          Some (max (fst (rect_size rect)) (snd (rect_size rect)))
      | None => None
      end
  | c :: cs =>
      match sort_reverse (fun x : candidate => (snd x, snd (fst (fst x))))
                         tuple_ltb (c :: cs) with
      | (_area, pixel_length, _rect, _aspect) :: _ => Some pixel_length
      | [] => None
      end
  end.

Definition scale_contours (image_gray : Array2 Z) : list Contour :=
  let blurred := GaussianBlur image_gray (5, 5)%Z 0 in
  let edges := Canny blurred 50 150 in
  findContours_EXTERNAL edges.

Definition detect_scale_pixel_length (image_gray : Array2 Z) (orig_img : Array2 BGR)
  : option Q :=
  scale_from_contours (scale_contours image_gray) (shape1 image_gray) (shape0 image_gray).

(** [estimate_head_top_y].  Indexing [landmarks] cannot fail, so the
    [except] branch (offset 0.06) is never taken. *)
Definition estimate_head_top_y (landmarks : Landmarks) (image_h : Z) : Q :=
  let ys := map (fun name => lm_y (landmarks name))
                [LEFT_EYE; RIGHT_EYE; NOSE; LEFT_EAR; RIGHT_EAR] in
  let min_y := min_list ys in
  let shoulder_y :=
    (lm_y (landmarks LEFT_SHOULDER) + lm_y (landmarks RIGHT_SHOULDER)) / 2.0 in
  let offset := max 0.04 (0.14 * abs (shoulder_y - min_y)) in
  let top_y := max 0.0 (min_y - offset) in
  top_y * inject_Z image_h.

Definition estimate_feet_y (landmarks : Landmarks) (image_h : Z) : Q :=
  let ys := map (fun name => lm_y (landmarks name))
                [LEFT_ANKLE; RIGHT_ANKLE; LEFT_HEEL; RIGHT_HEEL;
                 LEFT_FOOT_INDEX; RIGHT_FOOT_INDEX] in
  let feet_y := max_list ys in
  min (inject_Z image_h) (feet_y * inject_Z image_h).

Definition landmark_point_to_pixel (lm : Landmark) (image_w image_h : Z) : Z * Z :=
  (int (lm_x lm * inject_Z image_w), int (lm_y lm * inject_Z image_h)).

Definition measure_head_circumference
  (landmarks : Landmarks) (image_w image_h : Z) (pixel_per_cm : Q) : result Q :=
  let left_ear := landmarks LEFT_EAR in
  let right_ear := landmarks RIGHT_EAR in
  let left_eye := landmarks LEFT_EYE in
  let right_eye := landmarks RIGHT_EYE in
  let head_width_px :=
    if ltb 0.3 (lm_visibility left_ear) && ltb 0.3 (lm_visibility right_ear) then
      let '(lx, ly) := landmark_point_to_pixel left_ear image_w image_h in
      let '(rx, ry) := landmark_point_to_pixel right_ear image_w image_h in
      hypot (inject_Z (rx - lx)) (inject_Z (ry - ly))
    else
      let '(lx, ly) := landmark_point_to_pixel left_eye image_w image_h in
      let '(rx, ry) := landmark_point_to_pixel right_eye image_w image_h in
      hypot (inject_Z (rx - lx)) (inject_Z (ry - ly)) * 1.6 in
  match truediv head_width_px pixel_per_cm with
  | Raise e => Raise e
  | Ok head_width_cm => Ok (pi * head_width_cm * 1.08)
  end.

(** The scanline loop of [measure_wrist_circumference] (method 1). *)
Definition scanline_widths (edges : Array2 Z) (center_y search_range : Z) : list Z :=
  flat_map
    (fun dy =>
       let y := (center_y + dy)%Z in
       if ((0 <=? y) && (y <? shape0 edges))%Z then
         let row := nth (Z.to_nat y) edges [] in
         let nz := nonzero row in
         if (2 <=? length nz)%nat then
           let width := (last nz 0 - hd 0 nz)%Z in
           if ((5 <? width) && (width <? 120))%Z then [width] else []
         else []
       else [])
    (range2 (- search_range) search_range).

(** The contour fallback of [measure_wrist_circumference] (method 2):
    what it appends to [wrist_widths]. *)
Definition contour_width (crop : Array2 BGR) (gray : Array2 Z) : list Z :=
  let thresh := adaptiveThreshold_GAUSSIAN_BINARY_INV gray 255 11 2 in
  let contours := findContours_EXTERNAL thresh in
  let center_x := (shape1 crop / 2)%Z in
  let valid_contours :=
    flat_map
      (fun cnt =>
         let area := contourArea cnt in
         if ltb area 50
            || ltb (inject_Z (shape0 crop * shape1 crop) * 0.5) area
         then []
         else
           let M := moments cnt in
           if ltb 0 (m00 M) then
             let cx := int (m10 M / m00 M) in
             let dist_from_center := Z.abs (cx - center_x) in
             if ltb (inject_Z dist_from_center) (inject_Z (shape1 crop) * 0.4)
             then [(dist_from_center, cnt)]
             else []
           else [])
      contours in
  match sort (fun x : Z * Contour => fst x) Z.ltb valid_contours with
  | [] => []
  | (_, closest_cnt) :: _ =>
      let '(_, _, w, h) := boundingRect closest_cnt in
      let wrist_width_px := Z.min w h in
      if ((5 <? wrist_width_px) && (wrist_width_px <? 120))%Z
      then [wrist_width_px]
      else []
  end.

(** One turn of the loop over the sides in [measure_wrist_circumference]:
    what the turn appends to [wrist_measurements]. *)
Definition wrist_side_measurement
  (landmarks : Landmarks) (image : Array2 BGR) (image_w image_h : Z)
  (pixel_per_cm : Q) (side : Side) : list Q :=
  let wrist := landmarks (WRIST side) in
  if ltb (lm_visibility wrist) 0.4 then []
  else
    let '(wx, wy) := landmark_point_to_pixel wrist image_w image_h in
    let crop_size := int (max 60 (0.06 * inject_Z (Z.max image_w image_h))) in
    let x0 := Z.max 0 (wx - crop_size) in
    let x1 := Z.min image_w (wx + crop_size) in
    let y0 := Z.max 0 (wy - crop_size) in
    let y1 := Z.min image_h (wy + crop_size) in
    let crop := crop_of image y0 y1 x0 x1 in
    if size_is_zero crop then []
    else
      let gray := cvtColor_BGR2GRAY crop in
      let filtered := bilateralFilter gray 9 75 75 in
      let edges1 := Canny filtered 30 90 in
      let blurred := GaussianBlur gray (5, 5)%Z 0 in
      let edges2 := Canny blurred 20 60 in
      let edges := bitwise_or edges1 edges2 in
      let center_y := (shape0 crop / 2)%Z in
      let search_range := (shape0 crop / 3)%Z in
      let wrist_widths := scanline_widths edges center_y search_range in
      let wrist_widths :=
        if (length wrist_widths <? 3)%nat
        then wrist_widths ++ contour_width crop gray
        else wrist_widths in
      match median wrist_widths with
      | None => []
      | Some wrist_width_px =>
          match np_truediv wrist_width_px pixel_per_cm with
          | None => []
          | Some wrist_width_cm =>
              let wrist_circ := pi * wrist_width_cm * 1.3 in
              if leb 6 wrist_circ && leb wrist_circ 25 then [wrist_circ] else []
          end
      end.

Definition measure_wrist_circumference
  (landmarks : Landmarks) (image : Array2 BGR) (image_w image_h : Z)
  (pixel_per_cm : Q) : option Q :=
  let wrist_measurements :=
    flat_map (wrist_side_measurement landmarks image image_w image_h pixel_per_cm)
             [LEFT; RIGHT] in
  mean wrist_measurements.

(** The block of [estimate_wrist_from_arm_length] for one arm; the source
    has it twice, for the left and for the right landmarks. *)
Definition try_arm
  (landmarks : Landmarks) (image_w image_h : Z) (pixel_per_cm : Q) (side : Side)
  : list event * arm_outcome :=
  let shoulder := landmarks (SHOULDER side) in
  let elbow := landmarks (ELBOW side) in
  let wrist := landmarks (WRIST side) in
  let out1 :=
    [PrintArmVisibility side
       [lm_visibility shoulder; lm_visibility elbow; lm_visibility wrist]] in
  if ltb 0.3 (lm_visibility shoulder)
     && ltb 0.3 (lm_visibility elbow)
     && ltb 0.3 (lm_visibility wrist) then
    let forearm_length_px :=
      hypot ((lm_x wrist - lm_x elbow) * inject_Z image_w)
            ((lm_y wrist - lm_y elbow) * inject_Z image_h) in
    match truediv forearm_length_px pixel_per_cm with
    | Raise e => (out1, Raised e)
    | Ok forearm_length_cm =>
        let wrist_circ := forearm_length_cm * 0.16 in
        let out2 := out1 ++ [PrintForearm side forearm_length_cm wrist_circ] in
        if leb 8 wrist_circ && leb wrist_circ 18
        then (out2 ++ [PrintEstimated side wrist_circ forearm_length_cm],
              Returned wrist_circ)
        else (out2 ++ [PrintOutOfRange side wrist_circ], FellThrough)
    end
  else (out1, FellThrough).

(** The [try] block: the left arm, then, unless the left block returned or
    raised, the right arm. *)
Definition try_arms
  (landmarks : Landmarks) (image_w image_h : Z) (pixel_per_cm : Q)
  : list event * arm_outcome :=
  let '(out_left, left_arm) := try_arm landmarks image_w image_h pixel_per_cm LEFT in
  match left_arm with
  | FellThrough =>
      let '(out_right, right_arm) :=
        try_arm landmarks image_w image_h pixel_per_cm RIGHT in
      (out_left ++ out_right, right_arm)
  | _ => (out_left, left_arm)
  end.

(** [estimate_wrist_from_arm_length]: the value returned, what was printed
    and the state of the random generator afterwards. *)
Definition estimate_wrist_from_arm_length
  (landmarks : Landmarks) (image_w image_h : Z) (pixel_per_cm : Q) (g : rng)
  : Q * list event * rng :=
  let '(out_try, outcome) := try_arms landmarks image_w image_h pixel_per_cm in
  match outcome with
  | Returned wrist_circ => (wrist_circ, PrintAttempting :: out_try, g)
  | _ =>
      let out_except :=
        match outcome with Raised e => [PrintFailed e] | _ => [] end in
      let '(typical_child_wrist, g') := random_uniform 12.5 14.5 g in
      (typical_child_wrist,
       PrintAttempting :: out_try ++ out_except ++ [PrintTypical typical_child_wrist],
       g')
  end.

(** [pixel_height] of [process_image]. *)
Definition pixel_height (landmarks : Landmarks) (h : Z) : Q :=
  let top_y := estimate_head_top_y landmarks h in
  let feet_y := estimate_feet_y landmarks h in
  max 0.0 (feet_y - top_y).

(** [process_image]: the dictionary or the exception, what was printed and
    the state of the random generator afterwards. *)
Definition process_image (path : string) (g : rng)
  : result MeasurementResult * list event * rng :=
  match imread path with
  | None => (Raise (RuntimeError "Unable to open image"), [], g)
  | Some img =>
      let h := shape0 img in
      let w := shape1 img in
      let gray := cvtColor_BGR2GRAY img in
      match detect_scale_pixel_length gray img with
      | None =>
          (Raise (RuntimeError "Could not detect the 15 cm scale automatically."), [], g)
      | Some pixel_length =>
          let pixel_per_cm := pixel_length / 15.0 in
          match pose_process (cvtColor_BGR2RGB img) with
          | None =>
              (Raise (RuntimeError
                        "Pose landmarks not detected. Ensure full body is visible."),
               [], g)
          | Some landmarks =>
              match truediv (pixel_height landmarks h) pixel_per_cm with
              | Raise e => (Raise e, [], g)
              | Ok height_cm =>
                  match measure_head_circumference landmarks w h pixel_per_cm with
                  | Raise e => (Raise e, [], g)
                  | Ok head_circ_cm =>
                      let '(wrist_circ_cm, used, out, g') :=
                        match measure_wrist_circumference landmarks img w h pixel_per_cm with
                        | Some wrist_circ_cm => (wrist_circ_cm, false, [], g)
                        | None =>
                            let '(wrist_circ_cm, out, g') :=
                              estimate_wrist_from_arm_length landmarks w h pixel_per_cm g in
                            (wrist_circ_cm, true, out, g')
                        end in
                      (Ok {| height_cm := height_cm;
                             head_circumference_cm := head_circ_cm;
                             wrist_circumference_cm :=
                               if Qeq_bool wrist_circ_cm 0 then None else Some wrist_circ_cm;
                             wrist_fallback_used := used;
                             pixel_per_cm := pixel_per_cm |},
                       out, g')
                  end
              end
          end
      end
  end.

End WithCollaborators.
End Relaxed.

(** ** Properties under study, as predicates *)

(** The strict variant does not keep the aspect ratio of a candidate; it
    is recomputed here from the candidate's rectangle as the loop of
    [detect_scale_pixel_length] computes it. *)
Definition rect_aspect (rect : RotatedRect) : Q :=
  let '(rw, rh) := rect_size rect in
  max rw rh / (min rw rh + 1e-8).

Definition child_aspect (c : Child.candidate) : Q := rect_aspect (snd c).
Definition child_long_side (c : Child.candidate) : Q := snd (fst c).
Definition child_area (c : Child.candidate) : Q := fst (fst c).
Definition relaxed_aspect (c : Relaxed.candidate) : Q := snd c.
Definition relaxed_long_side (c : Relaxed.candidate) : Q := snd (fst (fst c)).

(** [c] is greatest among [cs] for the pair (aspect, long side) compared
    lexicographically. *)
Definition lex_greatest {C : Type} (aspect long_side : C -> Q) (c : C) (cs : list C)
  : Prop :=
  forall c', In c' cs ->
    aspect c' <= aspect c /\ (aspect c' == aspect c -> long_side c' <= long_side c).

(** The detector returned the long side of a candidate that is greatest
    for (aspect, long side). *)
Definition returns_most_ruler_like {C : Type} (aspect long_side : C -> Q)
  (cs : list C) (returned : option Q) : Prop :=
  exists c, In c cs /\ returned = Some (long_side c) /\ lex_greatest aspect long_side c cs.

(** The sides whose visibilities were printed, in the order of printing:
    the arms the fallback examined. *)
Fixpoint arms_examined (out : list event) : list Side :=
  match out with
  | [] => []
  | PrintArmVisibility side _ :: out' => side :: arms_examined out'
  | _ :: out' => arms_examined out'
  end.

(** The forearm of [side] was measured: the arm passed the visibility
    test. *)
Definition arm_measured (out : list event) (side : Side) : Prop :=
  exists forearm_length_cm wrist_circ,
    In (PrintForearm side forearm_length_cm wrist_circ) out.

(** The random last-resort estimate was reached. *)
Definition random_estimate_reached (out : list event) : Prop :=
  exists v, In (PrintTypical v) out.

(** The wrist estimate the arm of [side] yields: forearm length in
    centimeters times 0.16. *)
Definition arm_wrist_circ `{MathLib}
  (landmarks : Landmarks) (image_w image_h : Z) (pixel_per_cm : Q) (side : Side) : Q :=
  let elbow := landmarks (ELBOW side) in
  let wrist := landmarks (WRIST side) in
  hypot ((lm_x wrist - lm_x elbow) * inject_Z image_w)
        ((lm_y wrist - lm_y elbow) * inject_Z image_h) / pixel_per_cm * 0.16.

(** The Euclidean distance between the pixels of two landmarks. *)
Definition pixel_distance `{MathLib} (a b : Landmark) (image_w image_h : Z) : Q :=
  let pa := Child.landmark_point_to_pixel a image_w image_h in
  let pb := Child.landmark_point_to_pixel b image_w image_h in
  hypot (inject_Z (fst pb - fst pa)) (inject_Z (snd pb - snd pa)).

(** [z] is [q] with its fractional part dropped. *)
Definition truncation_of (z : Z) (q : Q) : Prop :=
  (0 <= q -> inject_Z z <= q /\ q < inject_Z z + 1)
  /\ (q <= 0 -> inject_Z z - 1 < q /\ q <= inject_Z z).

(** The visibility test an arm must pass in each variant. *)
Definition child_arm_eligible (landmarks : Landmarks) (side : Side) : Prop :=
  0.3 < lm_visibility (landmarks (ELBOW side))
  /\ 0.3 < lm_visibility (landmarks (WRIST side)).

Definition relaxed_arm_eligible (landmarks : Landmarks) (side : Side) : Prop :=
  0.3 < lm_visibility (landmarks (SHOULDER side))
  /\ 0.3 < lm_visibility (landmarks (ELBOW side))
  /\ 0.3 < lm_visibility (landmarks (WRIST side)).

(** The arithmetic mean of a list of numbers. *)
Definition arithmetic_mean (l : list Q) : Q :=
  fold_right Qplus 0 l / inject_Z (Z.of_nat (length l)).

(** What [try_arm] does, case by case. *)
Inductive arm_run `{MathLib}
  (landmarks : Landmarks) (image_w image_h : Z) (pixel_per_cm : Q)
  (side : Side) (visibilities : list Q) (eligible : Prop)
  : list event * arm_outcome -> Prop :=
| arm_not_eligible :
    ~ eligible ->
    arm_run landmarks image_w image_h pixel_per_cm side visibilities eligible
      ([PrintArmVisibility side visibilities], FellThrough)
| arm_division_raises :
    eligible -> pixel_per_cm == 0 ->
    arm_run landmarks image_w image_h pixel_per_cm side visibilities eligible
      ([PrintArmVisibility side visibilities], Raised ZeroDivisionError)
| arm_accepted (forearm_length_cm : Q) :
    eligible -> ~ pixel_per_cm == 0 ->
    8 <= arm_wrist_circ landmarks image_w image_h pixel_per_cm side <= 18 ->
    arm_run landmarks image_w image_h pixel_per_cm side visibilities eligible
      ([PrintArmVisibility side visibilities;
        PrintForearm side forearm_length_cm
          (arm_wrist_circ landmarks image_w image_h pixel_per_cm side);
        PrintEstimated side
          (arm_wrist_circ landmarks image_w image_h pixel_per_cm side)
          forearm_length_cm],
       Returned (arm_wrist_circ landmarks image_w image_h pixel_per_cm side))
| arm_out_of_range (forearm_length_cm : Q) :
    eligible -> ~ pixel_per_cm == 0 ->
    ~ (8 <= arm_wrist_circ landmarks image_w image_h pixel_per_cm side <= 18) ->
    arm_run landmarks image_w image_h pixel_per_cm side visibilities eligible
      ([PrintArmVisibility side visibilities;
        PrintForearm side forearm_length_cm
          (arm_wrist_circ landmarks image_w image_h pixel_per_cm side);
        PrintOutOfRange side
          (arm_wrist_circ landmarks image_w image_h pixel_per_cm side)],
       FellThrough).

(** The [try] block runs the left arm and, when that block falls through,
    the right arm. *)
Definition both_arms (left_run right_run : list event * arm_outcome)
  : list event * arm_outcome :=
  match snd left_run with
  | FellThrough => (fst left_run ++ fst right_run, snd right_run)
  | _ => left_run
  end.

(** What the fallback does once the [try] block has ended with [r]. *)
Definition estimate_from `{RandomSource} (r : list event * arm_outcome) (g : rng)
  : Q * list event * rng :=
  match snd r with
  | Returned wrist_circ => (wrist_circ, PrintAttempting :: fst r, g)
  | outcome =>
      (fst (random_uniform 12.5 14.5 g),
       PrintAttempting
         :: fst r
         ++ match outcome with Raised e => [PrintFailed e] | _ => [] end
         ++ [PrintTypical (fst (random_uniform 12.5 14.5 g))],
       snd (random_uniform 12.5 14.5 g))
  end.

(** What is known of the [try] block of either variant. *)
Definition arms_summary `{MathLib}
  (eligible : Side -> Prop)
  (landmarks : Landmarks) (image_w image_h : Z) (pixel_per_cm : Q)
  (r : list event * arm_outcome) : Prop :=
  (arms_examined (fst r) = [LEFT] \/ arms_examined (fst r) = [LEFT; RIGHT])
  /\ (forall s, arm_measured (fst r) s -> eligible s)
  /\ ~ random_estimate_reached (fst r)
  /\ (forall c, snd r = Returned c ->
        exists side,
          eligible side
          /\ c = arm_wrist_circ landmarks image_w image_h pixel_per_cm side
          /\ 8 <= c <= 18).

(** ** Concrete collaborators and inputs, for evaluation *)

(** A square root on rationals, exact to six decimals. *)
Definition sqrt6 (q : Q) : Q :=
  inject_Z (Z.sqrt (Qnum q * Zpos (Qden q) * 10 ^ 12))
  / inject_Z (Zpos (Qden q) * 10 ^ 6).

#[local] Instance math6 : MathLib := {|
  hypot := fun a b => Qred (sqrt6 (Qred (a * a + b * b)));
  pi := 3.141592653589793
|}.

(** A linear congruential generator; [random()] is the state scaled into
    [0, 1). *)
#[local] Instance lcg : RandomSource := {|
  rng := Z;
  random_random := fun s =>
    (inject_Z (s mod 2147483648) / 2147483648,
     ((1103515245 * s + 12345) mod 2147483648)%Z)
|}.

(** Two elongated contours for a frame 100 wide and 200 high: a wide
    short one of larger area and a thin long one. *)
Definition wide_contour : Contour :=
  mkContour 150 (mkRect (30, 40) (40, 4) 0) (mkMoments 150 4500 6000)
            (10, 38, 40, 4)%Z.
Definition thin_contour : Contour :=
  mkContour 140 (mkRect (50, 120) (75, 3) 0) (mkMoments 140 7000 16800)
            (12, 118, 75, 3)%Z.

(** A contour made of a single edge pixel: no area, and a minimum-area
    rectangle of size zero. *)
Definition point_contour : Contour :=
  mkContour 0 (mkRect (7, 9) (0, 0) 0) (mkMoments 0 0 0) (7, 9, 1, 1)%Z.

(** A ruler of 30 by 2 pixels. *)
Definition ruler_contour : Contour :=
  mkContour 50 (mkRect (50, 20) (30, 2) 0) (mkMoments 50 2500 1000) (35, 19, 30, 2)%Z.

(** A subject standing in a frame 100 wide and 200 high, every landmark
    fully visible. *)
Definition standing (name : PoseLandmark) : Landmark :=
  match name with
  | NOSE => mkLandmark 0.5 0.15 1
  | LEFT_EYE => mkLandmark 0.55 0.13 1
  | RIGHT_EYE => mkLandmark 0.45 0.13 1
  | LEFT_EAR => mkLandmark 0.6 0.14 1
  | RIGHT_EAR => mkLandmark 0.4 0.14 1
  | LEFT_SHOULDER => mkLandmark 0.7 0.25 1
  | RIGHT_SHOULDER => mkLandmark 0.3 0.25 1
  | LEFT_ELBOW => mkLandmark 0.75 0.3 1
  | RIGHT_ELBOW => mkLandmark 0.25 0.3 1
  | LEFT_WRIST => mkLandmark 0.75 0.85 1
  | RIGHT_WRIST => mkLandmark 0.25 0.85 1
  | LEFT_ANKLE => mkLandmark 0.55 0.9 1
  | RIGHT_ANKLE => mkLandmark 0.45 0.9 1
  | LEFT_HEEL => mkLandmark 0.55 0.93 1
  | RIGHT_HEEL => mkLandmark 0.45 0.93 1
  | LEFT_FOOT_INDEX => mkLandmark 0.6 0.95 1
  | RIGHT_FOOT_INDEX => mkLandmark 0.4 0.95 1
  end.

(** The same subject with the left shoulder hidden. *)
Definition shoulder_hidden (name : PoseLandmark) : Landmark :=
  match name with
  | LEFT_SHOULDER => mkLandmark 0.7 0.25 0
  | _ => standing name
  end.

(** The same subject with both arms hidden. *)
Definition arms_hidden (name : PoseLandmark) : Landmark :=
  match name with
  | LEFT_ELBOW | RIGHT_ELBOW | LEFT_WRIST | RIGHT_WRIST =>
      mkLandmark (lm_x (standing name)) (lm_y (standing name)) 0.1
  | _ => standing name
  end.

(** A black frame 100 wide and 200 high. *)
Definition black_frame : Array2 BGR := repeat (repeat (0, 0, 0)%Z 100) 200.
Definition gray_frame : Array2 Z := repeat (repeat 0%Z 100) 200.

(** A vision stack that sees, whatever the pixels, the given contours and
    the given subject, and finds no edges. *)
Definition staged_vision (contours : list Contour) (subject : option Landmarks)
  : Vision := {|
  imread := fun _ => Some black_frame;
  cvtColor_BGR2GRAY := map (map (fun _ => 0%Z));
  GaussianBlur := fun a _ _ => a;
  bilateralFilter := fun a _ _ _ => a;
  Canny := fun a _ _ => a;
  adaptiveThreshold_GAUSSIAN_BINARY_INV := fun a _ _ _ => a;
  findContours_EXTERNAL := fun _ => contours;
  pose_process := fun _ => subject
|}.


(** A ruler of 150 by 10 pixels. *)
Definition long_ruler_contour : Contour :=
  mkContour 1400 (mkRect (50, 100) (10, 150) 90) (mkMoments 1400 70000 140000)
            (45, 25, 10, 150)%Z.

(** A row of an edge map with edge pixels in columns 20 and 50. *)
Definition edge_row (width : nat) : list Z :=
  firstn width (repeat 0%Z 20 ++ [255%Z] ++ repeat 0%Z 29 ++ [255%Z] ++ repeat 0%Z 200).

(** A vision stack whose edge detector marks columns 20 and 50 of every
    row. *)
Definition edge_vision (contours : list Contour) (subject : option Landmarks)
  : Vision := {|
  imread := fun _ => Some black_frame;
  cvtColor_BGR2GRAY := map (map (fun _ => 0%Z));
  GaussianBlur := fun a _ _ => a;
  bilateralFilter := fun a _ _ _ => a;
  Canny := fun a _ _ => map (fun row => edge_row (length row)) a;
  adaptiveThreshold_GAUSSIAN_BINARY_INV := fun a _ _ _ => a;
  findContours_EXTERNAL := fun _ => contours;
  pose_process := fun _ => subject
|}.

(** ** Further predicates and inputs *)

(** The long side of the minimum-area rectangle of a contour. *)
Definition contour_long_side (cnt : Contour) : Q :=
  max (fst (rect_size (minAreaRect cnt))) (snd (rect_size (minAreaRect cnt))).

(** A roundish contour of 20 by 15 pixels. *)
Definition blob_contour : Contour :=
  mkContour 250 (mkRect (60, 150) (20, 15) 0) (mkMoments 250 15000 37500)
            (50, 143, 20, 15)%Z.

(** The tests a contour passes to become a ruler candidate, with the
    thresholds of a variant: area, positive short side, aspect, and long
    side as a fraction of the larger image dimension. *)
Definition ruler_like (aspect_min lo hi : Q) (w h : Z) (cnt : Contour) : Prop :=
  0.0005 * inject_Z w * inject_Z h <= contourArea cnt
  /\ 0 < min (fst (rect_size (minAreaRect cnt))) (snd (rect_size (minAreaRect cnt)))
  /\ aspect_min < rect_aspect (minAreaRect cnt)
  /\ lo * inject_Z (Z.max w h) < contour_long_side cnt
  /\ contour_long_side cnt < hi * inject_Z (Z.max w h).

(** The landmarks [estimate_head_top_y] and [estimate_feet_y] read. *)
Definition face_landmarks : list PoseLandmark :=
  [LEFT_EYE; RIGHT_EYE; NOSE; LEFT_EAR; RIGHT_EAR].
Definition feet_landmarks : list PoseLandmark :=
  [LEFT_ANKLE; RIGHT_ANKLE; LEFT_HEEL; RIGHT_HEEL; LEFT_FOOT_INDEX; RIGHT_FOOT_INDEX].

(** A subject whose feet reach below the frame. *)
Definition feet_below_frame (name : PoseLandmark) : Landmark :=
  match name with
  | LEFT_FOOT_INDEX => mkLandmark 0.6 1.1 1
  | _ => standing name
  end.

(** ** The prediction service, [api_server.py] *)

Module ApiServer.

(** [round(x, ndigits)] on a float: the nearest multiple of
    [10 ** -ndigits], ties going to the even one. *)
Definition round_ndigits (x : Q) (ndigits : nat) : Q :=
  inject_Z (round (x * inject_Z (10 ^ Z.of_nat ndigits)))
  / inject_Z (10 ^ Z.of_nat ndigits).

(** [sep in s] and [s.split(sep)] for a one-character separator. *)
Fixpoint contains (sep : Ascii.ascii) (s : string) : bool :=
  match s with
  | EmptyString => false
  | String c s' => if Ascii.eqb c sep then true else contains sep s'
  end.

Fixpoint split (sep : Ascii.ascii) (s : string) : list string :=
  match s with
  | EmptyString => [EmptyString]
  | String c s' =>
      if Ascii.eqb c sep then EmptyString :: split sep s'
      else
        match split sep s' with
        | piece :: pieces => String c piece :: pieces
        | [] => [String c EmptyString]
        end
  end.

(** The character [','], and the base64 text of the payload: what follows
    the first comma, up to the next one, when there is a comma (a data-URL
    prefix). *)
Definition comma : Ascii.ascii := Ascii.ascii_of_nat 44.

Definition strip_data_url_prefix (image_base64 : string) : string :=
  if contains comma image_base64
  then nth 1 (split comma image_base64) EmptyString
  else image_base64.

(** [data[key]] and [key in data] on the JSON object of the request, kept
    as a list of pairs; the values the handlers read are strings. *)
Fixpoint lookup (key : string) (data : list (string * string)) : option string :=
  match data with
  | [] => None
  | (k, v) :: data' => if String.eqb k key then Some v else lookup key data'
  end.

(** The JSON bodies the handlers return, with their status codes. *)
Record Measurements : Type := mkMeasurements {
  m_height_cm : Q;
  m_head_circumference_cm : Q;
  m_wrist_circumference_cm : option Q;
  m_pixel_per_cm : Q
}.

Inductive body : Type :=
| Success (measurements : Measurements)
| Failure (error : string).

Definition response : Type := (body * Z)%type.

(** What the handlers use besides the pipeline: [base64.b64decode] and
    [urllib.request.urlopen(...).read()], which give bytes or raise (the
    text is [str(e)]); [cv2.imdecode]; the name of the temporary file;
    what [cv2.imread] reads back from a file written by [cv2.imwrite]
    (nothing when the write failed); and [str(e)] for a
    [ZeroDivisionError]. *)
Class Server : Type := {
  b64decode : string -> string + list Z;
  urlopen_read : string -> string + list Z;
  imdecode : list Z -> option (Array2 BGR);
  temp_path : string;
  imwrite_imread : Array2 BGR -> option (Array2 BGR);
  str_ZeroDivisionError : string
}.

Section WithCollaborators.
Context `{MathLib} `{Vision} `{RandomSource} `{Server}.

(** The vision stack once [img] has been written to the temporary file. *)
Definition with_temp_file (img : Array2 BGR) : Vision := {|
  imread := fun path =>
    if String.eqb path temp_path then imwrite_imread img else imread path;
  cvtColor_BGR2GRAY := cvtColor_BGR2GRAY;
  GaussianBlur := GaussianBlur;
  bilateralFilter := bilateralFilter;
  Canny := Canny;
  adaptiveThreshold_GAUSSIAN_BINARY_INV := adaptiveThreshold_GAUSSIAN_BINARY_INV;
  findContours_EXTERNAL := findContours_EXTERNAL;
  pose_process := pose_process
|}.

(** [str(e)]. *)
Definition str (e : exn) : string :=
  match e with
  | RuntimeError msg => msg
  | ZeroDivisionError => str_ZeroDivisionError
  end.

(** The dictionary of rounded measurements. *)
Definition rounded (results : MeasurementResult) : Measurements := {|
  m_height_cm := round_ndigits (height_cm results) 1;
  m_head_circumference_cm := round_ndigits (head_circumference_cm results) 1;
  m_wrist_circumference_cm :=
    match wrist_circumference_cm results with
    | Some wrist => Some (round_ndigits wrist 1)
    | None => None
    end;
  m_pixel_per_cm := round_ndigits (pixel_per_cm results) 3
|}.

(** The part the two handlers share, from the decoded image on: the
    response, the temporary files left on disk, what the pipeline printed
    and the state of the random generator. *)
Definition respond_to_image (img : Array2 BGR) (g : rng)
  : response * list string * list event * rng :=
  match @Child.process_image _ (with_temp_file img) _ temp_path g with
  | (Ok results, out, g') => ((Success (rounded results), 200%Z), [], out, g')
  | (Raise (RuntimeError msg), out, g') => ((Failure msg, 400%Z), [], out, g')
  | (Raise e, out, g') =>
      ((Failure ("Server error: " ++ str e), 500%Z), [temp_path], out, g')
  end.

Definition respond_to_bytes
  (undecodable : string) (image_bytes : string + list Z) (g : rng)
  : response * list string * list event * rng :=
  match image_bytes with
  | inl text => ((Failure ("Server error: " ++ text), 500%Z), [], [], g)
  | inr nparr =>
      match imdecode nparr with
      | None => ((Failure undecodable, 400%Z), [], [], g)
      | Some img => respond_to_image img g
      end
  end.

(** [predict_measurements], on the parsed JSON of the request ([None]
    when there is none). *)
Definition predict_measurements (data : option (list (string * string))) (g : rng)
  : response * list string * list event * rng :=
  match data with
  | None | Some [] => ((Failure "No image data provided", 400%Z), [], [], g)
  | Some fields =>
      match lookup "image" fields with
      | None => ((Failure "No image data provided", 400%Z), [], [], g)
      | Some image_base64 =>
          respond_to_bytes "Failed to decode image"
            (b64decode (strip_data_url_prefix image_base64)) g
      end
  end.


End WithCollaborators.
End ApiServer.

(** A server whose decoders accept everything. *)
#[local] Instance plain_server : ApiServer.Server := {|
  ApiServer.b64decode := fun _ => inr [255; 216; 255]%Z;
  ApiServer.urlopen_read := fun _ => inr [255; 216; 255]%Z;
  ApiServer.imdecode := fun _ => Some black_frame;
  ApiServer.temp_path := "/tmp/tmpab12cd.jpg";
  ApiServer.imwrite_imread := fun img => Some img;
  ApiServer.str_ZeroDivisionError := "float division by zero"
|}.

(** The crop of [measure_wrist_circumference] (strict variant) around a
    wrist landmark, and what one turn of the loop does once the crop is
    known not to be empty. *)
Definition child_crop_size (image_w image_h : Z) : Z :=
  int (max 50 (0.05 * inject_Z (Z.max image_w image_h))).

Definition child_wrist_crop
  (image : Array2 BGR) (wrist : Landmark) (image_w image_h : Z) : Array2 BGR :=
  let '(wx, wy) := Child.landmark_point_to_pixel wrist image_w image_h in
  let crop_size := child_crop_size image_w image_h in
  let x0 := Z.max 0 (wx - crop_size) in
  let x1 := Z.min image_w (wx + crop_size) in
  let y0 := Z.max 0 (wy - crop_size) in
  let y1 := Z.min image_h (wy + crop_size) in
  crop_of image y0 y1 x0 x1.

Definition child_measure_crop `{MathLib} `{Vision}
  (crop : Array2 BGR) (pixel_per_cm : Q) : list Q :=
  let gray := cvtColor_BGR2GRAY crop in
  let filtered := bilateralFilter gray 9 75 75 in
  let edges := Canny filtered 30 90 in
  let center_y := (shape0 crop / 2)%Z in
  let search_range := (shape0 crop / 4)%Z in
  let wrist_widths := Child.scanline_widths edges center_y search_range in
  match median wrist_widths with
  | None => []
  | Some wrist_width_px =>
      match np_truediv wrist_width_px pixel_per_cm with
      | None => []
      | Some wrist_width_cm =>
          let wrist_circ := pi * wrist_width_cm * 1.3 in
          if leb 8 wrist_circ && leb wrist_circ 16 then [wrist_circ] else []
      end
  end.

(** An array of [image_h] rows of [image_w] pixels each. *)
Definition rectangular {A : Type} (image : Array2 A) (image_w image_h : Z) : Prop :=
  shape0 image = image_h
  /\ forall row, In row image -> Z.of_nat (length row) = image_w.

(** ** Comparisons, [max] and [min] *)

Lemma ltb_lt (a b : Q) : ltb a b = true <-> a < b.
Proof.
  unfold ltb. rewrite negb_true_iff. split; intro Hab.
  - apply Qnot_le_lt. intro Hle. apply Qle_bool_iff in Hle. congruence.
  - destruct (Qle_bool b a) eqn:E; [|reflexivity].
    apply Qle_bool_iff in E. exfalso. exact (Qlt_not_le _ _ Hab E).
Qed.

Lemma ltb_ge (a b : Q) : ltb a b = false <-> b <= a.
Proof.
  unfold ltb. rewrite negb_false_iff. apply Qle_bool_iff.
Qed.

Lemma leb_le (a b : Q) : leb a b = true <-> a <= b.
Proof. apply Qle_bool_iff. Qed.

Lemma max_spec (a b : Q) : (a < b /\ max a b = b) \/ (b <= a /\ max a b = a).
Proof.
  unfold max. destruct (ltb a b) eqn:E.
  - left. split; [apply ltb_lt; exact E | reflexivity].
  - right. split; [apply ltb_ge; exact E | reflexivity].
Qed.

Lemma min_spec (a b : Q) : (b < a /\ min a b = b) \/ (a <= b /\ min a b = a).
Proof.
  unfold min. destruct (ltb b a) eqn:E.
  - left. split; [apply ltb_lt; exact E | reflexivity].
  - right. split; [apply ltb_ge; exact E | reflexivity].
Qed.

Lemma max_lower_l (a b : Q) : a <= max a b.
Proof. destruct (max_spec a b) as [[Hlt ->] | [Hle ->]]; lra. Qed.

Lemma min_upper_l (a b : Q) : min a b <= a.
Proof. destruct (min_spec a b) as [[Hlt ->] | [Hle ->]]; lra. Qed.

Lemma ltb_asym (a b : Q) : ltb a b = true -> ltb b a = false.
Proof. rewrite ltb_lt, ltb_ge. lra. Qed.

Lemma ltb_negtrans (a b c : Q) : ltb a b = false -> ltb b c = false -> ltb a c = false.
Proof. rewrite !ltb_ge. lra. Qed.

Lemma tuple_ltb_false (p q : Q * Q) :
  tuple_ltb p q = false <->
  fst q < fst p \/ (fst p == fst q /\ snd q <= snd p).
Proof.
  unfold tuple_ltb. destruct (Qeq_bool (fst p) (fst q)) eqn:E.
  - apply Qeq_bool_iff in E. rewrite ltb_ge. split; [intro; right; split; assumption|].
    intros [Hlt | [_ Hle]]; [lra | exact Hle].
  - apply Qeq_bool_neq in E. rewrite ltb_ge. split.
    + intro Hle. left. destruct (Q_dec (fst q) (fst p)) as [[Hlt | Hgt] | Heq].
      * exact Hlt.
      * lra.
      * exfalso. apply E. symmetry. exact Heq.
    + intros [Hlt | [Heq _]]; [lra | contradiction].
Qed.

Lemma tuple_ltb_true (p q : Q * Q) :
  tuple_ltb p q = true <->
  fst p < fst q \/ (fst p == fst q /\ snd p < snd q).
Proof.
  unfold tuple_ltb. destruct (Qeq_bool (fst p) (fst q)) eqn:E.
  - apply Qeq_bool_iff in E. rewrite ltb_lt. split; [intro; right; split; assumption|].
    intros [Hlt | [_ Hlt]]; [lra | exact Hlt].
  - apply Qeq_bool_neq in E. rewrite ltb_lt. split; [intro; left; assumption|].
    intros [Hlt | [Heq _]]; [exact Hlt | contradiction].
Qed.

Lemma tuple_ltb_asym (p q : Q * Q) : tuple_ltb p q = true -> tuple_ltb q p = false.
Proof.
  rewrite tuple_ltb_true, tuple_ltb_false.
  intros [Hlt | [Heq Hlt]]; [left; exact Hlt | right; split; [symmetry; exact Heq | lra]].
Qed.

Lemma tuple_ltb_negtrans (p q r : Q * Q) :
  tuple_ltb p q = false -> tuple_ltb q r = false -> tuple_ltb p r = false.
Proof.
  rewrite !tuple_ltb_false.
  intros [H1 | [E1 L1]] [H2 | [E2 L2]].
  - left; lra.
  - left; lra.
  - left; lra.
  - right; split; lra.
Qed.

(** ** The head of a list sorted in reverse *)

Section SortReverseHead.
Context {A K : Type} (key : A -> K) (lt : K -> K -> bool).
Hypothesis lt_asym : forall a b, lt a b = true -> lt b a = false.
Hypothesis lt_negtrans :
  forall a b c, lt a b = false -> lt b c = false -> lt a c = false.

Lemma lt_irrefl (a : K) : lt a a = false.
Proof.
  destruct (lt a a) eqn:E; [|reflexivity].
  pose proof (lt_asym _ _ E). congruence.
Qed.

Lemma insert_desc_not_nil (a : A) (l : list A) : insert_desc key lt a l <> [].
Proof. destruct l as [|b l']; simpl; [|destruct (lt (key a) (key b))]; discriminate. Qed.

Lemma sort_reverse_nil (l : list A) : sort_reverse key lt l = [] -> l = [].
Proof.
  destruct l as [|a l']; [reflexivity|]. simpl. intro E.
  exfalso. exact (insert_desc_not_nil _ _ E).
Qed.

Lemma sort_reverse_head (l : list A) (top : A) (rest : list A) :
  sort_reverse key lt l = top :: rest ->
  In top l /\ forall a, In a l -> lt (key top) (key a) = false.
Proof.
  revert top rest. induction l as [|a l IH]; intros top rest; simpl.
  - discriminate.
  - destruct (sort_reverse key lt l) as [|b s] eqn:Es; simpl.
    + apply sort_reverse_nil in Es. subst l. intro E. injection E as <- _.
      split; [left; reflexivity|].
      intros a' [<- | []]. apply lt_irrefl.
    + destruct (IH b s eq_refl) as [Hin Hmax].
      destruct (lt (key a) (key b)) eqn:Eab; intro E; injection E as <- _.
      * split; [right; exact Hin|].
        intros a' [<- | Ha']; [apply lt_asym; exact Eab | apply Hmax; exact Ha'].
      * split; [left; reflexivity|].
        intros a' [<- | Ha']; [apply lt_irrefl|].
        apply lt_negtrans with (b := key b); [exact Eab | apply Hmax; exact Ha'].
Qed.

End SortReverseHead.

(** ** Scale detector *)

Lemma relaxed_scale_with_candidates (contours : list Contour) (w h : Z) :
  Relaxed.ruler_candidates contours w h <> [] ->
  returns_most_ruler_like relaxed_aspect relaxed_long_side
    (Relaxed.ruler_candidates contours w h)
    (Relaxed.scale_from_contours contours w h).
Proof.
  unfold Relaxed.scale_from_contours.
  destruct (Relaxed.ruler_candidates contours w h) as [|c cs] eqn:Ec; [congruence|].
  intros _.
  destruct (sort_reverse (fun x : Relaxed.candidate => (snd x, snd (fst (fst x))))
              tuple_ltb (c :: cs)) as [|top rest] eqn:Es.
  - apply sort_reverse_nil in Es. discriminate.
  - apply sort_reverse_head in Es;
      [| exact tuple_ltb_asym | exact tuple_ltb_negtrans].
    destruct Es as [Hin Hmax].
    exists top. split; [exact Hin|]. split.
    + destruct top as [[[area long_side] rect] aspect]. reflexivity.
    + intros c' Hc'. specialize (Hmax c' Hc').
      apply tuple_ltb_false in Hmax. simpl in Hmax.
      unfold relaxed_aspect, relaxed_long_side.
      destruct Hmax as [Hlt | [Heq Hle]]; split; intros; lra.
Qed.

Lemma child_scale_with_candidates (contours : list Contour) (w h : Z) :
  Child.ruler_candidates contours w h <> [] ->
  exists c,
    In c (Child.ruler_candidates contours w h)
    /\ Child.scale_from_contours contours w h = Some (child_long_side c)
    /\ forall c', In c' (Child.ruler_candidates contours w h) ->
                  child_area c' <= child_area c.
Proof.
  unfold Child.scale_from_contours.
  destruct (Child.ruler_candidates contours w h) as [|c cs] eqn:Ec; [congruence|].
  intros _.
  destruct (sort_reverse (fun x : Child.candidate => fst (fst x)) ltb (c :: cs))
    as [|top rest] eqn:Es.
  - apply sort_reverse_nil in Es. discriminate.
  - apply sort_reverse_head in Es; [| exact ltb_asym | exact ltb_negtrans].
    destruct Es as [Hin Hmax].
    exists top. split; [exact Hin|]. split.
    + destruct top as [[area long_side] rect]. reflexivity.
    + intros c' Hc'. apply ltb_ge. apply Hmax. exact Hc'.
Qed.

(** C1 (as amended).  In the relaxed variant, whenever the list of ruler
    candidates is not empty, the detector returns the long side of a
    candidate that is greatest for (aspect, long side) compared
    lexicographically: no candidate has a larger aspect, and none of equal
    aspect has a longer long side.  In the strict variant the detector
    returns the long side of a candidate of greatest contour area
    instead. *)
Theorem C1_scale_detector_ranking `{Vision}
  (image_gray : Array2 Z) (orig_img : Array2 BGR) :
  let w := shape1 image_gray in
  let h := shape0 image_gray in
  (Relaxed.ruler_candidates (Relaxed.scale_contours image_gray) w h <> [] ->
   returns_most_ruler_like relaxed_aspect relaxed_long_side
     (Relaxed.ruler_candidates (Relaxed.scale_contours image_gray) w h)
     (Relaxed.detect_scale_pixel_length image_gray orig_img))
  /\
  (Child.ruler_candidates (Child.scale_contours image_gray) w h <> [] ->
   exists c,
     In c (Child.ruler_candidates (Child.scale_contours image_gray) w h)
     /\ Child.detect_scale_pixel_length image_gray orig_img = Some (child_long_side c)
     /\ forall c', In c' (Child.ruler_candidates (Child.scale_contours image_gray) w h) ->
                   child_area c' <= child_area c).
Proof.
  cbv zeta. split.
  - apply relaxed_scale_with_candidates.
  - apply child_scale_with_candidates.
Qed.

Lemma C1_scale_detector_ranking_witness :
  let sees := staged_vision [wide_contour; thin_contour] None in
  let relaxed_candidates :=
    Relaxed.ruler_candidates (@Relaxed.scale_contours sees gray_frame) 100 200 in
  let child_candidates :=
    Child.ruler_candidates (@Child.scale_contours sees gray_frame) 100 200 in
  (relaxed_candidates <> [] /\ child_candidates <> [])
  /\ returns_most_ruler_like relaxed_aspect relaxed_long_side
       relaxed_candidates (@Relaxed.detect_scale_pixel_length sees gray_frame black_frame)
  /\ exists c,
       In c child_candidates
       /\ @Child.detect_scale_pixel_length sees gray_frame black_frame
          = Some (child_long_side c)
       /\ forall c', In c' child_candidates -> child_area c' <= child_area c.
Proof.
  cbv zeta.
  split; [split; vm_compute; discriminate|].
  split.
  - apply (proj1 (@C1_scale_detector_ranking
                    (staged_vision [wide_contour; thin_contour] None)
                    gray_frame black_frame)).
    vm_compute. discriminate.
  - apply (proj2 (@C1_scale_detector_ranking
                    (staged_vision [wide_contour; thin_contour] None)
                    gray_frame black_frame)).
    vm_compute. discriminate.
Defined.

(** C1, as first stated, fails on the strict variant: with a wide contour
    of larger area and a thin one of larger aspect and longer side, both of
    them candidates, the strict detector returns the long side of the wide
    one, 40, and no candidate with that long side is greatest for (aspect,
    long side). *)
Lemma C1_strict_variant_counterexample :
  let sees := staged_vision [wide_contour; thin_contour] None in
  let child_candidates :=
    Child.ruler_candidates (@Child.scale_contours sees gray_frame)
                           (shape1 gray_frame) (shape0 gray_frame) in
  child_candidates <> []
  /\ @Child.detect_scale_pixel_length sees gray_frame black_frame = Some 40
  /\ ~ returns_most_ruler_like child_aspect child_long_side
         child_candidates (@Child.detect_scale_pixel_length sees gray_frame black_frame).
Proof.
  cbv zeta.
  assert (Hc : Child.ruler_candidates
                 (@Child.scale_contours (staged_vision [wide_contour; thin_contour] None)
                    gray_frame)
                 (shape1 gray_frame) (shape0 gray_frame)
               = [(150, 40, minAreaRect wide_contour); (140, 75, minAreaRect thin_contour)])
    by (vm_compute; reflexivity).
  assert (Hd : @Child.detect_scale_pixel_length
                 (staged_vision [wide_contour; thin_contour] None) gray_frame black_frame
               = Some 40)
    by (vm_compute; reflexivity).
  rewrite Hc, Hd.
  split; [discriminate|]. split; [reflexivity|].
  intros [c [Hin [Hret Hmax]]].
  destruct Hin as [<- | [<- | []]].
  - destruct (Hmax (140, 75, minAreaRect thin_contour)) as [Hle _].
    + right. left. reflexivity.
    + vm_compute in Hle. apply Hle. reflexivity.
  - vm_compute in Hret. discriminate Hret.
Qed.

(** ** Landmarks to pixels *)

Lemma int_truncates (q : Q) : truncation_of (int q) q.
Proof.
  destruct q as [n d]. unfold truncation_of, int, Qle, Qlt. simpl.
  pose proof (Z.quot_rem' n (Zpos d)) as Hqr.
  split; intro Hsign.
  - assert (Hn : (0 <= n)%Z) by lia.
    pose proof (Z.rem_bound_pos n (Zpos d) Hn ltac:(lia)) as Hr.
    nia.
  - assert (Hn : (n <= 0)%Z) by lia.
    pose proof (Z.rem_bound_pos_neg n (Zpos d) ltac:(lia) Hn) as Hr.
    nia.
Qed.

(** C3 (as amended).  [landmark_point_to_pixel] scales the normalized
    coordinates by the image width and height and drops the fractional
    part of each product (truncation toward zero), in both variants. *)
Theorem C3_landmark_to_pixel_truncates (lm : Landmark) (image_w image_h : Z) :
  truncation_of (fst (Child.landmark_point_to_pixel lm image_w image_h))
                (lm_x lm * inject_Z image_w)
  /\ truncation_of (snd (Child.landmark_point_to_pixel lm image_w image_h))
                   (lm_y lm * inject_Z image_h)
  /\ Relaxed.landmark_point_to_pixel lm image_w image_h
     = Child.landmark_point_to_pixel lm image_w image_h.
Proof.
  split; [apply int_truncates|]. split; [apply int_truncates | reflexivity].
Qed.

(** C3, as first stated, fails: a landmark at (0.5, 0.5) in a 3 x 3 image
    has products 1.5 and 1.5, which round to 2 but are converted to 1. *)
Lemma C3_rounding_counterexample :
  Child.landmark_point_to_pixel (mkLandmark 0.5 0.5 1) 3 3 = (1, 1)%Z
  /\ (round (lm_x (mkLandmark 0.5 0.5 1) * inject_Z 3),
      round (lm_y (mkLandmark 0.5 0.5 1) * inject_Z 3)) = (2, 2)%Z
  /\ Child.landmark_point_to_pixel (mkLandmark 0.5 0.5 1) 3 3
     <> (round (lm_x (mkLandmark 0.5 0.5 1) * inject_Z 3),
         round (lm_y (mkLandmark 0.5 0.5 1) * inject_Z 3)).
Proof.
  split; [reflexivity|]. split; [reflexivity|].
  vm_compute. discriminate.
Qed.

(** ** Head circumference *)

Lemma truediv_nonzero (a b : Q) : ~ b == 0 -> truediv a b = Ok (a / b).
Proof.
  intro Hb. unfold truediv. destruct (Qeq_bool b 0) eqn:E; [|reflexivity].
  apply Qeq_bool_iff in E. contradiction.
Qed.

Lemma child_head_circumference `{MathLib}
  (landmarks : Landmarks) (image_w image_h : Z) (pixel_per_cm : Q) :
  0 < pixel_per_cm ->
  exists head_width_px,
    Child.measure_head_circumference landmarks image_w image_h pixel_per_cm
    = Ok (pi * (head_width_px / pixel_per_cm) * 1.08)
    /\ (0.3 < lm_visibility (landmarks LEFT_EAR)
        /\ 0.3 < lm_visibility (landmarks RIGHT_EAR) ->
        head_width_px
        = pixel_distance (landmarks LEFT_EAR) (landmarks RIGHT_EAR) image_w image_h)
    /\ (~ (0.3 < lm_visibility (landmarks LEFT_EAR)
           /\ 0.3 < lm_visibility (landmarks RIGHT_EAR)) ->
        head_width_px
        = pixel_distance (landmarks LEFT_EYE) (landmarks RIGHT_EYE) image_w image_h * 1.6).
Proof.
  intro Hpos.
  assert (Hnz : ~ pixel_per_cm == 0) by lra.
  unfold Child.measure_head_circumference, pixel_distance. cbn [Child.landmark_point_to_pixel fst snd].
  destruct (ltb 0.3 (lm_visibility (landmarks LEFT_EAR))) eqn:El;
    destruct (ltb 0.3 (lm_visibility (landmarks RIGHT_EAR))) eqn:Er;
    cbn [andb]; rewrite (truediv_nonzero _ _ Hnz);
    eexists; (split; [reflexivity|]); split; intro Hv;
    try reflexivity.
  - exfalso. apply Hv. split; apply ltb_lt; assumption.
  - apply ltb_ge in Er. lra.
  - apply ltb_ge in El. lra.
  - apply ltb_ge in El. lra.
Qed.

(** C7.  For every landmark set and every strictly positive calibration,
    head-circumference measurement returns a value (it raises nothing):
    pi times the head width in centimeters times 1.08, the head width in
    pixels being the ear-to-ear pixel distance when both ears have
    visibility above 0.3 and 1.6 times the eye-to-eye pixel distance
    otherwise. *)
Theorem C7_head_circumference_total `{MathLib}
  (landmarks : Landmarks) (image_w image_h : Z) (pixel_per_cm : Q) :
  0 < pixel_per_cm ->
  exists head_width_px,
    Child.measure_head_circumference landmarks image_w image_h pixel_per_cm
    = Ok (pi * (head_width_px / pixel_per_cm) * 1.08)
    /\ (0.3 < lm_visibility (landmarks LEFT_EAR)
        /\ 0.3 < lm_visibility (landmarks RIGHT_EAR) ->
        head_width_px
        = pixel_distance (landmarks LEFT_EAR) (landmarks RIGHT_EAR) image_w image_h)
    /\ (~ (0.3 < lm_visibility (landmarks LEFT_EAR)
           /\ 0.3 < lm_visibility (landmarks RIGHT_EAR)) ->
        head_width_px
        = pixel_distance (landmarks LEFT_EYE) (landmarks RIGHT_EYE) image_w image_h * 1.6).
Proof. apply child_head_circumference. Qed.

Lemma C7_head_circumference_total_witness :
  0 < 2
  /\ exists head_width_px,
       @Child.measure_head_circumference math6 standing 100 200 2
       = Ok (pi * (head_width_px / 2) * 1.08)
       /\ (0.3 < lm_visibility (standing LEFT_EAR)
           /\ 0.3 < lm_visibility (standing RIGHT_EAR) ->
           head_width_px
           = pixel_distance (standing LEFT_EAR) (standing RIGHT_EAR) 100 200)
       /\ (~ (0.3 < lm_visibility (standing LEFT_EAR)
              /\ 0.3 < lm_visibility (standing RIGHT_EAR)) ->
           head_width_px
           = pixel_distance (standing LEFT_EYE) (standing RIGHT_EYE) 100 200 * 1.6).
Proof.
  split; [reflexivity|].
  apply (@C7_head_circumference_total math6 standing 100 200 2). reflexivity.
Defined.

(** C10.  The two variants of head-circumference measurement return the
    same result on every landmark set, image size and calibration, in
    particular on every strictly positive calibration. *)
Theorem C10_head_circumference_variants_agree `{MathLib}
  (landmarks : Landmarks) (image_w image_h : Z) (pixel_per_cm : Q) :
  Relaxed.measure_head_circumference landmarks image_w image_h pixel_per_cm
  = Child.measure_head_circumference landmarks image_w image_h pixel_per_cm.
Proof. reflexivity. Qed.

(** ** Height in pixels *)

Lemma child_pixel_height (landmarks : Landmarks) (h : Z) :
  0 <= Child.pixel_height landmarks h
  /\ (Child.estimate_head_top_y landmarks h <= Child.estimate_feet_y landmarks h ->
      Child.pixel_height landmarks h
      == Child.estimate_feet_y landmarks h - Child.estimate_head_top_y landmarks h)
  /\ (Child.estimate_feet_y landmarks h <= Child.estimate_head_top_y landmarks h ->
      Child.pixel_height landmarks h == 0)
  /\ Child.estimate_feet_y landmarks h <= inject_Z h.
Proof.
  unfold Child.pixel_height.
  set (top := Child.estimate_head_top_y landmarks h).
  set (feet := Child.estimate_feet_y landmarks h).
  destruct (max_spec 0.0 (feet - top)) as [[Hlt ->] | [Hle ->]];
    (split; [lra|]); (split; [intro; lra|]); (split; [intro; lra|]);
    apply min_upper_l.
Qed.

(** ** The arm-length fallback *)

Lemma arms_examined_app (out1 out2 : list event) :
  arms_examined (out1 ++ out2) = arms_examined out1 ++ arms_examined out2.
Proof.
  induction out1 as [|e out1 IH]; [reflexivity|].
  destruct e; simpl; rewrite IH; reflexivity.
Qed.

Lemma arm_measured_app (out1 out2 : list event) (side : Side) :
  arm_measured (out1 ++ out2) side ->
  arm_measured out1 side \/ arm_measured out2 side.
Proof.
  intros [f [c Hin]]. apply in_app_or in Hin.
  destruct Hin as [Hin | Hin]; [left | right]; exists f, c; exact Hin.
Qed.

Lemma arm_measured_cons (e : event) (out : list event) (side : Side) :
  arm_measured (e :: out) side ->
  (exists f c, e = PrintForearm side f c) \/ arm_measured out side.
Proof.
  intros [f [c [Heq | Hin]]]; [left | right]; exists f, c; assumption.
Qed.

Lemma random_estimate_reached_app (out1 out2 : list event) :
  random_estimate_reached (out1 ++ out2) ->
  random_estimate_reached out1 \/ random_estimate_reached out2.
Proof.
  intros [v Hin]. apply in_app_or in Hin.
  destruct Hin as [Hin | Hin]; [left | right]; exists v; exact Hin.
Qed.

Lemma in_range_bool (c : Q) :
  leb 8 c && leb c 18 = true <-> 8 <= c <= 18.
Proof. rewrite andb_true_iff, !leb_le. tauto. Qed.

Lemma child_try_arm_run `{MathLib}
  (landmarks : Landmarks) (image_w image_h : Z) (pixel_per_cm : Q) (side : Side) :
  arm_run landmarks image_w image_h pixel_per_cm side
    [lm_visibility (landmarks (ELBOW side)); lm_visibility (landmarks (WRIST side))]
    (child_arm_eligible landmarks side)
    (Child.try_arm landmarks image_w image_h pixel_per_cm side).
Proof.
  unfold Child.try_arm, child_arm_eligible.
  destruct (ltb 0.3 (lm_visibility (landmarks (ELBOW side)))) eqn:Ee;
    [destruct (ltb 0.3 (lm_visibility (landmarks (WRIST side)))) eqn:Ew|]; cbn [andb].
  - apply ltb_lt in Ee, Ew. unfold truediv.
    destruct (Qeq_bool pixel_per_cm 0) eqn:Ez.
    + apply Qeq_bool_iff in Ez. apply arm_division_raises; [split; assumption | exact Ez].
    + apply Qeq_bool_neq in Ez.
      match goal with
      | |- context [if ?b then _ else _] => destruct b eqn:Er
      end.
      * apply in_range_bool in Er. cbn [app].
        apply arm_accepted; [split; assumption | exact Ez | exact Er].
      * cbn [app]. apply arm_out_of_range; [split; assumption | exact Ez |].
        intro Hr. apply in_range_bool in Hr.
        unfold arm_wrist_circ in Hr. congruence.
  - apply ltb_ge in Ew. apply arm_not_eligible. intros [_ Hw]. lra.
  - apply ltb_ge in Ee. apply arm_not_eligible. intros [He _]. lra.
Qed.

Lemma relaxed_try_arm_run `{MathLib}
  (landmarks : Landmarks) (image_w image_h : Z) (pixel_per_cm : Q) (side : Side) :
  arm_run landmarks image_w image_h pixel_per_cm side
    [lm_visibility (landmarks (SHOULDER side));
     lm_visibility (landmarks (ELBOW side));
     lm_visibility (landmarks (WRIST side))]
    (relaxed_arm_eligible landmarks side)
    (Relaxed.try_arm landmarks image_w image_h pixel_per_cm side).
Proof.
  unfold Relaxed.try_arm, relaxed_arm_eligible.
  destruct (ltb 0.3 (lm_visibility (landmarks (SHOULDER side)))) eqn:Es;
    [destruct (ltb 0.3 (lm_visibility (landmarks (ELBOW side)))) eqn:Ee;
     [destruct (ltb 0.3 (lm_visibility (landmarks (WRIST side)))) eqn:Ew|]|];
    cbn [andb].
  - apply ltb_lt in Es, Ee, Ew. unfold truediv.
    destruct (Qeq_bool pixel_per_cm 0) eqn:Ez.
    + apply Qeq_bool_iff in Ez.
      apply arm_division_raises; [repeat split; assumption | exact Ez].
    + apply Qeq_bool_neq in Ez.
      match goal with
      | |- context [if ?b then _ else _] => destruct b eqn:Er
      end.
      * apply in_range_bool in Er. cbn [app].
        apply arm_accepted; [repeat split; assumption | exact Ez | exact Er].
      * cbn [app]. apply arm_out_of_range; [repeat split; assumption | exact Ez |].
        intro Hr. apply in_range_bool in Hr.
        unfold arm_wrist_circ in Hr. congruence.
  - apply ltb_ge in Ew. apply arm_not_eligible. intros [_ [_ Hw]]. lra.
  - apply ltb_ge in Ee. apply arm_not_eligible. intros [_ [He _]]. lra.
  - apply ltb_ge in Es. apply arm_not_eligible. intros [Hs _]. lra.
Qed.

Section ArmRuns.
Context `{MathLib}.
Variables (landmarks : Landmarks) (image_w image_h : Z) (pixel_per_cm : Q).
Variable eligible : Side -> Prop.
Variable visibilities : Side -> list Q.

Let run (side : Side) : list event * arm_outcome -> Prop :=
  arm_run landmarks image_w image_h pixel_per_cm side (visibilities side) (eligible side).

Lemma arm_run_examined (side : Side) (r : list event * arm_outcome) :
  run side r -> arms_examined (fst r) = [side].
Proof. intro Hr; destruct Hr; reflexivity. Qed.

Lemma arm_run_measured (side s : Side) (r : list event * arm_outcome) :
  run side r -> arm_measured (fst r) s -> eligible s.
Proof.
  intros Hr [f [c Hin]].
  destruct Hr; simpl in Hin;
    repeat (destruct Hin as [Heq | Hin]; [try discriminate Heq|]);
    try contradiction;
    injection Heq as <- _ _; assumption.
Qed.

Lemma arm_run_no_random (side : Side) (r : list event * arm_outcome) :
  run side r -> ~ random_estimate_reached (fst r).
Proof.
  intros Hr [v Hin].
  destruct Hr; simpl in Hin;
    repeat (destruct Hin as [Heq | Hin]; [discriminate Heq|]); contradiction.
Qed.

Lemma arm_run_returned (side : Side) (r : list event * arm_outcome) (c : Q) :
  run side r -> snd r = Returned c ->
  eligible side
  /\ c = arm_wrist_circ landmarks image_w image_h pixel_per_cm side
  /\ 8 <= c <= 18.
Proof.
  intros Hr Hret. destruct Hr; simpl in Hret; try discriminate Hret.
  injection Hret as <-. split; [assumption|]. split; [reflexivity | assumption].
Qed.

Lemma both_arms_examined (rl rr : list event * arm_outcome) :
  run LEFT rl -> run RIGHT rr ->
  arms_examined (fst (both_arms rl rr)) = [LEFT]
  \/ arms_examined (fst (both_arms rl rr)) = [LEFT; RIGHT].
Proof.
  intros Hl Hr. unfold both_arms.
  destruct (snd rl); cbn [fst].
  - left. exact (arm_run_examined _ _ Hl).
  - right. rewrite arms_examined_app.
    rewrite (arm_run_examined _ _ Hl), (arm_run_examined _ _ Hr). reflexivity.
  - left. exact (arm_run_examined _ _ Hl).
Qed.

Lemma both_arms_measured (rl rr : list event * arm_outcome) (s : Side) :
  run LEFT rl -> run RIGHT rr ->
  arm_measured (fst (both_arms rl rr)) s -> eligible s.
Proof.
  intros Hl Hr. unfold both_arms.
  destruct (snd rl); cbn [fst]; intro Hm.
  - exact (arm_run_measured _ _ _ Hl Hm).
  - apply arm_measured_app in Hm. destruct Hm as [Hm | Hm].
    + exact (arm_run_measured _ _ _ Hl Hm).
    + exact (arm_run_measured _ _ _ Hr Hm).
  - exact (arm_run_measured _ _ _ Hl Hm).
Qed.

Lemma both_arms_no_random (rl rr : list event * arm_outcome) :
  run LEFT rl -> run RIGHT rr ->
  ~ random_estimate_reached (fst (both_arms rl rr)).
Proof.
  intros Hl Hr. unfold both_arms.
  destruct (snd rl); cbn [fst]; intro Hm.
  - exact (arm_run_no_random _ _ Hl Hm).
  - apply random_estimate_reached_app in Hm. destruct Hm as [Hm | Hm].
    + exact (arm_run_no_random _ _ Hl Hm).
    + exact (arm_run_no_random _ _ Hr Hm).
  - exact (arm_run_no_random _ _ Hl Hm).
Qed.

Lemma both_arms_returned (rl rr : list event * arm_outcome) (c : Q) :
  run LEFT rl -> run RIGHT rr ->
  snd (both_arms rl rr) = Returned c ->
  exists side,
    eligible side
    /\ c = arm_wrist_circ landmarks image_w image_h pixel_per_cm side
    /\ 8 <= c <= 18.
Proof.
  intros Hl Hr. unfold both_arms.
  destruct (snd rl) eqn:El; cbn [snd]; intro Hret.
  - exists LEFT. apply (arm_run_returned _ _ _ Hl). congruence.
  - exists RIGHT. apply (arm_run_returned _ _ _ Hr). exact Hret.
  - congruence.
Qed.

End ArmRuns.

Lemma child_try_arms_both `{MathLib}
  (landmarks : Landmarks) (image_w image_h : Z) (pixel_per_cm : Q) :
  Child.try_arms landmarks image_w image_h pixel_per_cm
  = both_arms (Child.try_arm landmarks image_w image_h pixel_per_cm LEFT)
              (Child.try_arm landmarks image_w image_h pixel_per_cm RIGHT).
Proof.
  unfold Child.try_arms, both_arms.
  destruct (Child.try_arm landmarks image_w image_h pixel_per_cm LEFT) as [ol [c| |e]];
    destruct (Child.try_arm landmarks image_w image_h pixel_per_cm RIGHT) as [or_ ar];
    reflexivity.
Qed.

Lemma relaxed_try_arms_both `{MathLib}
  (landmarks : Landmarks) (image_w image_h : Z) (pixel_per_cm : Q) :
  Relaxed.try_arms landmarks image_w image_h pixel_per_cm
  = both_arms (Relaxed.try_arm landmarks image_w image_h pixel_per_cm LEFT)
              (Relaxed.try_arm landmarks image_w image_h pixel_per_cm RIGHT).
Proof.
  unfold Relaxed.try_arms, both_arms.
  destruct (Relaxed.try_arm landmarks image_w image_h pixel_per_cm LEFT) as [ol [c| |e]];
    destruct (Relaxed.try_arm landmarks image_w image_h pixel_per_cm RIGHT) as [or_ ar];
    reflexivity.
Qed.

Lemma child_arms_summary `{MathLib}
  (landmarks : Landmarks) (image_w image_h : Z) (pixel_per_cm : Q) :
  arms_summary (child_arm_eligible landmarks) landmarks image_w image_h pixel_per_cm
    (Child.try_arms landmarks image_w image_h pixel_per_cm).
Proof.
  rewrite child_try_arms_both.
  pose proof (child_try_arm_run landmarks image_w image_h pixel_per_cm LEFT) as Hl.
  pose proof (child_try_arm_run landmarks image_w image_h pixel_per_cm RIGHT) as Hr.
  set (vis := fun side =>
         [lm_visibility (landmarks (ELBOW side)); lm_visibility (landmarks (WRIST side))]).
  change (arm_run landmarks image_w image_h pixel_per_cm LEFT (vis LEFT)
            (child_arm_eligible landmarks LEFT)
            (Child.try_arm landmarks image_w image_h pixel_per_cm LEFT)) in Hl.
  change (arm_run landmarks image_w image_h pixel_per_cm RIGHT (vis RIGHT)
            (child_arm_eligible landmarks RIGHT)
            (Child.try_arm landmarks image_w image_h pixel_per_cm RIGHT)) in Hr.
  split; [exact (both_arms_examined _ _ _ _ _ _ _ _ Hl Hr)|].
  split; [intro s; exact (both_arms_measured _ _ _ _ _ _ _ _ s Hl Hr)|].
  split; [exact (both_arms_no_random _ _ _ _ _ _ _ _ Hl Hr)|].
  intro c. exact (both_arms_returned _ _ _ _ _ _ _ _ c Hl Hr).
Qed.

Lemma relaxed_arms_summary `{MathLib}
  (landmarks : Landmarks) (image_w image_h : Z) (pixel_per_cm : Q) :
  arms_summary (relaxed_arm_eligible landmarks) landmarks image_w image_h pixel_per_cm
    (Relaxed.try_arms landmarks image_w image_h pixel_per_cm).
Proof.
  rewrite relaxed_try_arms_both.
  pose proof (relaxed_try_arm_run landmarks image_w image_h pixel_per_cm LEFT) as Hl.
  pose proof (relaxed_try_arm_run landmarks image_w image_h pixel_per_cm RIGHT) as Hr.
  set (vis := fun side =>
         [lm_visibility (landmarks (SHOULDER side));
          lm_visibility (landmarks (ELBOW side));
          lm_visibility (landmarks (WRIST side))]).
  change (arm_run landmarks image_w image_h pixel_per_cm LEFT (vis LEFT)
            (relaxed_arm_eligible landmarks LEFT)
            (Relaxed.try_arm landmarks image_w image_h pixel_per_cm LEFT)) in Hl.
  change (arm_run landmarks image_w image_h pixel_per_cm RIGHT (vis RIGHT)
            (relaxed_arm_eligible landmarks RIGHT)
            (Relaxed.try_arm landmarks image_w image_h pixel_per_cm RIGHT)) in Hr.
  split; [exact (both_arms_examined _ _ _ _ _ _ _ _ Hl Hr)|].
  split; [intro s; exact (both_arms_measured _ _ _ _ _ _ _ _ s Hl Hr)|].
  split; [exact (both_arms_no_random _ _ _ _ _ _ _ _ Hl Hr)|].
  intro c. exact (both_arms_returned _ _ _ _ _ _ _ _ c Hl Hr).
Qed.

Lemma child_estimate_from `{MathLib} `{RandomSource}
  (landmarks : Landmarks) (image_w image_h : Z) (pixel_per_cm : Q) (g : rng) :
  Child.estimate_wrist_from_arm_length landmarks image_w image_h pixel_per_cm g
  = estimate_from (Child.try_arms landmarks image_w image_h pixel_per_cm) g.
Proof.
  unfold Child.estimate_wrist_from_arm_length, estimate_from.
  destruct (Child.try_arms landmarks image_w image_h pixel_per_cm) as [out [c| |e]];
    cbn [fst snd]; try reflexivity;
    destruct (random_uniform 12.5 14.5 g); reflexivity.
Qed.

Lemma relaxed_estimate_from `{MathLib} `{RandomSource}
  (landmarks : Landmarks) (image_w image_h : Z) (pixel_per_cm : Q) (g : rng) :
  Relaxed.estimate_wrist_from_arm_length landmarks image_w image_h pixel_per_cm g
  = estimate_from (Relaxed.try_arms landmarks image_w image_h pixel_per_cm) g.
Proof.
  unfold Relaxed.estimate_wrist_from_arm_length, estimate_from.
  destruct (Relaxed.try_arms landmarks image_w image_h pixel_per_cm) as [out [c| |e]];
    cbn [fst snd]; try reflexivity;
    destruct (random_uniform 12.5 14.5 g); reflexivity.
Qed.

Section EstimateFrom.
Context `{MathLib} `{RandomSource}.
Variables (landmarks : Landmarks) (image_w image_h : Z) (pixel_per_cm : Q).
Variable eligible : Side -> Prop.
Variable r : list event * arm_outcome.
Hypothesis summary : arms_summary eligible landmarks image_w image_h pixel_per_cm r.

Lemma estimate_from_examined (g : rng) :
  arms_examined (snd (fst (estimate_from r g))) = [LEFT]
  \/ arms_examined (snd (fst (estimate_from r g))) = [LEFT; RIGHT].
Proof.
  destruct summary as [Hex _]. unfold estimate_from.
  destruct (snd r) as [c| |e]; cbn [fst snd arms_examined];
    rewrite ?arms_examined_app; cbn [arms_examined app];
    rewrite ?app_nil_r; exact Hex.
Qed.

Lemma estimate_from_measured (g : rng) (s : Side) :
  arm_measured (snd (fst (estimate_from r g))) s -> eligible s.
Proof.
  destruct summary as [_ [Hm _]]. unfold estimate_from.
  destruct (snd r) as [c| |e]; cbn [fst snd]; intro Hs;
    apply arm_measured_cons in Hs;
    (destruct Hs as [[f [c' Heq]] | Hs]; [discriminate Heq|]);
    try (apply Hm; exact Hs);
    apply arm_measured_app in Hs;
    (destruct Hs as [Hs | Hs]; [apply Hm; exact Hs|]);
    exfalso; destruct Hs as [f [c' Hin]]; simpl in Hin;
    repeat (destruct Hin as [Heq | Hin]; [discriminate Heq|]); contradiction.
Qed.

Lemma estimate_from_returned (c : Q) (g : rng) :
  snd r = Returned c ->
  estimate_from r g = (c, PrintAttempting :: fst r, g)
  /\ ~ random_estimate_reached (snd (fst (estimate_from r g))).
Proof.
  destruct summary as [_ [_ [Hnr _]]]. unfold estimate_from.
  intros ->. split; [reflexivity|]. cbn [fst snd].
  intros [v [Heq | Hin]]; [discriminate Heq|].
  apply Hnr. exists v. exact Hin.
Qed.

Lemma estimate_from_random (g : rng) :
  (forall c, snd r <> Returned c) ->
  fst (fst (estimate_from r g)) = fst (random_uniform 12.5 14.5 g)
  /\ random_estimate_reached (snd (fst (estimate_from r g))).
Proof.
  intro Hnot. unfold estimate_from.
  destruct (snd r) as [c| |e]; [exfalso; exact (Hnot c eq_refl)| |];
    cbn [fst snd]; (split; [reflexivity|]);
    exists (fst (random_uniform 12.5 14.5 g)); right;
    apply in_or_app; right; apply in_or_app; right; left; reflexivity.
Qed.

(** When no arm is both eligible and in range, the random estimate is
    the value returned. *)
Lemma estimate_from_no_arm (g : rng) :
  (forall side,
     ~ (eligible side
        /\ 8 <= arm_wrist_circ landmarks image_w image_h pixel_per_cm side <= 18)) ->
  fst (fst (estimate_from r g)) = fst (random_uniform 12.5 14.5 g)
  /\ random_estimate_reached (snd (fst (estimate_from r g))).
Proof.
  intro Hnone. apply estimate_from_random. intros c Hret.
  destruct summary as [_ [_ [_ Hr]]].
  destruct (Hr c Hret) as [side [He [Hc Hb]]].
  apply (Hnone side). split; [exact He|]. rewrite <- Hc. exact Hb.
Qed.

(** A run that does not reach the random estimate does not depend on the
    generator. *)
Lemma estimate_from_deterministic (g1 g2 : rng) :
  ~ random_estimate_reached (snd (fst (estimate_from r g1))) ->
  fst (estimate_from r g2) = fst (estimate_from r g1)
  /\ snd (estimate_from r g1) = g1.
Proof.
  intro Hnot. destruct (snd r) as [c| |e] eqn:Er.
  - rewrite (proj1 (estimate_from_returned c g1 Er)).
    rewrite (proj1 (estimate_from_returned c g2 Er)). split; reflexivity.
  - exfalso. apply Hnot. apply estimate_from_random. intros c. congruence.
  - exfalso. apply Hnot. apply estimate_from_random. intros c. congruence.
Qed.

(** With [random()] in [0, 1) the value returned is between 8 and 18. *)
Lemma estimate_from_bounds (g : rng) :
  (forall g0, 0 <= fst (random_random g0) /\ fst (random_random g0) < 1) ->
  8 <= fst (fst (estimate_from r g)) <= 18
  /\ ((forall c, snd r <> Returned c) ->
      12.5 <= fst (fst (estimate_from r g)) <= 14.5).
Proof.
  intro Hunit.
  assert (Hu : 12.5 <= fst (random_uniform 12.5 14.5 g) <= 14.5).
  { unfold random_uniform. specialize (Hunit g).
    destruct (random_random g) as [u g']. cbn [fst] in *. lra. }
  split.
  - destruct (snd r) as [c| |e] eqn:Er.
    + rewrite (proj1 (estimate_from_returned c g Er)). cbn [fst].
      destruct summary as [_ [_ [_ Hr]]].
      destruct (Hr c Er) as [side [_ [_ Hb]]]. exact Hb.
    + rewrite (proj1 (estimate_from_random g ltac:(intros c; congruence))). lra.
    + rewrite (proj1 (estimate_from_random g ltac:(intros c; congruence))). lra.
  - intro Hnot. rewrite (proj1 (estimate_from_random g Hnot)). exact Hu.
Qed.

End EstimateFrom.

(** C2 (as amended).  In the arm-length wrist fallback of the relaxed
    variant an arm is measured only if the visibilities of its shoulder,
    elbow and wrist each exceed 0.3; in the strict variant only if those
    of its elbow and wrist do, the shoulder not being consulted.  In both
    variants the left arm is examined first, the right arm after it or not
    at all, and no arm twice. *)
Theorem C2_arm_fallback_eligibility_and_order `{MathLib} `{RandomSource}
  (landmarks : Landmarks) (image_w image_h : Z) (pixel_per_cm : Q) (g : rng) :
  let relaxed_out :=
    snd (fst (Relaxed.estimate_wrist_from_arm_length
                landmarks image_w image_h pixel_per_cm g)) in
  let child_out :=
    snd (fst (Child.estimate_wrist_from_arm_length
                landmarks image_w image_h pixel_per_cm g)) in
  (forall side, arm_measured relaxed_out side ->
     0.3 < lm_visibility (landmarks (SHOULDER side))
     /\ 0.3 < lm_visibility (landmarks (ELBOW side))
     /\ 0.3 < lm_visibility (landmarks (WRIST side)))
  /\ (arms_examined relaxed_out = [LEFT] \/ arms_examined relaxed_out = [LEFT; RIGHT])
  /\ (forall side, arm_measured child_out side ->
        0.3 < lm_visibility (landmarks (ELBOW side))
        /\ 0.3 < lm_visibility (landmarks (WRIST side)))
  /\ (arms_examined child_out = [LEFT] \/ arms_examined child_out = [LEFT; RIGHT]).
Proof.
  cbv zeta. rewrite relaxed_estimate_from, child_estimate_from.
  pose proof (relaxed_arms_summary landmarks image_w image_h pixel_per_cm) as Hr.
  pose proof (child_arms_summary landmarks image_w image_h pixel_per_cm) as Hc.
  split; [intro side; exact (estimate_from_measured _ _ _ _ _ _ Hr g side)|].
  split; [exact (estimate_from_examined _ _ _ _ _ _ Hr g)|].
  split; [intro side; exact (estimate_from_measured _ _ _ _ _ _ Hc g side)|].
  exact (estimate_from_examined _ _ _ _ _ _ Hc g).
Qed.

(** C2, as first stated, fails on the strict variant: with the left
    shoulder hidden (visibility 0) and the left elbow and wrist visible,
    the strict fallback measures the left forearm and returns its
    estimate. *)
Lemma C2_strict_variant_counterexample :
  let child_out :=
    snd (fst (@Child.estimate_wrist_from_arm_length math6 lcg
                shoulder_hidden 100 200 2 5%Z)) in
  arm_measured child_out LEFT
  /\ ~ (forall side, arm_measured child_out side ->
          0.3 < lm_visibility (shoulder_hidden (SHOULDER side))
          /\ 0.3 < lm_visibility (shoulder_hidden (ELBOW side))
          /\ 0.3 < lm_visibility (shoulder_hidden (WRIST side))).
Proof.
  cbv zeta.
  assert (Hm : arm_measured
                 (snd (fst (@Child.estimate_wrist_from_arm_length math6 lcg
                              shoulder_hidden 100 200 2 5%Z))) LEFT).
  { exists (110 # 2), (1760 # 200). vm_compute. right. right. left. reflexivity. }
  split; [exact Hm|].
  intro Hall. destruct (Hall LEFT Hm) as [Hs _].
  vm_compute in Hs. discriminate Hs.
Qed.

(** ** The orchestrator *)

Lemma lcg_unit (g : Z) :
  0 <= fst (@random_random lcg g) /\ fst (@random_random lcg g) < 1.
Proof.
  cbn [random_random lcg fst].
  pose proof (Z.mod_pos_bound g 2147483648 ltac:(lia)) as Hb.
  unfold Qle, Qlt, Qdiv, Qmult, Qinv, inject_Z. cbn. lia.
Qed.

(** What a successful run of [process_image] went through. *)
Lemma child_process_image_ok `{MathLib} `{Vision} `{RandomSource}
  (path : string) (g g' : rng) (r : MeasurementResult) (out : list event) :
  Child.process_image path g = (Ok r, out, g') ->
  exists img landmarks,
    imread path = Some img
    /\ pose_process (cvtColor_BGR2RGB img) = Some landmarks
    /\ height_cm r = Child.pixel_height landmarks (shape0 img) / pixel_per_cm r
    /\ match Child.measure_wrist_circumference
               landmarks img (shape1 img) (shape0 img) (pixel_per_cm r) with
       | Some wrist_circ_cm =>
           wrist_fallback_used r = false /\ out = [] /\ g' = g
           /\ wrist_circumference_cm r
              = (if Qeq_bool wrist_circ_cm 0 then None else Some wrist_circ_cm)
       | None =>
           let e := Child.estimate_wrist_from_arm_length
                      landmarks (shape1 img) (shape0 img) (pixel_per_cm r) g in
           wrist_fallback_used r = true /\ out = snd (fst e) /\ g' = snd e
           /\ wrist_circumference_cm r
              = (if Qeq_bool (fst (fst e)) 0 then None else Some (fst (fst e)))
       end.
Proof.
  unfold Child.process_image.
  destruct (imread path) as [img|] eqn:Hi; [|discriminate].
  destruct (Child.detect_scale_pixel_length (cvtColor_BGR2GRAY img) img)
    as [pixel_length|]; [|discriminate].
  destruct (pose_process (cvtColor_BGR2RGB img)) as [landmarks|] eqn:Hp; [|discriminate].
  unfold truediv at 1.
  destruct (Qeq_bool (pixel_length / 15.0) 0); [discriminate|].
  destruct (Child.measure_head_circumference _ _ _ _) as [head|e]; [|discriminate].
  intro Hrun. exists img, landmarks. split; [reflexivity|]. split; [exact Hp|].
  destruct (Child.measure_wrist_circumference landmarks img (shape1 img) (shape0 img)
              (pixel_length / 15.0)) as [wrist|] eqn:Ew.
  - injection Hrun as <- <- <-. cbn [pixel_per_cm height_cm]. rewrite Ew.
    repeat split; reflexivity.
  - destruct (Child.estimate_wrist_from_arm_length landmarks (shape1 img) (shape0 img)
                (pixel_length / 15.0) g) as [[wrist out0] g0] eqn:Ee.
    injection Hrun as <- <- <-. cbn [pixel_per_cm height_cm]. rewrite Ew. cbv zeta.
    rewrite Ee. repeat split; reflexivity.
Qed.

(** C6.  Provided [random()] returns values in [0, 1): when neither arm
    is both eligible and within 8-18 cm, the arm-length fallback of the
    strict variant returns the value drawn by [random.uniform(12.5, 14.5)]
    from the generator it was given, and that value lies in [12.5, 14.5];
    and in every result of [process_image] the flag [wrist_fallback_used]
    is true exactly when the fallback was invoked, that is, exactly when
    the primary wrist measurement returned nothing, and then the wrist
    circumference is present. *)
Theorem C6_last_resort_wrist_estimate `{MathLib} `{Vision} `{RandomSource} :
  (forall g0, 0 <= fst (random_random g0) /\ fst (random_random g0) < 1) ->
  (forall (landmarks : Landmarks) (image_w image_h : Z) (ppc : Q) (g : rng),
     (forall side,
        ~ (child_arm_eligible landmarks side
           /\ 8 <= arm_wrist_circ landmarks image_w image_h ppc side <= 18)) ->
     let e := Child.estimate_wrist_from_arm_length landmarks image_w image_h ppc g in
     fst (fst e) = fst (random_uniform 12.5 14.5 g)
     /\ 12.5 <= fst (fst e) <= 14.5
     /\ random_estimate_reached (snd (fst e)))
  /\
  (forall (path : string) (g g' : rng) (r : MeasurementResult) (out : list event),
     Child.process_image path g = (Ok r, out, g') ->
     (wrist_fallback_used r = true <-> In PrintAttempting out)
     /\ (exists img landmarks,
           imread path = Some img
           /\ pose_process (cvtColor_BGR2RGB img) = Some landmarks
           /\ (wrist_fallback_used r = true <->
               Child.measure_wrist_circumference
                 landmarks img (shape1 img) (shape0 img) (pixel_per_cm r) = None))
     /\ (wrist_fallback_used r = true ->
         exists v, wrist_circumference_cm r = Some v /\ 8 <= v <= 18)).
Proof.
  intro Hunit. split.
  - intros landmarks image_w image_h ppc g Hnone. cbv zeta.
    rewrite child_estimate_from.
    pose proof (child_arms_summary landmarks image_w image_h ppc) as Hs.
    destruct (estimate_from_no_arm _ _ _ _ _ _ Hs g Hnone) as [Hv Hreach].
    split; [exact Hv|]. split; [|exact Hreach].
    rewrite Hv. unfold random_uniform. specialize (Hunit g).
    destruct (random_random g) as [u g1]. cbn [fst] in *. lra.
  - intros path g g' r out Hrun.
    destruct (child_process_image_ok _ _ _ _ _ Hrun) as [img [landmarks [Hi [Hp [_ Hw]]]]].
    destruct (Child.measure_wrist_circumference landmarks img (shape1 img) (shape0 img)
                (pixel_per_cm r)) as [wrist|] eqn:Ew.
    + destruct Hw as [Hf [Ho _]]. subst out. rewrite Hf.
      split; [split; [discriminate | intros []]|].
      split; [|discriminate].
      exists img, landmarks. rewrite Ew.
      split; [exact Hi|]. split; [exact Hp|]. split; discriminate.
    + cbv zeta in Hw. rewrite child_estimate_from in Hw.
      destruct Hw as [Hf [Ho [_ Hc]]]. rewrite Hf.
      pose proof (child_arms_summary landmarks (shape1 img) (shape0 img) (pixel_per_cm r))
        as Hs.
      split.
      { split; [intros _|reflexivity]. rewrite Ho. unfold estimate_from.
        destruct (snd (Child.try_arms landmarks (shape1 img) (shape0 img) (pixel_per_cm r)));
          left; reflexivity. }
      split.
      { exists img, landmarks. rewrite Ew.
        split; [exact Hi|]. split; [exact Hp|]. split; reflexivity. }
      intros _.
      destruct (estimate_from_bounds _ _ _ _ _ _ Hs g Hunit) as [Hb _].
      exists (fst (fst (estimate_from
                          (Child.try_arms landmarks (shape1 img) (shape0 img)
                             (pixel_per_cm r)) g))).
      split; [|exact Hb].
      rewrite Hc.
      destruct (Qeq_bool _ 0) eqn:Ez; [|reflexivity].
      apply Qeq_bool_iff in Ez. lra.
Qed.

Lemma C6_last_resort_wrist_estimate_witness :
  (forall g0 : Z, 0 <= fst (@random_random lcg g0) /\ fst (@random_random lcg g0) < 1)
  /\ (let e := @Child.estimate_wrist_from_arm_length math6 lcg arms_hidden 100 200 2 5%Z in
      fst (fst e) = fst (@random_uniform lcg 12.5 14.5 5%Z)
      /\ 12.5 <= fst (fst e) <= 14.5
      /\ random_estimate_reached (snd (fst e)))
  /\ (exists r out g',
        @Child.process_image math6 (staged_vision [ruler_contour] (Some arms_hidden)) lcg
          "frame.jpg" 5%Z = (Ok r, out, g')
        /\ (wrist_fallback_used r = true <-> In PrintAttempting out)
        /\ (wrist_fallback_used r = true ->
            exists v, wrist_circumference_cm r = Some v /\ 8 <= v <= 18)).
Proof.
  split; [exact lcg_unit|].
  destruct (@C6_last_resort_wrist_estimate
              math6 (staged_vision [ruler_contour] (Some arms_hidden)) lcg lcg_unit)
    as [Hfallback Hflag].
  split.
  - apply (Hfallback arms_hidden 100%Z 200%Z 2 5%Z).
    intros side [[He _] _]. destruct side; vm_compute in He; discriminate He.
  - eexists. eexists. eexists. split; [vm_compute; reflexivity|].
    match goal with
    | |- (wrist_fallback_used ?r = true <-> In PrintAttempting ?out) /\ _ =>
        destruct (Hflag "frame.jpg"%string 5%Z 1222621274%Z r out) as [H1 [_ H3]];
          [vm_compute; reflexivity | split; [exact H1 | exact H3]]
    end.
Defined.

Lemma child_process_image_deterministic `{MathLib} `{Vision} `{RandomSource}
  (path : string) (g1 g2 : rng) :
  ~ random_estimate_reached (snd (fst (Child.process_image path g1))) ->
  fst (Child.process_image path g2) = fst (Child.process_image path g1).
Proof.
  unfold Child.process_image.
  destruct (imread path) as [img|]; [|reflexivity].
  destruct (Child.detect_scale_pixel_length (cvtColor_BGR2GRAY img) img)
    as [pixel_length|]; [|reflexivity].
  destruct (pose_process (cvtColor_BGR2RGB img)) as [landmarks|]; [|reflexivity].
  destruct (truediv _ _) as [height|e]; [|reflexivity].
  destruct (Child.measure_head_circumference _ _ _ _) as [head|e]; [|reflexivity].
  destruct (Child.measure_wrist_circumference _ _ _ _ _) as [wrist|]; [reflexivity|].
  rewrite !child_estimate_from.
  pose proof (child_arms_summary landmarks (shape1 img) (shape0 img) (pixel_length / 15.0))
    as Hs.
  pose proof (estimate_from_deterministic _ _ _ _ _ _ Hs g1 g2) as Hdet.
  destruct (estimate_from _ g1) as [[wrist1 out1] g1'].
  destruct (estimate_from _ g2) as [[wrist2 out2] g2'].
  cbn [fst snd] in *. intro Hnot.
  destruct (Hdet Hnot) as [Heq _]. injection Heq as -> ->. reflexivity.
Qed.

Lemma relaxed_process_image_deterministic `{MathLib} `{Vision} `{RandomSource}
  (path : string) (g1 g2 : rng) :
  ~ random_estimate_reached (snd (fst (Relaxed.process_image path g1))) ->
  fst (Relaxed.process_image path g2) = fst (Relaxed.process_image path g1).
Proof.
  unfold Relaxed.process_image.
  destruct (imread path) as [img|]; [|reflexivity].
  destruct (Relaxed.detect_scale_pixel_length (cvtColor_BGR2GRAY img) img)
    as [pixel_length|]; [|reflexivity].
  destruct (pose_process (cvtColor_BGR2RGB img)) as [landmarks|]; [|reflexivity].
  destruct (truediv _ _) as [height|e]; [|reflexivity].
  destruct (Relaxed.measure_head_circumference _ _ _ _) as [head|e]; [|reflexivity].
  destruct (Relaxed.measure_wrist_circumference _ _ _ _ _) as [wrist|]; [reflexivity|].
  rewrite !relaxed_estimate_from.
  pose proof (relaxed_arms_summary landmarks (shape1 img) (shape0 img) (pixel_length / 15.0))
    as Hs.
  pose proof (estimate_from_deterministic _ _ _ _ _ _ Hs g1 g2) as Hdet.
  destruct (estimate_from _ g1) as [[wrist1 out1] g1'].
  destruct (estimate_from _ g2) as [[wrist2 out2] g2'].
  cbn [fst snd] in *. intro Hnot.
  destruct (Hdet Hnot) as [Heq _]. injection Heq as -> ->. reflexivity.
Qed.

(** C9.  Two runs of [process_image] on the same image, with the same
    vision stack and landmark provider, that start from any two states of
    the random generator and do not reach the random last-resort wrist
    estimate, produce identical results (the same record, or the same
    exception) and print the same lines. *)
Theorem C9_deterministic_unless_random_estimate `{MathLib} `{Vision} `{RandomSource}
  (path : string) (g1 g2 : rng) :
  ~ random_estimate_reached (snd (fst (Child.process_image path g1))) ->
  ~ random_estimate_reached (snd (fst (Child.process_image path g2))) ->
  fst (fst (Child.process_image path g1)) = fst (fst (Child.process_image path g2))
  /\ snd (fst (Child.process_image path g1)) = snd (fst (Child.process_image path g2)).
Proof.
  intros Hnot1 _.
  rewrite (child_process_image_deterministic path g1 g2 Hnot1).
  split; reflexivity.
Qed.

Lemma C9_deterministic_unless_random_estimate_witness :
  let run := @Child.process_image
               math6 (staged_vision [ruler_contour] (Some standing)) lcg "frame.jpg" in
  ~ random_estimate_reached (snd (fst (run 5%Z)))
  /\ ~ random_estimate_reached (snd (fst (run 77%Z)))
  /\ fst (fst (run 5%Z)) = fst (fst (run 77%Z))
  /\ snd (fst (run 5%Z)) = snd (fst (run 77%Z)).
Proof.
  cbv zeta.
  assert (Hnot : forall g : Z,
             ~ random_estimate_reached
                 (snd (fst (@Child.process_image
                              math6 (staged_vision [ruler_contour] (Some standing)) lcg
                              "frame.jpg" g)))).
  { intros g [v Hin]. vm_compute in Hin.
    repeat (destruct Hin as [Heq | Hin]; [discriminate Heq|]). exact Hin. }
  split; [apply Hnot|]. split; [apply Hnot|].
  apply (@C9_deterministic_unless_random_estimate
           math6 (staged_vision [ruler_contour] (Some standing)) lcg
           "frame.jpg"%string 5%Z 77%Z); apply Hnot.
Defined.

(** ** The primary wrist measurement *)

Lemma fold_left_Qplus (l : list Q) (a : Q) :
  fold_left Qplus l a == a + fold_right Qplus 0 l.
Proof.
  revert a. induction l as [|c l IH]; intro a; simpl.
  - lra.
  - rewrite IH. lra.
Qed.

Lemma inject_length_cons {A : Type} (a : A) (l : list A) :
  inject_Z (Z.of_nat (length (a :: l))) == inject_Z (Z.of_nat (length l)) + 1.
Proof.
  cbn [length]. rewrite Nat2Z.inj_succ. unfold Z.succ.
  rewrite inject_Z_plus. reflexivity.
Qed.

Lemma inject_length_nonneg {A : Type} (l : list A) :
  0 <= inject_Z (Z.of_nat (length l)).
Proof.
  change 0 with (inject_Z 0). rewrite <- Zle_Qle. lia.
Qed.

Lemma sum_within_band (lo hi : Q) (l : list Q) :
  (forall c, In c l -> lo <= c <= hi) ->
  inject_Z (Z.of_nat (length l)) * lo <= fold_right Qplus 0 l
  /\ fold_right Qplus 0 l <= inject_Z (Z.of_nat (length l)) * hi.
Proof.
  induction l as [|c l IH]; intro Hband.
  - cbn [length Z.of_nat fold_right]. change (inject_Z 0) with 0. lra.
  - destruct IH as [IHlo IHhi]; [intros c' Hc'; apply Hband; right; exact Hc'|].
    destruct (Hband c (or_introl eq_refl)) as [Hlo Hhi].
    rewrite inject_length_cons. cbn [fold_right]. lra.
Qed.

(** The mean of a non-empty list of values of a band lies in the band. *)
Lemma mean_within_band (lo hi : Q) (l : list Q) :
  l <> [] ->
  (forall c, In c l -> lo <= c <= hi) ->
  exists v, mean l = Some v /\ v == arithmetic_mean l /\ lo <= v <= hi.
Proof.
  intros Hne Hband.
  destruct l as [|c l]; [congruence|].
  exists (fold_left Qplus (c :: l) 0 / inject_Z (Z.of_nat (length (c :: l)))).
  split; [reflexivity|].
  assert (Hn : 0 < inject_Z (Z.of_nat (length (c :: l)))).
  { rewrite inject_length_cons. pose proof (inject_length_nonneg l). lra. }
  assert (Hsum : fold_left Qplus (c :: l) 0 == fold_right Qplus 0 (c :: l)).
  { rewrite fold_left_Qplus. lra. }
  unfold arithmetic_mean. rewrite Hsum. split; [reflexivity|].
  destruct (sum_within_band lo hi (c :: l) Hband) as [Hlo Hhi].
  split.
  - apply Qle_shift_div_l; [exact Hn | lra].
  - apply Qle_shift_div_r; [exact Hn | lra].
Qed.

Lemma child_side_within_band `{MathLib} `{Vision}
  (landmarks : Landmarks) (image : Array2 BGR) (image_w image_h : Z)
  (pixel_per_cm : Q) (side : Side) (c : Q) :
  In c (Child.wrist_side_measurement landmarks image image_w image_h pixel_per_cm side) ->
  8 <= c <= 16.
Proof.
  unfold Child.wrist_side_measurement.
  destruct (ltb _ 0.5); [intros []|].
  cbn [Child.landmark_point_to_pixel].
  destruct (size_is_zero _); [intros []|].
  destruct (median _) as [wrist_width_px|]; [|intros []].
  destruct (np_truediv _ _) as [wrist_width_cm|]; [|intros []].
  destruct (leb 8 _ && leb _ 16) eqn:Eb; [|intros []].
  intros [<- | []]. apply andb_true_iff in Eb. destruct Eb as [Hlo Hhi].
  apply leb_le in Hlo, Hhi. split; assumption.
Qed.

Lemma relaxed_side_within_band `{MathLib} `{Vision}
  (landmarks : Landmarks) (image : Array2 BGR) (image_w image_h : Z)
  (pixel_per_cm : Q) (side : Side) (c : Q) :
  In c (Relaxed.wrist_side_measurement landmarks image image_w image_h pixel_per_cm side) ->
  6 <= c <= 25.
Proof.
  unfold Relaxed.wrist_side_measurement.
  destruct (ltb _ 0.4); [intros []|].
  cbn [Relaxed.landmark_point_to_pixel].
  destruct (size_is_zero _); [intros []|].
  cbv zeta.
  destruct (median _) as [wrist_width_px|]; [|intros []].
  destruct (np_truediv _ _) as [wrist_width_cm|]; [|intros []].
  destruct (leb 6 _ && leb _ 25) eqn:Eb; [|intros []].
  intros [<- | []]. apply andb_true_iff in Eb. destruct Eb as [Hlo Hhi].
  apply leb_le in Hlo, Hhi. split; assumption.
Qed.

(** C5.  In the primary wrist measurement a side's circumference is
    accepted only if it lies within the band of the variant (8-16 cm in
    the strict one, 6-25 cm in the relaxed one); with no side accepted the
    measurement returns nothing, and otherwise it returns the arithmetic
    mean of the accepted values, which lies within the band. *)
Theorem C5_primary_wrist_within_band `{MathLib} `{Vision}
  (landmarks : Landmarks) (image : Array2 BGR) (image_w image_h : Z) (pixel_per_cm : Q) :
  let child_accepted :=
    flat_map (Child.wrist_side_measurement landmarks image image_w image_h pixel_per_cm)
             [LEFT; RIGHT] in
  let relaxed_accepted :=
    flat_map (Relaxed.wrist_side_measurement landmarks image image_w image_h pixel_per_cm)
             [LEFT; RIGHT] in
  ((forall c, In c child_accepted -> 8 <= c <= 16)
   /\ (child_accepted = [] ->
       Child.measure_wrist_circumference landmarks image image_w image_h pixel_per_cm
       = None)
   /\ (child_accepted <> [] ->
       exists v,
         Child.measure_wrist_circumference landmarks image image_w image_h pixel_per_cm
         = Some v
         /\ v == arithmetic_mean child_accepted /\ 8 <= v <= 16))
  /\
  ((forall c, In c relaxed_accepted -> 6 <= c <= 25)
   /\ (relaxed_accepted = [] ->
       Relaxed.measure_wrist_circumference landmarks image image_w image_h pixel_per_cm
       = None)
   /\ (relaxed_accepted <> [] ->
       exists v,
         Relaxed.measure_wrist_circumference landmarks image image_w image_h pixel_per_cm
         = Some v
         /\ v == arithmetic_mean relaxed_accepted /\ 6 <= v <= 25)).
Proof.
  cbv zeta. split.
  - assert (Hband : forall c,
               In c (flat_map (Child.wrist_side_measurement
                                 landmarks image image_w image_h pixel_per_cm)
                              [LEFT; RIGHT]) -> 8 <= c <= 16).
    { intros c Hin. apply in_flat_map in Hin. destruct Hin as [side [_ Hin]].
      exact (child_side_within_band _ _ _ _ _ _ _ Hin). }
    split; [exact Hband|]. unfold Child.measure_wrist_circumference. split.
    + intros ->. reflexivity.
    + intro Hne. exact (mean_within_band 8 16 _ Hne Hband).
  - assert (Hband : forall c,
               In c (flat_map (Relaxed.wrist_side_measurement
                                 landmarks image image_w image_h pixel_per_cm)
                              [LEFT; RIGHT]) -> 6 <= c <= 25).
    { intros c Hin. apply in_flat_map in Hin. destruct Hin as [side [_ Hin]].
      exact (relaxed_side_within_band _ _ _ _ _ _ _ Hin). }
    split; [exact Hband|]. unfold Relaxed.measure_wrist_circumference. split.
    + intros ->. reflexivity.
    + intro Hne. exact (mean_within_band 6 25 _ Hne Hband).
Qed.

Lemma C5_primary_wrist_within_band_witness :
  let accepted :=
    flat_map (@Child.wrist_side_measurement
                math6 (edge_vision [long_ruler_contour] (Some standing))
                standing black_frame 100 200 10)
             [LEFT; RIGHT] in
  accepted <> []
  /\ exists v,
       @Child.measure_wrist_circumference
         math6 (edge_vision [long_ruler_contour] (Some standing))
         standing black_frame 100 200 10 = Some v
       /\ v == arithmetic_mean accepted /\ 8 <= v <= 16.
Proof.
  cbv zeta.
  assert (Hne : flat_map (@Child.wrist_side_measurement
                            math6 (edge_vision [long_ruler_contour] (Some standing))
                            standing black_frame 100 200 10)
                         [LEFT; RIGHT] <> []).
  { vm_compute. discriminate. }
  split; [exact Hne|].
  destruct (@C5_primary_wrist_within_band
              math6 (edge_vision [long_ruler_contour] (Some standing))
              standing black_frame 100%Z 200%Z 10) as [[_ [_ Hmean]] _].
  exact (Hmean Hne).
Defined.

(** ** Calibration *)

Lemma leb_gt (a b : Q) : leb a b = false -> b < a.
Proof.
  intro E. apply Qnot_le_lt. intro Hle. apply leb_le in Hle. congruence.
Qed.

Lemma child_candidates_positive (contours : list Contour) (w h : Z) (c : Child.candidate) :
  In c (Child.ruler_candidates contours w h) -> 0 < child_long_side c.
Proof.
  induction contours as [|cnt rest IH]; simpl; [intros []|].
  destruct (ltb (contourArea cnt) _); [exact IH|].
  destruct (rect_size (minAreaRect cnt)) as [rw rh].
  destruct (leb (min rw rh) 0) eqn:Es; [exact IH|].
  destruct (_ && _); [|exact IH].
  intros [<- | Hin]; [|exact (IH Hin)].
  apply leb_gt in Es. unfold child_long_side. cbn [fst snd].
  pose proof (min_upper_l rw rh). pose proof (max_lower_l rw rh). lra.
Qed.

(** C4 fails on the largest-contour fallback.  When the detector finds a
    ruler candidate the calibration is strictly positive; but when it
    finds none it returns the long side of the largest contour unchecked,
    and for a contour that is a single edge pixel that side is 0: the
    detector returns 0 rather than nothing, the pipeline goes on with a
    calibration of 0, and the first conversion, of the height, divides by
    zero. *)
Theorem C4_zero_calibration_from_point_contour :
  (forall (sees : Vision) (image_gray : Array2 Z) (orig_img : Array2 BGR),
     Child.ruler_candidates (Child.scale_contours image_gray)
                            (shape1 image_gray) (shape0 image_gray) <> [] ->
     exists pixel_length,
       Child.detect_scale_pixel_length image_gray orig_img = Some pixel_length
       /\ 0 < pixel_length / 15.0)
  /\ (let sees := staged_vision [point_contour] (Some standing) in
      Child.ruler_candidates (@Child.scale_contours sees gray_frame) 100 200 = []
      /\ @Child.detect_scale_pixel_length sees gray_frame black_frame = Some 0
      /\ @Child.process_image math6 sees lcg "frame.jpg" 5%Z
         = (Raise ZeroDivisionError, [], 5%Z)).
Proof.
  split.
  - intros sees image_gray orig_img Hne.
    destruct (child_scale_with_candidates _ _ _ Hne) as [c [Hin [Hret _]]].
    exists (child_long_side c). split; [exact Hret|].
    pose proof (child_candidates_positive _ _ _ _ Hin) as Hpos.
    apply Qlt_shift_div_l; lra.
  - cbv zeta. split; [reflexivity|]. split; vm_compute; reflexivity.
Qed.

(** C8.  The height in pixels is [max(0, feet_y - head_top_y)]: it is the
    difference when the feet lie below the head top, 0 when they lie
    above it, and so never negative; [feet_y] is at most the image
    height; and the height of every result of [process_image] is this
    height in pixels divided by the calibration. *)
Theorem C8_pixel_height_clamped `{MathLib} `{Vision} `{RandomSource}
  (landmarks : Landmarks) (h : Z) :
  0 <= Child.pixel_height landmarks h
  /\ (Child.estimate_head_top_y landmarks h <= Child.estimate_feet_y landmarks h ->
      Child.pixel_height landmarks h
      == Child.estimate_feet_y landmarks h - Child.estimate_head_top_y landmarks h)
  /\ (Child.estimate_feet_y landmarks h <= Child.estimate_head_top_y landmarks h ->
      Child.pixel_height landmarks h == 0)
  /\ Child.estimate_feet_y landmarks h <= inject_Z h
  /\ (forall (path : string) (g g' : rng) (r : MeasurementResult) (out : list event),
        Child.process_image path g = (Ok r, out, g') ->
        exists img subject,
          imread path = Some img
          /\ pose_process (cvtColor_BGR2RGB img) = Some subject
          /\ height_cm r = Child.pixel_height subject (shape0 img) / pixel_per_cm r
          /\ 0 <= Child.pixel_height subject (shape0 img)).
Proof.
  destruct (child_pixel_height landmarks h) as [Hpos [Hdiff [Hzero Hfeet]]].
  repeat (split; [assumption|]).
  intros path g g' r out Hrun.
  destruct (child_process_image_ok _ _ _ _ _ Hrun) as [img [subject [Hi [Hp [Hh _]]]]].
  exists img, subject. repeat (split; [assumption|]).
  apply child_pixel_height.
Qed.

Lemma C8_pixel_height_clamped_witness :
  let sees := staged_vision [ruler_contour] (Some standing) in
  (Child.estimate_head_top_y standing 200 <= Child.estimate_feet_y standing 200
   /\ Child.pixel_height standing 200
      == Child.estimate_feet_y standing 200 - Child.estimate_head_top_y standing 200)
  /\ exists r out g',
       @Child.process_image math6 sees lcg "frame.jpg" 5%Z = (Ok r, out, g')
       /\ exists img subject,
            @imread sees "frame.jpg" = Some img
            /\ @pose_process sees (cvtColor_BGR2RGB img) = Some subject
            /\ height_cm r = Child.pixel_height subject (shape0 img) / pixel_per_cm r
            /\ 0 <= Child.pixel_height subject (shape0 img).
Proof.
  cbv zeta.
  destruct (@C8_pixel_height_clamped
              math6 (staged_vision [ruler_contour] (Some standing)) lcg standing 200%Z)
    as [_ [Hdiff [_ [_ Hrun]]]].
  split.
  - assert (Hle : Child.estimate_head_top_y standing 200
                  <= Child.estimate_feet_y standing 200)
      by (vm_compute; discriminate).
    split; [exact Hle | exact (Hdiff Hle)].
  - eexists. eexists. eexists. split; [vm_compute; reflexivity|].
    eapply (Hrun "frame.jpg"%string 5%Z 5%Z). vm_compute. reflexivity.
Defined.

(** ** More on the scale detector *)

Lemma max_by_from_greatest {A : Type} (key : A -> Q) (l : list A) (best : A) :
  In (max_by_from key best l) (best :: l)
  /\ forall a, In a (best :: l) -> key a <= key (max_by_from key best l).
Proof.
  revert best. induction l as [|b l IH]; intro best; simpl.
  - split; [left; reflexivity|]. intros a [<- | []]. lra.
  - destruct (ltb (key best) (key b)) eqn:E.
    + apply ltb_lt in E. destruct (IH b) as [Hin Hmax]. split.
      * right. exact Hin.
      * intros a [<- | Ha].
        -- specialize (Hmax b (or_introl eq_refl)). lra.
        -- apply Hmax. exact Ha.
    + apply ltb_ge in E. destruct (IH best) as [Hin Hmax]. split.
      * destruct Hin as [Hin | Hin]; [left; exact Hin | right; right; exact Hin].
      * intros a [<- | [<- | Ha]].
        -- apply Hmax. left. reflexivity.
        -- specialize (Hmax best (or_introl eq_refl)). lra.
        -- apply Hmax. right. exact Ha.
Qed.

Lemma child_candidates_of_nil (w h : Z) : Child.ruler_candidates [] w h = [].
Proof. reflexivity. Qed.

Lemma child_scale_none (contours : list Contour) (w h : Z) :
  Child.scale_from_contours contours w h = None <-> contours = [].
Proof.
  unfold Child.scale_from_contours.
  destruct (Child.ruler_candidates contours w h) as [|c cs] eqn:Ec.
  - destruct contours as [|cnt rest]; simpl; split; intro; congruence.
  - destruct (sort_reverse _ ltb (c :: cs)) as [|[[a l] r] rest] eqn:Es.
    + apply sort_reverse_nil in Es. discriminate.
    + split; [discriminate|]. intros ->. discriminate.
Qed.

Lemma relaxed_scale_none (contours : list Contour) (w h : Z) :
  Relaxed.scale_from_contours contours w h = None <-> contours = [].
Proof.
  unfold Relaxed.scale_from_contours.
  destruct (Relaxed.ruler_candidates contours w h) as [|c cs] eqn:Ec.
  - destruct contours as [|cnt rest]; simpl; split; intro; congruence.
  - destruct (sort_reverse _ tuple_ltb (c :: cs)) as [|[[[a l] r] asp] rest] eqn:Es.
    + apply sort_reverse_nil in Es. discriminate.
    + split; [discriminate|]. intros ->. discriminate.
Qed.

(** X1.  In both variants the scale detector returns nothing exactly when
    no contour at all was extracted from the edge map. *)
Theorem X1_scale_absent_iff_no_contours `{Vision}
  (image_gray : Array2 Z) (orig_img : Array2 BGR) :
  (Child.detect_scale_pixel_length image_gray orig_img = None
   <-> Child.scale_contours image_gray = [])
  /\ (Relaxed.detect_scale_pixel_length image_gray orig_img = None
      <-> Relaxed.scale_contours image_gray = []).
Proof.
  split; [apply child_scale_none | apply relaxed_scale_none].
Qed.

Lemma child_scale_fallback (contours : list Contour) (w h : Z) :
  Child.ruler_candidates contours w h = [] ->
  contours <> [] ->
  exists cnt,
    In cnt contours
    /\ Child.scale_from_contours contours w h = Some (contour_long_side cnt)
    /\ forall cnt', In cnt' contours -> contourArea cnt' <= contourArea cnt.
Proof.
  intros Hc Hne. unfold Child.scale_from_contours. rewrite Hc.
  destruct contours as [|cnt rest]; [congruence|]. cbn [max_by].
  destruct (max_by_from_greatest contourArea rest cnt) as [Hin Hmax].
  exists (max_by_from contourArea cnt rest).
  split; [exact Hin|]. split; [reflexivity | exact Hmax].
Qed.

Lemma relaxed_scale_fallback (contours : list Contour) (w h : Z) :
  Relaxed.ruler_candidates contours w h = [] ->
  contours <> [] ->
  exists cnt,
    In cnt contours
    /\ Relaxed.scale_from_contours contours w h = Some (contour_long_side cnt)
    /\ forall cnt', In cnt' contours -> contourArea cnt' <= contourArea cnt.
Proof.
  intros Hc Hne. unfold Relaxed.scale_from_contours. rewrite Hc.
  destruct contours as [|cnt rest]; [congruence|]. cbn [max_by].
  destruct (max_by_from_greatest contourArea rest cnt) as [Hin Hmax].
  exists (max_by_from contourArea cnt rest).
  split; [exact Hin|]. split; [reflexivity | exact Hmax].
Qed.

(** X2.  When no contour qualifies as a ruler candidate but some contour
    exists, the detector of either variant returns the long side of the
    minimum-area rectangle of a contour of greatest area. *)
Theorem X2_scale_fallback_largest_contour `{Vision}
  (image_gray : Array2 Z) (orig_img : Array2 BGR) :
  Child.scale_contours image_gray <> [] ->
  (Child.ruler_candidates (Child.scale_contours image_gray)
     (shape1 image_gray) (shape0 image_gray) = [] ->
   exists cnt,
     In cnt (Child.scale_contours image_gray)
     /\ Child.detect_scale_pixel_length image_gray orig_img
        = Some (contour_long_side cnt)
     /\ forall cnt', In cnt' (Child.scale_contours image_gray) ->
                     contourArea cnt' <= contourArea cnt)
  /\
  (Relaxed.ruler_candidates (Relaxed.scale_contours image_gray)
     (shape1 image_gray) (shape0 image_gray) = [] ->
   exists cnt,
     In cnt (Relaxed.scale_contours image_gray)
     /\ Relaxed.detect_scale_pixel_length image_gray orig_img
        = Some (contour_long_side cnt)
     /\ forall cnt', In cnt' (Relaxed.scale_contours image_gray) ->
                     contourArea cnt' <= contourArea cnt).
Proof.
  intro Hne. split; intro Hc.
  - exact (child_scale_fallback _ _ _ Hc Hne).
  - exact (relaxed_scale_fallback _ _ _ Hc Hne).
Qed.

Lemma X2_scale_fallback_largest_contour_witness :
  let sees := staged_vision [point_contour; blob_contour] None in
  @Child.scale_contours sees gray_frame <> []
  /\ exists cnt,
       In cnt (@Relaxed.scale_contours sees gray_frame)
       /\ @Relaxed.detect_scale_pixel_length sees gray_frame black_frame
          = Some (contour_long_side cnt)
       /\ forall cnt', In cnt' (@Relaxed.scale_contours sees gray_frame) ->
                       contourArea cnt' <= contourArea cnt.
Proof.
  cbv zeta.
  assert (Hne : @Child.scale_contours (staged_vision [point_contour; blob_contour] None)
                  gray_frame <> []) by (vm_compute; discriminate).
  split; [exact Hne|].
  apply (proj2 (@X2_scale_fallback_largest_contour
                  (staged_vision [point_contour; blob_contour] None)
                  gray_frame black_frame Hne)).
  vm_compute. reflexivity.
Defined.

Lemma child_candidate_iff (contours : list Contour) (w h : Z) (c : Child.candidate) :
  In c (Child.ruler_candidates contours w h)
  <-> exists cnt,
        In cnt contours
        /\ c = (contourArea cnt, contour_long_side cnt, minAreaRect cnt)
        /\ ruler_like 3 0.05 0.9 w h cnt.
Proof.
  induction contours as [|cnt rest IH].
  - simpl. split; [intros [] | intros [cnt [[] _]]].
  - assert (Hrest : (exists cnt0, In cnt0 rest
                       /\ c = (contourArea cnt0, contour_long_side cnt0, minAreaRect cnt0)
                       /\ ruler_like 3 0.05 0.9 w h cnt0)
                    -> exists cnt0, In cnt0 (cnt :: rest)
                       /\ c = (contourArea cnt0, contour_long_side cnt0, minAreaRect cnt0)
                       /\ ruler_like 3 0.05 0.9 w h cnt0).
    { intros [cnt0 [Hin Hc]]. exists cnt0. split; [right; exact Hin | exact Hc]. }
    cbn [Child.ruler_candidates].
    unfold ruler_like, contour_long_side, rect_aspect.
    unfold ruler_like, contour_long_side, rect_aspect in IH, Hrest.
    destruct (ltb (contourArea cnt) _) eqn:Ea.
    { apply ltb_lt in Ea. rewrite IH. split; [exact Hrest|].
      intros [cnt0 [[<- | Hin] [Hc Hl]]]; [destruct Hl as [Hl _]; lra|].
      exists cnt0. split; [exact Hin|]. split; assumption. }
    apply ltb_ge in Ea.
    destruct (rect_size (minAreaRect cnt)) as [rw rh] eqn:Esz. cbn [fst snd].
    destruct (leb (min rw rh) 0) eqn:Es.
    { apply leb_le in Es. rewrite IH. split; [exact Hrest|].
      intros [cnt0 [[<- | Hin] [Hc Hl]]].
      - rewrite Esz in Hl. cbn [fst snd] in Hl. destruct Hl as [_ [Hl _]]. lra.
      - exists cnt0. split; [exact Hin|]. split; assumption. }
    apply leb_gt in Es.
    destruct (ltb 3.0 _ && ltb _ (max rw rh) && ltb (max rw rh) _) eqn:Eb.
    + apply andb_true_iff in Eb. destruct Eb as [Eb E3].
      apply andb_true_iff in Eb. destruct Eb as [E1 E2].
      apply ltb_lt in E1, E2, E3. cbn [In]. rewrite IH. split.
      * intros [<- | Hin]; [|exact (Hrest Hin)].
        exists cnt. split; [left; reflexivity|]. rewrite Esz. cbn [fst snd].
        split; [reflexivity|]. repeat split; try assumption. lra.
      * intros [cnt0 [[<- | Hin] [Hc Hl]]].
        -- left. rewrite Hc, Esz. reflexivity.
        -- right. exists cnt0. split; [exact Hin|]. split; assumption.
    + rewrite IH. split; [exact Hrest|].
      intros [cnt0 [[<- | Hin] [Hc Hl]]].
      * exfalso. rewrite Esz in Hl. cbn [fst snd] in Hl.
        destruct Hl as [_ [_ [H1 [H2 H3]]]].
        assert (E1 : ltb 3.0 (max rw rh / (min rw rh + 1e-8)) = true)
          by (apply ltb_lt; lra).
        apply (proj2 (ltb_lt _ _)) in H2. apply (proj2 (ltb_lt _ _)) in H3.
        rewrite E1, H2, H3 in Eb. discriminate Eb.
      * exists cnt0. split; [exact Hin|]. split; assumption.
Qed.

Lemma relaxed_candidate_iff (contours : list Contour) (w h : Z) (c : Relaxed.candidate) :
  In c (Relaxed.ruler_candidates contours w h)
  <-> exists cnt,
        In cnt contours
        /\ c = (contourArea cnt, contour_long_side cnt, minAreaRect cnt,
                rect_aspect (minAreaRect cnt))
        /\ ruler_like 8 0.08 0.4 w h cnt.
Proof.
  induction contours as [|cnt rest IH].
  - simpl. split; [intros [] | intros [cnt [[] _]]].
  - assert (Hrest : (exists cnt0, In cnt0 rest
                       /\ c = (contourArea cnt0, contour_long_side cnt0, minAreaRect cnt0,
                               rect_aspect (minAreaRect cnt0))
                       /\ ruler_like 8 0.08 0.4 w h cnt0)
                    -> exists cnt0, In cnt0 (cnt :: rest)
                       /\ c = (contourArea cnt0, contour_long_side cnt0, minAreaRect cnt0,
                               rect_aspect (minAreaRect cnt0))
                       /\ ruler_like 8 0.08 0.4 w h cnt0).
    { intros [cnt0 [Hin Hc]]. exists cnt0. split; [right; exact Hin | exact Hc]. }
    cbn [Relaxed.ruler_candidates].
    unfold ruler_like, contour_long_side, rect_aspect.
    unfold ruler_like, contour_long_side, rect_aspect in IH, Hrest.
    destruct (ltb (contourArea cnt) _) eqn:Ea.
    { apply ltb_lt in Ea. rewrite IH. split; [exact Hrest|].
      intros [cnt0 [[<- | Hin] [Hc Hl]]]; [destruct Hl as [Hl _]; lra|].
      exists cnt0. split; [exact Hin|]. split; assumption. }
    apply ltb_ge in Ea.
    destruct (rect_size (minAreaRect cnt)) as [rw rh] eqn:Esz. cbn [fst snd].
    destruct (leb (min rw rh) 0) eqn:Es.
    { apply leb_le in Es. rewrite IH. split; [exact Hrest|].
      intros [cnt0 [[<- | Hin] [Hc Hl]]].
      - rewrite Esz in Hl. cbn [fst snd] in Hl. destruct Hl as [_ [Hl _]]. lra.
      - exists cnt0. split; [exact Hin|]. split; assumption. }
    apply leb_gt in Es.
    destruct (ltb 8.0 _ && ltb _ (max rw rh) && ltb (max rw rh) _) eqn:Eb.
    + apply andb_true_iff in Eb. destruct Eb as [Eb E3].
      apply andb_true_iff in Eb. destruct Eb as [E1 E2].
      apply ltb_lt in E1, E2, E3. cbn [In]. rewrite IH. split.
      * intros [<- | Hin]; [|exact (Hrest Hin)].
        exists cnt. split; [left; reflexivity|]. rewrite Esz. cbn [fst snd].
        split; [reflexivity|]. repeat split; try assumption. lra.
      * intros [cnt0 [[<- | Hin] [Hc Hl]]].
        -- left. rewrite Hc, Esz. reflexivity.
        -- right. exists cnt0. split; [exact Hin|]. split; assumption.
    + rewrite IH. split; [exact Hrest|].
      intros [cnt0 [[<- | Hin] [Hc Hl]]].
      * exfalso. rewrite Esz in Hl. cbn [fst snd] in Hl.
        destruct Hl as [_ [_ [H1 [H2 H3]]]].
        assert (E1 : ltb 8.0 (max rw rh / (min rw rh + 1e-8)) = true)
          by (apply ltb_lt; lra).
        apply (proj2 (ltb_lt _ _)) in H2. apply (proj2 (ltb_lt _ _)) in H3.
        rewrite E1, H2, H3 in Eb. discriminate Eb.
      * exists cnt0. split; [exact Hin|]. split; assumption.
Qed.

(** X3.  When a ruler candidate exists, the length the detector returns
    lies strictly between 5% and 90% of the larger image dimension in the
    strict variant, and strictly between 8% and 40% of it in the relaxed
    variant. *)
Theorem X3_scale_within_fraction_of_image `{Vision}
  (image_gray : Array2 Z) (orig_img : Array2 BGR) :
  let w := shape1 image_gray in
  let h := shape0 image_gray in
  (Child.ruler_candidates (Child.scale_contours image_gray) w h <> [] ->
   exists pixel_length,
     Child.detect_scale_pixel_length image_gray orig_img = Some pixel_length
     /\ 0.05 * inject_Z (Z.max w h) < pixel_length
     /\ pixel_length < 0.9 * inject_Z (Z.max w h))
  /\
  (Relaxed.ruler_candidates (Relaxed.scale_contours image_gray) w h <> [] ->
   exists pixel_length,
     Relaxed.detect_scale_pixel_length image_gray orig_img = Some pixel_length
     /\ 0.08 * inject_Z (Z.max w h) < pixel_length
     /\ pixel_length < 0.4 * inject_Z (Z.max w h)).
Proof.
  cbv zeta. split; intro Hne.
  - destruct (child_scale_with_candidates _ _ _ Hne) as [c [Hin [Hret _]]].
    apply child_candidate_iff in Hin.
    destruct Hin as [cnt [_ [-> [_ [_ [_ [Hlo Hhi]]]]]]].
    exists (contour_long_side cnt). split; [exact Hret|]. split; assumption.
  - destruct (relaxed_scale_with_candidates _ _ _ Hne) as [c [Hin [Hret _]]].
    apply relaxed_candidate_iff in Hin.
    destruct Hin as [cnt [_ [-> [_ [_ [_ [Hlo Hhi]]]]]]].
    exists (contour_long_side cnt). split; [exact Hret|]. split; assumption.
Qed.

Lemma X3_scale_within_fraction_of_image_witness :
  let sees := staged_vision [wide_contour; thin_contour] None in
  exists pixel_length,
    @Relaxed.detect_scale_pixel_length sees gray_frame black_frame = Some pixel_length
    /\ 0.08 * inject_Z (Z.max (shape1 gray_frame) (shape0 gray_frame)) < pixel_length
    /\ pixel_length < 0.4 * inject_Z (Z.max (shape1 gray_frame) (shape0 gray_frame)).
Proof.
  cbv zeta.
  apply (proj2 (@X3_scale_within_fraction_of_image
                  (staged_vision [wide_contour; thin_contour] None)
                  gray_frame black_frame)).
  vm_compute. discriminate.
Defined.

Lemma shape_max_nonneg {A : Type} (a : Array2 A) :
  0 <= inject_Z (Z.max (shape1 a) (shape0 a)).
Proof.
  change 0 with (inject_Z 0). rewrite <- Zle_Qle. unfold shape0, shape1. lia.
Qed.

(** X4.  The thresholds of the two detectors nest: on the same image,
    every ruler candidate of the relaxed variant is, without its stored
    aspect, a ruler candidate of the strict variant. *)
Theorem X4_relaxed_candidates_are_strict_candidates `{Vision}
  (image_gray : Array2 Z) (c : Relaxed.candidate) :
  In c (Relaxed.ruler_candidates (Relaxed.scale_contours image_gray)
          (shape1 image_gray) (shape0 image_gray)) ->
  In (fst c) (Child.ruler_candidates (Child.scale_contours image_gray)
                (shape1 image_gray) (shape0 image_gray)).
Proof.
  intro Hin. apply relaxed_candidate_iff in Hin.
  destruct Hin as [cnt [Hcnt [-> [Ha [Hs [Hasp [Hlo Hhi]]]]]]].
  apply child_candidate_iff. exists cnt.
  split; [exact Hcnt|]. split; [reflexivity|].
  pose proof (shape_max_nonneg image_gray) as Hm.
  repeat split; try assumption; lra.
Qed.

Lemma X4_relaxed_candidates_are_strict_candidates_witness :
  let sees := staged_vision [wide_contour; thin_contour] None in
  let c := (140, 75, minAreaRect thin_contour, rect_aspect (minAreaRect thin_contour)) in
  In c (Relaxed.ruler_candidates (@Relaxed.scale_contours sees gray_frame)
          (shape1 gray_frame) (shape0 gray_frame))
  /\ In (fst c) (Child.ruler_candidates (@Child.scale_contours sees gray_frame)
                   (shape1 gray_frame) (shape0 gray_frame)).
Proof.
  cbv zeta.
  assert (Hin : In (140, 75, minAreaRect thin_contour,
                    rect_aspect (minAreaRect thin_contour))
                   (Relaxed.ruler_candidates
                      (@Relaxed.scale_contours
                         (staged_vision [wide_contour; thin_contour] None) gray_frame)
                      (shape1 gray_frame) (shape0 gray_frame))).
  { vm_compute. right. left. reflexivity. }
  split; [exact Hin|].
  exact (@X4_relaxed_candidates_are_strict_candidates
           (staged_vision [wide_contour; thin_contour] None) gray_frame _ Hin).
Defined.

(** ** More on the geometry extractors *)

Lemma fold_left_min_lower (l : list Q) (a : Q) :
  fold_left min l a <= a /\ forall y, In y l -> fold_left min l a <= y.
Proof.
  revert a. induction l as [|b l IH]; intro a; simpl.
  - split; [lra | intros y []].
  - destruct (IH (min a b)) as [Ha Hl].
    destruct (min_spec a b) as [[Hlt E] | [Hle E]]; rewrite E in *.
    + split; [lra|]. intros y [<- | Hy]; [lra | exact (Hl y Hy)].
    + split; [lra|]. intros y [<- | Hy]; [lra | exact (Hl y Hy)].
Qed.

Lemma fold_left_max_upper (l : list Q) (a : Q) :
  a <= fold_left max l a /\ forall y, In y l -> y <= fold_left max l a.
Proof.
  revert a. induction l as [|b l IH]; intro a; simpl.
  - split; [lra | intros y []].
  - destruct (IH (max a b)) as [Ha Hl].
    destruct (max_spec a b) as [[Hlt E] | [Hle E]]; rewrite E in *.
    + split; [lra|]. intros y [<- | Hy]; [lra | exact (Hl y Hy)].
    + split; [lra|]. intros y [<- | Hy]; [lra | exact (Hl y Hy)].
Qed.

Lemma min_list_lower (ys : list Q) (y : Q) : In y ys -> min_list ys <= y.
Proof.
  destruct ys as [|y0 ys]; [intros []|]. unfold min_list. cbn [hd tl].
  destruct (fold_left_min_lower ys y0) as [H0 Hl].
  intros [<- | Hy]; [exact H0 | exact (Hl y Hy)].
Qed.

Lemma max_list_upper (ys : list Q) (y : Q) : In y ys -> y <= max_list ys.
Proof.
  destruct ys as [|y0 ys]; [intros []|]. unfold max_list. cbn [hd tl].
  destruct (fold_left_max_upper ys y0) as [H0 Hl].
  intros [<- | Hy]; [exact H0 | exact (Hl y Hy)].
Qed.

Lemma inject_nonneg (z : Z) : (0 <= z)%Z -> 0 <= inject_Z z.
Proof. intro Hz. change 0 with (inject_Z 0). rewrite <- Zle_Qle. exact Hz. Qed.

(** X5.  In an image of non-negative height the estimated head top is
    never negative, and it lies at or above every facial landmark that is
    inside the frame vertically: at least 4% of the image height above a
    landmark whose [y] is at least 0.04. *)
Theorem X5_head_top_above_face (landmarks : Landmarks) (image_h : Z) :
  (0 <= image_h)%Z ->
  0 <= Child.estimate_head_top_y landmarks image_h
  /\ forall name, In name face_landmarks ->
       (0 <= lm_y (landmarks name) ->
        Child.estimate_head_top_y landmarks image_h
        <= lm_y (landmarks name) * inject_Z image_h)
       /\ (0.04 <= lm_y (landmarks name) ->
           Child.estimate_head_top_y landmarks image_h
           <= (lm_y (landmarks name) - 0.04) * inject_Z image_h).
Proof.
  intro Hh. apply inject_nonneg in Hh. unfold Child.estimate_head_top_y.
  set (ys := map (fun name => lm_y (landmarks name))
                 [LEFT_EYE; RIGHT_EYE; NOSE; LEFT_EAR; RIGHT_EAR]).
  set (offset := max 0.04 _).
  assert (Hoff : 0.04 <= offset) by apply max_lower_l.
  split.
  - apply Qmult_le_0_compat; [|exact Hh].
    pose proof (max_lower_l 0.0 (min_list ys - offset)). lra.
  - intros name Hname.
    assert (Hmin : min_list ys <= lm_y (landmarks name)).
    { apply min_list_lower. unfold ys.
      apply (in_map (fun name => lm_y (landmarks name))). exact Hname. }
    split; intro Hy; apply Qmult_le_compat_r; try exact Hh;
      destruct (max_spec 0.0 (min_list ys - offset)) as [[_ ->] | [_ ->]]; lra.
Qed.

Lemma X5_head_top_above_face_witness :
  (0 <= 200)%Z
  /\ 0 <= Child.estimate_head_top_y standing 200
  /\ Child.estimate_head_top_y standing 200
     <= (lm_y (standing NOSE) - 0.04) * inject_Z 200.
Proof.
  destruct (X5_head_top_above_face standing 200 ltac:(lia)) as [Hpos Hface].
  split; [lia|]. split; [exact Hpos|].
  apply (Hface NOSE); [right; right; left; reflexivity|].
  vm_compute. discriminate.
Defined.

(** X6.  In an image of non-negative height the estimated feet line lies
    at or below every foot landmark that is inside the frame vertically,
    and it is exactly the bottom edge as soon as one foot landmark
    reaches it or lies below it. *)
Theorem X6_feet_line_below_feet (landmarks : Landmarks) (image_h : Z) :
  (0 <= image_h)%Z ->
  (forall name, In name feet_landmarks ->
     lm_y (landmarks name) <= 1 ->
     lm_y (landmarks name) * inject_Z image_h
     <= Child.estimate_feet_y landmarks image_h)
  /\ ((exists name, In name feet_landmarks /\ 1 <= lm_y (landmarks name)) ->
      Child.estimate_feet_y landmarks image_h == inject_Z image_h).
Proof.
  intro Hh. apply inject_nonneg in Hh. unfold Child.estimate_feet_y.
  set (ys := map (fun name => lm_y (landmarks name))
                 [LEFT_ANKLE; RIGHT_ANKLE; LEFT_HEEL; RIGHT_HEEL;
                  LEFT_FOOT_INDEX; RIGHT_FOOT_INDEX]).
  assert (Hmax : forall name, In name feet_landmarks ->
                   lm_y (landmarks name) <= max_list ys).
  { intros name Hname. apply max_list_upper. unfold ys.
    apply (in_map (fun name => lm_y (landmarks name))). exact Hname. }
  split.
  - intros name Hname Hy. specialize (Hmax name Hname).
    assert (H1 : lm_y (landmarks name) * inject_Z image_h
                 <= max_list ys * inject_Z image_h)
      by (apply Qmult_le_compat_r; assumption).
    assert (H2 : lm_y (landmarks name) * inject_Z image_h <= 1 * inject_Z image_h)
      by (apply Qmult_le_compat_r; assumption).
    destruct (min_spec (inject_Z image_h) (max_list ys * inject_Z image_h))
      as [[_ ->] | [_ ->]]; lra.
  - intros [name [Hname Hy]]. specialize (Hmax name Hname).
    assert (H1 : 1 * inject_Z image_h <= max_list ys * inject_Z image_h)
      by (apply Qmult_le_compat_r; [lra | exact Hh]).
    destruct (min_spec (inject_Z image_h) (max_list ys * inject_Z image_h))
      as [[Hlt ->] | [_ ->]]; lra.
Qed.

Lemma X6_feet_line_below_feet_witness :
  (0 <= 200)%Z
  /\ lm_y (standing LEFT_HEEL) * inject_Z 200 <= Child.estimate_feet_y standing 200
  /\ Child.estimate_feet_y feet_below_frame 200 == inject_Z 200.
Proof.
  split; [lia|]. split.
  - apply (proj1 (X6_feet_line_below_feet standing 200 ltac:(lia)) LEFT_HEEL).
    + right. right. left. reflexivity.
    + vm_compute. discriminate.
  - apply (proj2 (X6_feet_line_below_feet feet_below_frame 200 ltac:(lia))).
    exists LEFT_FOOT_INDEX. split.
    + right. right. right. right. left. reflexivity.
    + vm_compute. discriminate.
Defined.

Lemma child_head_top_nonneg (landmarks : Landmarks) (image_h : Z) :
  (0 <= image_h)%Z -> 0 <= Child.estimate_head_top_y landmarks image_h.
Proof.
  intro Hh. apply inject_nonneg in Hh. unfold Child.estimate_head_top_y.
  apply Qmult_le_0_compat; [|exact Hh].
  match goal with |- 0 <= max 0.0 ?b => pose proof (max_lower_l 0.0 b) end. lra.
Qed.

Lemma child_pixel_height_upper (landmarks : Landmarks) (image_h : Z) :
  (0 <= image_h)%Z -> Child.pixel_height landmarks image_h <= inject_Z image_h.
Proof.
  intro Hh.
  pose proof (child_head_top_nonneg landmarks image_h Hh) as Htop.
  destruct (child_pixel_height landmarks image_h) as [_ [_ [_ Hfeet]]].
  apply inject_nonneg in Hh. unfold Child.pixel_height.
  destruct (max_spec 0.0 (Child.estimate_feet_y landmarks image_h
                          - Child.estimate_head_top_y landmarks image_h))
    as [[_ ->] | [_ ->]]; lra.
Qed.

(** X7.  In every result of [process_image] with a positive calibration
    the height is at least 0 and at most the height of the image
    converted to centimeters. *)
Theorem X7_height_within_frame `{MathLib} `{Vision} `{RandomSource}
  (path : string) (g g' : rng) (r : MeasurementResult) (out : list event) :
  Child.process_image path g = (Ok r, out, g') ->
  0 < pixel_per_cm r ->
  exists img,
    imread path = Some img
    /\ 0 <= height_cm r
    /\ height_cm r <= inject_Z (shape0 img) / pixel_per_cm r.
Proof.
  intros Hrun Hpos.
  destruct (child_process_image_ok _ _ _ _ _ Hrun) as [img [subject [Hi [_ [Hh _]]]]].
  exists img. split; [exact Hi|]. rewrite Hh.
  assert (Hnn : (0 <= shape0 img)%Z) by (unfold shape0; lia).
  pose proof (child_pixel_height_upper subject (shape0 img) Hnn) as Hup.
  destruct (child_pixel_height subject (shape0 img)) as [Hlo _].
  split.
  - apply Qle_shift_div_l; [exact Hpos | lra].
  - apply Qle_shift_div_r; [exact Hpos|].
    setoid_replace (inject_Z (shape0 img) / pixel_per_cm r * pixel_per_cm r)
      with (inject_Z (shape0 img)); [exact Hup|].
    field. lra.
Qed.

Lemma X7_height_within_frame_witness :
  let sees := staged_vision [ruler_contour] (Some standing) in
  exists r out g',
    @Child.process_image math6 sees lcg "frame.jpg" 5%Z = (Ok r, out, g')
    /\ 0 < pixel_per_cm r
    /\ exists img,
         @imread sees "frame.jpg" = Some img
         /\ 0 <= height_cm r
         /\ height_cm r <= inject_Z (shape0 img) / pixel_per_cm r.
Proof.
  cbv zeta. eexists. eexists. eexists.
  split; [vm_compute; reflexivity|]. split; [reflexivity|].
  eapply (@X7_height_within_frame math6 (staged_vision [ruler_contour] (Some standing)) lcg
            "frame.jpg"%string 5%Z 5%Z).
  - vm_compute. reflexivity.
  - reflexivity.
Defined.

Lemma int_within (q : Q) (n : Z) :
  0 <= q -> q <= inject_Z n -> (0 <= int q <= n)%Z.
Proof.
  intros Hlo Hhi. destruct (int_truncates q) as [Hpos _].
  destruct (Hpos Hlo) as [Hle Hlt]. split.
  - assert (Hq : inject_Z 0 < inject_Z (int q + 1)).
    { rewrite inject_Z_plus. change (inject_Z 0) with 0. change (inject_Z 1) with 1. lra. }
    rewrite <- Zlt_Qlt in Hq. lia.
  - rewrite Zle_Qle. lra.
Qed.

Lemma pixel_inside_image (lm : Landmark) (image_w image_h : Z) :
  (0 <= image_w)%Z -> (0 <= image_h)%Z ->
  0 <= lm_x lm <= 1 -> 0 <= lm_y lm <= 1 ->
  (0 <= fst (Child.landmark_point_to_pixel lm image_w image_h) <= image_w)%Z
  /\ (0 <= snd (Child.landmark_point_to_pixel lm image_w image_h) <= image_h)%Z.
Proof.
  intros Hw Hh [Hx0 Hx1] [Hy0 Hy1].
  apply inject_nonneg in Hw, Hh. unfold Child.landmark_point_to_pixel. cbn [fst snd].
  split; apply int_within.
  - apply Qmult_le_0_compat; assumption.
  - setoid_replace (inject_Z image_w) with (1 * inject_Z image_w) at 2 by ring.
    apply Qmult_le_compat_r; assumption.
  - apply Qmult_le_0_compat; assumption.
  - setoid_replace (inject_Z image_h) with (1 * inject_Z image_h) at 2 by ring.
    apply Qmult_le_compat_r; assumption.
Qed.

(** X8.  A landmark inside the frame (normalized coordinates in [0, 1]) is
    converted to a pixel position inside the image: its column is between
    0 and the width, its row between 0 and the height (both ends
    included). *)
Theorem X8_pixel_inside_image (lm : Landmark) (image_w image_h : Z) :
  (0 <= image_w)%Z -> (0 <= image_h)%Z ->
  0 <= lm_x lm <= 1 -> 0 <= lm_y lm <= 1 ->
  (0 <= fst (Child.landmark_point_to_pixel lm image_w image_h) <= image_w)%Z
  /\ (0 <= snd (Child.landmark_point_to_pixel lm image_w image_h) <= image_h)%Z.
Proof.
  intros Hw Hh [Hx0 Hx1] [Hy0 Hy1].
  apply inject_nonneg in Hw, Hh. unfold Child.landmark_point_to_pixel. cbn [fst snd].
  split; apply int_within.
  - apply Qmult_le_0_compat; assumption.
  - setoid_replace (inject_Z image_w) with (1 * inject_Z image_w) at 2 by ring.
    apply Qmult_le_compat_r; assumption.
  - apply Qmult_le_0_compat; assumption.
  - setoid_replace (inject_Z image_h) with (1 * inject_Z image_h) at 2 by ring.
    apply Qmult_le_compat_r; assumption.
Qed.

Lemma X8_pixel_inside_image_witness :
  (0 <= fst (Child.landmark_point_to_pixel (standing LEFT_WRIST) 100 200) <= 100)%Z
  /\ (0 <= snd (Child.landmark_point_to_pixel (standing LEFT_WRIST) 100 200) <= 200)%Z.
Proof.
  apply (X8_pixel_inside_image (standing LEFT_WRIST) 100 200); try lia;
    split; vm_compute; discriminate.
Defined.

(** ** More on the orchestrator *)

Lemma truediv_raise (a b : Q) (e : exn) :
  truediv a b = Raise e -> e = ZeroDivisionError /\ b == 0.
Proof.
  unfold truediv. destruct (Qeq_bool b 0) eqn:E; [|discriminate].
  intro Hr. injection Hr as <-. split; [reflexivity|]. apply Qeq_bool_iff. exact E.
Qed.

Lemma child_head_raise `{MathLib}
  (landmarks : Landmarks) (image_w image_h : Z) (pixel_per_cm : Q) (e : exn) :
  Child.measure_head_circumference landmarks image_w image_h pixel_per_cm = Raise e ->
  e = ZeroDivisionError /\ pixel_per_cm == 0.
Proof.
  unfold Child.measure_head_circumference.
  destruct (truediv _ pixel_per_cm) as [v|e'] eqn:Ed; [discriminate|].
  intro Hr. injection Hr as <-. exact (truediv_raise _ _ _ Ed).
Qed.

Lemma scale_zero_iff (pixel_length : Q) : pixel_length / 15.0 == 0 <-> pixel_length == 0.
Proof.
  split; intro Hz.
  - setoid_replace pixel_length with (pixel_length / 15.0 * 15.0) by (field; lra).
    rewrite Hz. ring.
  - rewrite Hz. reflexivity.
Qed.



(** X10.  [process_image] returns a result exactly when the image can be
    opened, a scale of non-zero length is detected and pose landmarks are
    found: once these three hold, neither the head nor the wrist step can
    make the pipeline fail.  The calibration of the result is the detected
    length divided by 15. *)
Theorem X10_process_image_succeeds_iff `{MathLib} `{Vision} `{RandomSource}
  (path : string) (g : rng) :
  ((exists r out g', Child.process_image path g = (Ok r, out, g'))
   <-> (exists img pixel_length landmarks,
          imread path = Some img
          /\ Child.detect_scale_pixel_length (cvtColor_BGR2GRAY img) img
             = Some pixel_length
          /\ ~ pixel_length == 0
          /\ pose_process (cvtColor_BGR2RGB img) = Some landmarks))
  /\ forall r out g',
       Child.process_image path g = (Ok r, out, g') ->
       exists img pixel_length,
         imread path = Some img
         /\ Child.detect_scale_pixel_length (cvtColor_BGR2GRAY img) img
            = Some pixel_length
         /\ pixel_per_cm r = pixel_length / 15.0
         /\ ~ pixel_per_cm r == 0.
Proof.
  unfold Child.process_image.
  destruct (imread path) as [img|] eqn:Hi.
  2:{ split; [split|].
      - intros [r [out [g' Hr]]]. discriminate Hr.
      - intros [img [pl [lms [Hc _]]]]. discriminate Hc.
      - intros r out g' Hr. discriminate Hr. }
  destruct (Child.detect_scale_pixel_length (cvtColor_BGR2GRAY img) img)
    as [pixel_length|] eqn:Hd.
  2:{ split; [split|].
      - intros [r [out [g' Hr]]]. discriminate Hr.
      - intros [img' [pl [lms [Hc [Hd' _]]]]]. injection Hc as Himg. subst img'. congruence.
      - intros r out g' Hr. discriminate Hr. }
  destruct (pose_process (cvtColor_BGR2RGB img)) as [landmarks|] eqn:Hp.
  2:{ split; [split|].
      - intros [r [out [g' Hr]]]. discriminate Hr.
      - intros [img' [pl [lms [Hc [_ [_ Hp']]]]]]. injection Hc as Himg. subst img'. congruence.
      - intros r out g' Hr. discriminate Hr. }
  destruct (truediv _ (pixel_length / 15.0)) as [height|e0] eqn:Eh.
  2:{ destruct (truediv_raise _ _ _ Eh) as [_ Hz]. apply (proj1 (scale_zero_iff _)) in Hz.
      split; [split|].
      - intros [r [out [g' Hr]]]. discriminate Hr.
      - intros [img' [pl [lms [Hc [Hd' [Hnz _]]]]]]. injection Hc as Himg. subst img'.
        rewrite Hd in Hd'. injection Hd' as <-. contradiction.
      - intros r out g' Hr. discriminate Hr. }
  assert (Hnz : ~ pixel_length / 15.0 == 0).
  { intro Hz. unfold truediv in Eh. apply Qeq_bool_iff in Hz. rewrite Hz in Eh.
    discriminate Eh. }
  destruct (Child.measure_head_circumference _ _ _ _) as [head|e0] eqn:Ec.
  2:{ exfalso. destruct (child_head_raise _ _ _ _ _ Ec) as [_ Hz]. contradiction. }
  split; [split|].
  - intros _. exists img, pixel_length, landmarks.
    split; [reflexivity|]. split; [exact Hd|]. split; [|exact Hp].
    intro Hz. apply Hnz. apply scale_zero_iff. exact Hz.
  - intros _.
    destruct (Child.measure_wrist_circumference _ _ _ _ _) as [wrist|].
    + eexists. eexists. eexists. reflexivity.
    + destruct (Child.estimate_wrist_from_arm_length _ _ _ _ _) as [[wrist out0] g0].
      eexists. eexists. eexists. reflexivity.
  - intros r out g' Hr. exists img, pixel_length.
    split; [reflexivity|]. split; [exact Hd|].
    destruct (Child.measure_wrist_circumference _ _ _ _ _) as [wrist|].
    + injection Hr as <- _ _. cbn [pixel_per_cm]. split; [reflexivity | exact Hnz].
    + destruct (Child.estimate_wrist_from_arm_length _ _ _ _ _) as [[wrist out0] g0].
      injection Hr as <- _ _. cbn [pixel_per_cm]. split; [reflexivity | exact Hnz].
Qed.

Lemma relaxed_process_image_ok `{MathLib} `{Vision} `{RandomSource}
  (path : string) (g g' : rng) (r : MeasurementResult) (out : list event) :
  Relaxed.process_image path g = (Ok r, out, g') ->
  exists img landmarks,
    imread path = Some img
    /\ pose_process (cvtColor_BGR2RGB img) = Some landmarks
    /\ height_cm r = Relaxed.pixel_height landmarks (shape0 img) / pixel_per_cm r
    /\ match Relaxed.measure_wrist_circumference
               landmarks img (shape1 img) (shape0 img) (pixel_per_cm r) with
       | Some wrist_circ_cm =>
           wrist_fallback_used r = false /\ out = [] /\ g' = g
           /\ wrist_circumference_cm r
              = (if Qeq_bool wrist_circ_cm 0 then None else Some wrist_circ_cm)
       | None =>
           let e := Relaxed.estimate_wrist_from_arm_length
                      landmarks (shape1 img) (shape0 img) (pixel_per_cm r) g in
           wrist_fallback_used r = true /\ out = snd (fst e) /\ g' = snd e
           /\ wrist_circumference_cm r
              = (if Qeq_bool (fst (fst e)) 0 then None else Some (fst (fst e)))
       end.
Proof.
  unfold Relaxed.process_image.
  destruct (imread path) as [img|] eqn:Hi; [|discriminate].
  destruct (Relaxed.detect_scale_pixel_length (cvtColor_BGR2GRAY img) img)
    as [pixel_length|]; [|discriminate].
  destruct (pose_process (cvtColor_BGR2RGB img)) as [landmarks|] eqn:Hp; [|discriminate].
  unfold truediv at 1.
  destruct (Qeq_bool (pixel_length / 15.0) 0); [discriminate|].
  destruct (Relaxed.measure_head_circumference _ _ _ _) as [head|e]; [|discriminate].
  intro Hrun. exists img, landmarks. split; [reflexivity|]. split; [exact Hp|].
  destruct (Relaxed.measure_wrist_circumference landmarks img (shape1 img) (shape0 img)
              (pixel_length / 15.0)) as [wrist|] eqn:Ew.
  - injection Hrun as <- <- <-. cbn [pixel_per_cm height_cm]. rewrite Ew.
    repeat split; reflexivity.
  - destruct (Relaxed.estimate_wrist_from_arm_length landmarks (shape1 img) (shape0 img)
                (pixel_length / 15.0) g) as [[wrist out0] g0] eqn:Ee.
    injection Hrun as <- <- <-. cbn [pixel_per_cm height_cm]. rewrite Ew. cbv zeta.
    rewrite Ee. repeat split; reflexivity.
Qed.

Lemma child_primary_within_band `{MathLib} `{Vision}
  (landmarks : Landmarks) (image : Array2 BGR) (image_w image_h : Z)
  (pixel_per_cm v : Q) :
  Child.measure_wrist_circumference landmarks image image_w image_h pixel_per_cm = Some v ->
  8 <= v <= 16.
Proof.
  unfold Child.measure_wrist_circumference. intro Hm.
  set (accepted := flat_map (Child.wrist_side_measurement
                               landmarks image image_w image_h pixel_per_cm)
                            [LEFT; RIGHT]) in *.
  assert (Hband : forall c, In c accepted -> 8 <= c <= 16).
  { intros c Hin. apply in_flat_map in Hin. destruct Hin as [side [_ Hin]].
    exact (child_side_within_band _ _ _ _ _ _ _ Hin). }
  assert (Hne : accepted <> []) by (intro E; rewrite E in Hm; discriminate Hm).
  destruct (mean_within_band 8 16 accepted Hne Hband) as [v' [Hv' [_ Hb]]].
  congruence.
Qed.

Lemma relaxed_primary_within_band `{MathLib} `{Vision}
  (landmarks : Landmarks) (image : Array2 BGR) (image_w image_h : Z)
  (pixel_per_cm v : Q) :
  Relaxed.measure_wrist_circumference landmarks image image_w image_h pixel_per_cm = Some v ->
  6 <= v <= 25.
Proof.
  unfold Relaxed.measure_wrist_circumference. intro Hm.
  set (accepted := flat_map (Relaxed.wrist_side_measurement
                               landmarks image image_w image_h pixel_per_cm)
                            [LEFT; RIGHT]) in *.
  assert (Hband : forall c, In c accepted -> 6 <= c <= 25).
  { intros c Hin. apply in_flat_map in Hin. destruct Hin as [side [_ Hin]].
    exact (relaxed_side_within_band _ _ _ _ _ _ _ Hin). }
  assert (Hne : accepted <> []) by (intro E; rewrite E in Hm; discriminate Hm).
  destruct (mean_within_band 6 25 accepted Hne Hband) as [v' [Hv' [_ Hb]]].
  congruence.
Qed.

Lemma truthy_some (v : Q) : 0 < v -> (if Qeq_bool v 0 then None else Some v) = Some v.
Proof.
  intro Hv. destruct (Qeq_bool v 0) eqn:E; [|reflexivity].
  apply Qeq_bool_iff in E. lra.
Qed.

(** X11.  Provided [random()] returns values in [0, 1), every result of
    [process_image] carries a wrist circumference: between 8 and 18 cm in
    the strict variant (at most 16 cm when the fallback was not used) and
    between 6 and 25 cm in the relaxed variant (between 8 and 18 cm when
    the fallback was used).  The empty wrist entry of the dictionary is
    never produced. *)
Theorem X11_wrist_always_present `{MathLib} `{Vision} `{RandomSource} :
  (forall g0, 0 <= fst (random_random g0) /\ fst (random_random g0) < 1) ->
  (forall (path : string) (g g' : rng) (r : MeasurementResult) (out : list event),
     Child.process_image path g = (Ok r, out, g') ->
     exists v,
       wrist_circumference_cm r = Some v /\ 8 <= v <= 18
       /\ (wrist_fallback_used r = false -> v <= 16))
  /\
  (forall (path : string) (g g' : rng) (r : MeasurementResult) (out : list event),
     Relaxed.process_image path g = (Ok r, out, g') ->
     exists v,
       wrist_circumference_cm r = Some v /\ 6 <= v <= 25
       /\ (wrist_fallback_used r = true -> 8 <= v <= 18)).
Proof.
  intro Hunit. split; intros path g g' r out Hrun.
  - destruct (child_process_image_ok _ _ _ _ _ Hrun) as [img [lms [_ [_ [_ Hw]]]]].
    destruct (Child.measure_wrist_circumference lms img (shape1 img) (shape0 img)
                (pixel_per_cm r)) as [wrist|] eqn:Ew.
    + destruct Hw as [_ [_ [_ Hc]]].
      pose proof (child_primary_within_band _ _ _ _ _ _ Ew) as Hb.
      exists wrist. rewrite Hc. split; [apply truthy_some; lra|].
      split; [lra | intros _; lra].
    + cbv zeta in Hw. rewrite child_estimate_from in Hw.
      destruct Hw as [Hf [_ [_ Hc]]].
      pose proof (child_arms_summary lms (shape1 img) (shape0 img) (pixel_per_cm r)) as Hs.
      destruct (estimate_from_bounds _ _ _ _ _ _ Hs g Hunit) as [Hb _].
      eexists. rewrite Hc. split; [apply truthy_some; lra|].
      split; [exact Hb | rewrite Hf; discriminate].
  - destruct (relaxed_process_image_ok _ _ _ _ _ Hrun) as [img [lms [_ [_ [_ Hw]]]]].
    destruct (Relaxed.measure_wrist_circumference lms img (shape1 img) (shape0 img)
                (pixel_per_cm r)) as [wrist|] eqn:Ew.
    + destruct Hw as [Hf [_ [_ Hc]]].
      pose proof (relaxed_primary_within_band _ _ _ _ _ _ Ew) as Hb.
      exists wrist. rewrite Hc. split; [apply truthy_some; lra|].
      split; [lra | rewrite Hf; discriminate].
    + cbv zeta in Hw. rewrite relaxed_estimate_from in Hw.
      destruct Hw as [_ [_ [_ Hc]]].
      pose proof (relaxed_arms_summary lms (shape1 img) (shape0 img) (pixel_per_cm r)) as Hs.
      destruct (estimate_from_bounds _ _ _ _ _ _ Hs g Hunit) as [Hb _].
      eexists. rewrite Hc. split; [apply truthy_some; lra|].
      split; [lra | intros _; exact Hb].
Qed.

Lemma X11_wrist_always_present_witness :
  (forall g0 : Z, 0 <= fst (@random_random lcg g0) /\ fst (@random_random lcg g0) < 1)
  /\ exists r out g',
       @Relaxed.process_image math6 (edge_vision [long_ruler_contour] (Some standing)) lcg
         "frame.jpg" 5%Z = (Ok r, out, g')
       /\ exists v,
            wrist_circumference_cm r = Some v /\ 6 <= v <= 25
            /\ (wrist_fallback_used r = true -> 8 <= v <= 18).
Proof.
  split; [exact lcg_unit|].
  eexists. eexists. eexists. split; [vm_compute; reflexivity|].
  eapply (proj2 (@X11_wrist_always_present
                   math6 (edge_vision [long_ruler_contour] (Some standing)) lcg lcg_unit)
                "frame.jpg"%string 5%Z 5%Z).
  vm_compute. reflexivity.
Defined.

(** ** More on the arm-length fallback *)

Lemma arm_circ_zero `{MathLib}
  (landmarks : Landmarks) (image_w image_h : Z) (pixel_per_cm : Q) (side : Side) :
  pixel_per_cm == 0 ->
  arm_wrist_circ landmarks image_w image_h pixel_per_cm side == 0.
Proof.
  intro Hz. unfold arm_wrist_circ, Qdiv. rewrite Hz. change (/ 0) with 0. ring.
Qed.

Section ArmRunsComplete.
Context `{MathLib}.
Variables (landmarks : Landmarks) (image_w image_h : Z) (pixel_per_cm : Q).
Variable eligible : Side -> Prop.
Variable visibilities : Side -> list Q.

Let run (side : Side) : list event * arm_outcome -> Prop :=
  arm_run landmarks image_w image_h pixel_per_cm side (visibilities side) (eligible side).
Let circ (side : Side) : Q :=
  arm_wrist_circ landmarks image_w image_h pixel_per_cm side.

Lemma in_range_nonzero (side : Side) : 8 <= circ side <= 18 -> ~ pixel_per_cm == 0.
Proof.
  intros Hr Hz. pose proof (arm_circ_zero landmarks image_w image_h _ side Hz) as Hc.
  unfold circ in Hr. lra.
Qed.

Lemma arm_run_accepts (side : Side) (r : list event * arm_outcome) :
  run side r -> eligible side -> 8 <= circ side <= 18 ->
  snd r = Returned (circ side).
Proof.
  intros Hr He Hb. pose proof (in_range_nonzero side Hb) as Hnz.
  destruct Hr; try contradiction; reflexivity.
Qed.

Lemma arm_run_rejects (side : Side) (r : list event * arm_outcome) :
  run side r -> ~ (eligible side /\ 8 <= circ side <= 18) -> ~ pixel_per_cm == 0 ->
  snd r = FellThrough.
Proof.
  intros Hr Hn Hnz. destruct Hr; try contradiction; try reflexivity.
  exfalso. apply Hn. split; assumption.
Qed.

Lemma both_arms_left_first (rl rr : list event * arm_outcome) :
  run LEFT rl -> run RIGHT rr ->
  eligible LEFT -> 8 <= circ LEFT <= 18 ->
  snd (both_arms rl rr) = Returned (circ LEFT)
  /\ arms_examined (fst (both_arms rl rr)) = [LEFT].
Proof.
  intros Hl Hr He Hb. pose proof (arm_run_accepts _ _ Hl He Hb) as Hs.
  unfold both_arms. rewrite Hs. split; [exact Hs|].
  exact (arm_run_examined _ _ _ _ _ _ _ _ Hl).
Qed.

Lemma both_arms_right_second (rl rr : list event * arm_outcome) :
  run LEFT rl -> run RIGHT rr ->
  ~ (eligible LEFT /\ 8 <= circ LEFT <= 18) ->
  eligible RIGHT -> 8 <= circ RIGHT <= 18 ->
  snd (both_arms rl rr) = Returned (circ RIGHT)
  /\ arms_examined (fst (both_arms rl rr)) = [LEFT; RIGHT].
Proof.
  intros Hl Hr Hn He Hb. pose proof (in_range_nonzero RIGHT Hb) as Hnz.
  pose proof (arm_run_rejects _ _ Hl Hn Hnz) as Hs.
  unfold both_arms. rewrite Hs. cbn [fst snd]. split.
  - exact (arm_run_accepts _ _ Hr He Hb).
  - rewrite arms_examined_app.
    rewrite (arm_run_examined _ _ _ _ _ _ _ _ Hl), (arm_run_examined _ _ _ _ _ _ _ _ Hr).
    reflexivity.
Qed.

End ArmRunsComplete.

Lemma estimate_from_examined_eq `{RandomSource} (r : list event * arm_outcome) (g : rng) :
  arms_examined (snd (fst (estimate_from r g))) = arms_examined (fst r).
Proof.
  unfold estimate_from.
  destruct (snd r) as [c| |e]; cbn [fst snd arms_examined];
    rewrite ?arms_examined_app; cbn [arms_examined app];
    rewrite ?app_nil_r; reflexivity.
Qed.

Lemma estimate_from_value `{RandomSource} (r : list event * arm_outcome) (g : rng) (c : Q) :
  snd r = Returned c ->
  fst (fst (estimate_from r g)) = c /\ snd (estimate_from r g) = g.
Proof. unfold estimate_from. intros ->. split; reflexivity. Qed.

Lemma child_try_arms_runs `{MathLib}
  (landmarks : Landmarks) (image_w image_h : Z) (pixel_per_cm : Q) :
  let vis := fun side =>
    [lm_visibility (landmarks (ELBOW side)); lm_visibility (landmarks (WRIST side))] in
  forall side,
    arm_run landmarks image_w image_h pixel_per_cm side (vis side)
      (child_arm_eligible landmarks side)
      (Child.try_arm landmarks image_w image_h pixel_per_cm side).
Proof. intros vis side. apply child_try_arm_run. Qed.

Lemma relaxed_try_arms_runs `{MathLib}
  (landmarks : Landmarks) (image_w image_h : Z) (pixel_per_cm : Q) :
  let vis := fun side =>
    [lm_visibility (landmarks (SHOULDER side));
     lm_visibility (landmarks (ELBOW side));
     lm_visibility (landmarks (WRIST side))] in
  forall side,
    arm_run landmarks image_w image_h pixel_per_cm side (vis side)
      (relaxed_arm_eligible landmarks side)
      (Relaxed.try_arm landmarks image_w image_h pixel_per_cm side).
Proof. intros vis side. apply relaxed_try_arm_run. Qed.

(** X12.  In the arm-length fallback of either variant the left arm has
    priority: if it is eligible and its estimate is within 8-18 cm, that
    estimate is returned, the right arm is not examined and the random
    generator is not touched; if the left arm fails either test and the
    right arm passes both, the estimate of the right arm is returned
    after both arms were examined. *)
Theorem X12_left_arm_has_priority `{MathLib} `{RandomSource}
  (landmarks : Landmarks) (image_w image_h : Z) (ppc : Q) (g : rng) :
  let circ := arm_wrist_circ landmarks image_w image_h ppc in
  let child := Child.estimate_wrist_from_arm_length landmarks image_w image_h ppc g in
  let relaxed := Relaxed.estimate_wrist_from_arm_length landmarks image_w image_h ppc g in
  (child_arm_eligible landmarks LEFT -> 8 <= circ LEFT <= 18 ->
   fst (fst child) = circ LEFT /\ snd child = g
   /\ arms_examined (snd (fst child)) = [LEFT])
  /\ (~ (child_arm_eligible landmarks LEFT /\ 8 <= circ LEFT <= 18) ->
      child_arm_eligible landmarks RIGHT -> 8 <= circ RIGHT <= 18 ->
      fst (fst child) = circ RIGHT /\ snd child = g
      /\ arms_examined (snd (fst child)) = [LEFT; RIGHT])
  /\ (relaxed_arm_eligible landmarks LEFT -> 8 <= circ LEFT <= 18 ->
      fst (fst relaxed) = circ LEFT /\ snd relaxed = g
      /\ arms_examined (snd (fst relaxed)) = [LEFT])
  /\ (~ (relaxed_arm_eligible landmarks LEFT /\ 8 <= circ LEFT <= 18) ->
      relaxed_arm_eligible landmarks RIGHT -> 8 <= circ RIGHT <= 18 ->
      fst (fst relaxed) = circ RIGHT /\ snd relaxed = g
      /\ arms_examined (snd (fst relaxed)) = [LEFT; RIGHT]).
Proof.
  cbv zeta.
  rewrite child_estimate_from, relaxed_estimate_from.
  rewrite child_try_arms_both, relaxed_try_arms_both.
  pose proof (child_try_arms_runs landmarks image_w image_h ppc) as Hc.
  pose proof (relaxed_try_arms_runs landmarks image_w image_h ppc) as Hr.
  cbv zeta in Hc, Hr.
  assert (Hfin : forall (r : list event * arm_outcome) (c : Q) (sides : list Side),
             snd r = Returned c /\ arms_examined (fst r) = sides ->
             fst (fst (estimate_from r g)) = c /\ snd (estimate_from r g) = g
             /\ arms_examined (snd (fst (estimate_from r g))) = sides).
  { intros r c sides [Hs Hx]. destruct (estimate_from_value r g c Hs) as [Hv Hg].
    split; [exact Hv|]. split; [exact Hg|].
    rewrite estimate_from_examined_eq. exact Hx. }
  split; [|split; [|split]].
  - intros He Hb. apply Hfin.
    exact (both_arms_left_first _ _ _ _ _ _ _ _ (Hc LEFT) (Hc RIGHT) He Hb).
  - intros Hn He Hb. apply Hfin.
    exact (both_arms_right_second _ _ _ _ _ _ _ _ (Hc LEFT) (Hc RIGHT) Hn He Hb).
  - intros He Hb. apply Hfin.
    exact (both_arms_left_first _ _ _ _ _ _ _ _ (Hr LEFT) (Hr RIGHT) He Hb).
  - intros Hn He Hb. apply Hfin.
    exact (both_arms_right_second _ _ _ _ _ _ _ _ (Hr LEFT) (Hr RIGHT) Hn He Hb).
Qed.

Lemma X12_left_arm_has_priority_witness :
  let circ := @arm_wrist_circ math6 shoulder_hidden 100 200 2 in
  let child := @Child.estimate_wrist_from_arm_length math6 lcg shoulder_hidden 100 200 2 5%Z in
  let relaxed :=
    @Relaxed.estimate_wrist_from_arm_length math6 lcg shoulder_hidden 100 200 2 5%Z in
  (fst (fst child) = circ LEFT /\ snd child = 5%Z
   /\ arms_examined (snd (fst child)) = [LEFT])
  /\ (fst (fst relaxed) = circ RIGHT /\ snd relaxed = 5%Z
      /\ arms_examined (snd (fst relaxed)) = [LEFT; RIGHT]).
Proof.
  cbv zeta.
  destruct (@X12_left_arm_has_priority math6 lcg shoulder_hidden 100%Z 200%Z 2 5%Z)
    as [Hcl [_ [_ Hrr]]].
  split.
  - apply Hcl; split; vm_compute; first [reflexivity | discriminate].
  - apply Hrr.
    + intros [[Hs _] _]. vm_compute in Hs. discriminate Hs.
    + repeat split; vm_compute; reflexivity.
    + split; vm_compute; first [reflexivity | discriminate].
Defined.

Lemma fst_random_uniform `{RandomSource} (a b : Q) (g : rng) :
  fst (random_uniform a b g) = a + (b - a) * fst (random_random g)
  /\ snd (random_uniform a b g) = snd (random_random g).
Proof.
  unfold random_uniform. destruct (random_random g) as [u g1]. split; reflexivity.
Qed.

(** X13.  The arm-length fallback of the strict variant draws from the
    random generator exactly when it reaches the random estimate, and
    then once: the value returned is 12.5 + (14.5 - 12.5) * [random()]
    and the generator is left in the state after that one draw.  When the
    random estimate is not reached the generator is untouched and the
    value returned is the estimate of an eligible arm, within 8-18 cm. *)
Theorem X13_fallback_random_draw `{MathLib} `{RandomSource}
  (landmarks : Landmarks) (image_w image_h : Z) (ppc : Q) (g : rng) :
  let e := Child.estimate_wrist_from_arm_length landmarks image_w image_h ppc g in
  (random_estimate_reached (snd (fst e)) ->
   fst (fst e) = 12.5 + (14.5 - 12.5) * fst (random_random g)
   /\ snd e = snd (random_random g))
  /\ (~ random_estimate_reached (snd (fst e)) ->
      snd e = g
      /\ exists side,
           child_arm_eligible landmarks side
           /\ fst (fst e) = arm_wrist_circ landmarks image_w image_h ppc side
           /\ 8 <= fst (fst e) <= 18).
Proof.
  cbv zeta. rewrite child_estimate_from.
  pose proof (child_arms_summary landmarks image_w image_h ppc) as Hs.
  destruct (fst_random_uniform 12.5 14.5 g) as [Hu Hg].
  destruct (snd (Child.try_arms landmarks image_w image_h ppc)) as [c| |e] eqn:Er.
  - destruct (estimate_from_returned _ _ _ _ _ _ Hs c g Er) as [Heq Hnot].
    split; [intro Hreach; contradiction|]. intros _. rewrite Heq. cbn [fst snd].
    split; [reflexivity|].
    destruct Hs as [_ [_ [_ Hret]]]. destruct (Hret c Er) as [side [He [Hc Hb]]].
    exists side. split; [exact He|]. split; [exact Hc | exact Hb].
  - assert (Hnr : forall c, snd (Child.try_arms landmarks image_w image_h ppc)
                            <> Returned c) by (intros c; congruence).
    destruct (estimate_from_random _ g Hnr) as [Hv Hreach].
    split; [|intro Hnot; contradiction]. intros _.
    split; [rewrite Hv; exact Hu|].
    unfold estimate_from. rewrite Er. cbn [snd]. exact Hg.
  - assert (Hnr : forall c, snd (Child.try_arms landmarks image_w image_h ppc)
                            <> Returned c) by (intros c; congruence).
    destruct (estimate_from_random _ g Hnr) as [Hv Hreach].
    split; [|intro Hnot; contradiction]. intros _.
    split; [rewrite Hv; exact Hu|].
    unfold estimate_from. rewrite Er. cbn [snd]. exact Hg.
Qed.

Lemma X13_fallback_random_draw_witness :
  let e := @Child.estimate_wrist_from_arm_length math6 lcg arms_hidden 100 200 2 5%Z in
  random_estimate_reached (snd (fst e))
  /\ fst (fst e) = 12.5 + (14.5 - 12.5) * fst (@random_random lcg 5%Z)
  /\ snd e = snd (@random_random lcg 5%Z).
Proof.
  cbv zeta.
  assert (Hreach : random_estimate_reached
                     (snd (fst (@Child.estimate_wrist_from_arm_length math6 lcg
                                  arms_hidden 100 200 2 5%Z)))).
  { eexists. vm_compute. right. right. right. left. reflexivity. }
  split; [exact Hreach|].
  exact (proj1 (@X13_fallback_random_draw math6 lcg arms_hidden 100%Z 200%Z 2 5%Z) Hreach).
Defined.

Lemma try_arm_outcomes_agree `{MathLib}
  (landmarks : Landmarks) (image_w image_h : Z) (ppc : Q) (side : Side) :
  0.3 < lm_visibility (landmarks (SHOULDER side)) ->
  snd (Relaxed.try_arm landmarks image_w image_h ppc side)
  = snd (Child.try_arm landmarks image_w image_h ppc side).
Proof.
  intro Hs. apply ltb_lt in Hs. unfold Relaxed.try_arm, Child.try_arm.
  rewrite Hs. cbn [andb].
  destruct (ltb 0.3 (lm_visibility (landmarks (ELBOW side)))
            && ltb 0.3 (lm_visibility (landmarks (WRIST side)))); [|reflexivity].
  destruct (truediv _ ppc) as [forearm|e]; [|reflexivity].
  destruct (leb 8 _ && leb _ 18); reflexivity.
Qed.

Lemma snd_both_arms (rl rr : list event * arm_outcome) :
  snd (both_arms rl rr)
  = match snd rl with FellThrough => snd rr | outcome => outcome end.
Proof. unfold both_arms. destruct rl as [ol [c| |e]]; reflexivity. Qed.

Lemma estimate_from_outcome `{RandomSource} (r1 r2 : list event * arm_outcome) (g : rng) :
  snd r1 = snd r2 ->
  fst (fst (estimate_from r1 g)) = fst (fst (estimate_from r2 g))
  /\ snd (estimate_from r1 g) = snd (estimate_from r2 g).
Proof.
  unfold estimate_from. intros ->. destruct (snd r2); split; reflexivity.
Qed.

(** X14.  When both shoulders have visibility above 0.3 the two variants
    of the arm-length fallback return the same wrist estimate and leave
    the random generator in the same state: they differ only in the
    shoulder test of the relaxed variant. *)
Theorem X14_fallback_variants_agree `{MathLib} `{RandomSource}
  (landmarks : Landmarks) (image_w image_h : Z) (ppc : Q) (g : rng) :
  (forall side, 0.3 < lm_visibility (landmarks (SHOULDER side))) ->
  fst (fst (Relaxed.estimate_wrist_from_arm_length landmarks image_w image_h ppc g))
  = fst (fst (Child.estimate_wrist_from_arm_length landmarks image_w image_h ppc g))
  /\ snd (Relaxed.estimate_wrist_from_arm_length landmarks image_w image_h ppc g)
     = snd (Child.estimate_wrist_from_arm_length landmarks image_w image_h ppc g).
Proof.
  intro Hs. rewrite child_estimate_from, relaxed_estimate_from.
  apply estimate_from_outcome.
  rewrite child_try_arms_both, relaxed_try_arms_both, !snd_both_arms.
  rewrite (try_arm_outcomes_agree _ _ _ _ LEFT (Hs LEFT)).
  rewrite (try_arm_outcomes_agree _ _ _ _ RIGHT (Hs RIGHT)). reflexivity.
Qed.

Lemma X14_fallback_variants_agree_witness :
  (forall side, 0.3 < lm_visibility (standing (SHOULDER side)))
  /\ fst (fst (@Relaxed.estimate_wrist_from_arm_length math6 lcg standing 100 200 2 5%Z))
     = fst (fst (@Child.estimate_wrist_from_arm_length math6 lcg standing 100 200 2 5%Z))
  /\ snd (@Relaxed.estimate_wrist_from_arm_length math6 lcg standing 100 200 2 5%Z)
     = snd (@Child.estimate_wrist_from_arm_length math6 lcg standing 100 200 2 5%Z).
Proof.
  assert (Hs : forall side, 0.3 < lm_visibility (standing (SHOULDER side)))
    by (intros [|]; reflexivity).
  split; [exact Hs|].
  exact (@X14_fallback_variants_agree math6 lcg standing 100%Z 200%Z 2 5%Z Hs).
Defined.

(** ** More on the primary wrist measurement *)

Lemma child_side_nothing `{MathLib} `{Vision}
  (landmarks : Landmarks) (image : Array2 BGR) (image_w image_h : Z)
  (ppc : Q) (side : Side) :
  lm_visibility (landmarks (WRIST side)) < 0.5 \/ ppc == 0 ->
  Child.wrist_side_measurement landmarks image image_w image_h ppc side = [].
Proof.
  intro Hc. unfold Child.wrist_side_measurement.
  destruct (ltb _ 0.5) eqn:Ev; [reflexivity|].
  apply ltb_ge in Ev. destruct Hc as [Hv | Hz]; [lra|].
  cbn [Child.landmark_point_to_pixel].
  destruct (size_is_zero _); [reflexivity|].
  destruct (median _) as [wrist_width_px|]; [|reflexivity].
  unfold np_truediv. apply Qeq_bool_iff in Hz. rewrite Hz. reflexivity.
Qed.

Lemma relaxed_side_nothing `{MathLib} `{Vision}
  (landmarks : Landmarks) (image : Array2 BGR) (image_w image_h : Z)
  (ppc : Q) (side : Side) :
  lm_visibility (landmarks (WRIST side)) < 0.4 \/ ppc == 0 ->
  Relaxed.wrist_side_measurement landmarks image image_w image_h ppc side = [].
Proof.
  intro Hc. unfold Relaxed.wrist_side_measurement.
  destruct (ltb _ 0.4) eqn:Ev; [reflexivity|].
  apply ltb_ge in Ev. destruct Hc as [Hv | Hz]; [lra|].
  cbn [Relaxed.landmark_point_to_pixel].
  destruct (size_is_zero _); [reflexivity|].
  cbv zeta.
  destruct (median _) as [wrist_width_px|]; [|reflexivity].
  unfold np_truediv. apply Qeq_bool_iff in Hz. rewrite Hz. reflexivity.
Qed.

(** X15.  The primary wrist measurement returns nothing, whatever the
    image shows, when both wrists have visibility below the threshold of
    the variant (0.5 strict, 0.4 relaxed), and also when the calibration
    is zero: a zero calibration makes every circumference infinite, which
    the band test discards instead of raising. *)
Theorem X15_primary_wrist_absent `{MathLib} `{Vision}
  (landmarks : Landmarks) (image : Array2 BGR) (image_w image_h : Z) (ppc : Q) :
  ((forall side, lm_visibility (landmarks (WRIST side)) < 0.5) \/ ppc == 0 ->
   Child.measure_wrist_circumference landmarks image image_w image_h ppc = None)
  /\ ((forall side, lm_visibility (landmarks (WRIST side)) < 0.4) \/ ppc == 0 ->
      Relaxed.measure_wrist_circumference landmarks image image_w image_h ppc = None).
Proof.
  split; intro Hc.
  - unfold Child.measure_wrist_circumference. cbn [flat_map].
    rewrite !child_side_nothing; [reflexivity| |];
      (destruct Hc as [Hv | Hz]; [left; apply Hv | right; exact Hz]).
  - unfold Relaxed.measure_wrist_circumference. cbn [flat_map].
    rewrite !relaxed_side_nothing; [reflexivity| |];
      (destruct Hc as [Hv | Hz]; [left; apply Hv | right; exact Hz]).
Qed.

Lemma X15_primary_wrist_absent_witness :
  (forall side, lm_visibility (arms_hidden (WRIST side)) < 0.5)
  /\ @Child.measure_wrist_circumference
       math6 (edge_vision [long_ruler_contour] (Some arms_hidden))
       arms_hidden black_frame 100 200 10 = None
  /\ @Relaxed.measure_wrist_circumference
       math6 (edge_vision [long_ruler_contour] (Some standing))
       standing black_frame 100 200 0 = None.
Proof.
  assert (Hv : forall side, lm_visibility (arms_hidden (WRIST side)) < 0.5)
    by (intros [|]; reflexivity).
  split; [exact Hv|]. split.
  - apply (proj1 (@X15_primary_wrist_absent
                    math6 (edge_vision [long_ruler_contour] (Some arms_hidden))
                    arms_hidden black_frame 100%Z 200%Z 10)).
    left. exact Hv.
  - apply (proj2 (@X15_primary_wrist_absent
                    math6 (edge_vision [long_ruler_contour] (Some standing))
                    standing black_frame 100%Z 200%Z 0)).
    right. reflexivity.
Defined.









(** ** The prediction service *)

Lemma split_no_separator (sep : Ascii.ascii) (s : string) :
  ApiServer.contains sep s = false -> ApiServer.split sep s = [s].
Proof.
  induction s as [|c s IH]; simpl; [reflexivity|].
  destruct (Ascii.eqb c sep); [discriminate|].
  intro Hc. rewrite (IH Hc). reflexivity.
Qed.

Lemma split_at_first_separator (sep : Ascii.ascii) (p q : string) :
  ApiServer.contains sep p = false ->
  ApiServer.contains sep (p ++ String sep q) = true
  /\ ApiServer.split sep (p ++ String sep q) = p :: ApiServer.split sep q.
Proof.
  induction p as [|c p IH]; simpl.
  - intros _. rewrite Ascii.eqb_refl. split; reflexivity.
  - destruct (Ascii.eqb c sep); [discriminate|].
    intro Hc. destruct (IH Hc) as [H1 H2]. rewrite H2. split; [exact H1 | reflexivity].
Qed.

Lemma strip_data_url (prefix payload : string) :
  ApiServer.contains ApiServer.comma prefix = false ->
  ApiServer.contains ApiServer.comma payload = false ->
  ApiServer.strip_data_url_prefix (prefix ++ String ApiServer.comma payload) = payload
  /\ ApiServer.strip_data_url_prefix payload = payload.
Proof.
  intros Hp Hq. unfold ApiServer.strip_data_url_prefix.
  destruct (split_at_first_separator ApiServer.comma prefix payload Hp) as [-> ->].
  rewrite (split_no_separator _ _ Hq), Hq. split; reflexivity.
Qed.

(** X17.  A request whose image field is a data URL, a prefix and the
    base64 payload joined by a comma, is answered exactly like the
    request that carries the bare payload, provided neither part contains
    a comma (base64 text never does). *)
Theorem X17_data_url_prefix_ignored
  `{MathLib} `{Vision} `{RandomSource} `{ApiServer.Server}
  (prefix payload : string) (g : rng) :
  ApiServer.contains ApiServer.comma prefix = false ->
  ApiServer.contains ApiServer.comma payload = false ->
  ApiServer.predict_measurements
    (Some [("image"%string, (prefix ++ String ApiServer.comma payload)%string)]) g
  = ApiServer.predict_measurements (Some [("image"%string, payload)]) g.
Proof.
  intros Hp Hq. unfold ApiServer.predict_measurements. cbn [ApiServer.lookup].
  change (String.eqb "image" "image") with true. cbv iota.
  destruct (strip_data_url prefix payload Hp Hq) as [-> ->]. reflexivity.
Qed.

Lemma X17_data_url_prefix_ignored_witness :
  @ApiServer.predict_measurements
    math6 (staged_vision [ruler_contour] (Some standing)) lcg plain_server
    (Some [("image"%string, "data:image/jpeg;base64,AAAA"%string)]) 5%Z
  = @ApiServer.predict_measurements
      math6 (staged_vision [ruler_contour] (Some standing)) lcg plain_server
      (Some [("image"%string, "AAAA"%string)]) 5%Z.
Proof.
  apply (@X17_data_url_prefix_ignored
           math6 (staged_vision [ruler_contour] (Some standing)) lcg plain_server
           "data:image/jpeg;base64" "AAAA" 5%Z); reflexivity.
Defined.










(** ** The wrist crop *)

Lemma child_side_by_crop `{MathLib} `{Vision}
  (landmarks : Landmarks) (image : Array2 BGR) (image_w image_h : Z)
  (ppc : Q) (side : Side) :
  Child.wrist_side_measurement landmarks image image_w image_h ppc side
  = if ltb (lm_visibility (landmarks (WRIST side))) 0.5 then []
    else if size_is_zero
              (child_wrist_crop image (landmarks (WRIST side)) image_w image_h)
         then []
         else child_measure_crop
                (child_wrist_crop image (landmarks (WRIST side)) image_w image_h) ppc.
Proof. reflexivity. Qed.

Lemma firstn_incl {A : Type} (n : nat) (l : list A) (x : A) :
  In x (firstn n l) -> In x l.
Proof.
  revert l. induction n as [|n IH]; intros [|a l]; simpl; try tauto.
  intros [-> | Hin]; [left; reflexivity | right; exact (IH _ Hin)].
Qed.

Lemma skipn_incl {A : Type} (n : nat) (l : list A) (x : A) :
  In x (skipn n l) -> In x l.
Proof.
  revert l. induction n as [|n IH]; intros [|a l]; simpl; try tauto.
  intro Hin. right. exact (IH _ Hin).
Qed.

Lemma slice_incl {A : Type} (l : list A) (start stop : Z) (x : A) :
  In x (slice l start stop) -> In x l.
Proof.
  unfold slice. intro Hin. apply firstn_incl in Hin. exact (skipn_incl _ _ _ Hin).
Qed.

Lemma slice_length {A : Type} (l : list A) (start stop : Z) :
  (0 <= start <= stop)%Z -> (stop <= Z.of_nat (length l))%Z ->
  Z.of_nat (length (slice l start stop)) = (stop - start)%Z.
Proof.
  intros Hs He. unfold slice.
  destruct (stop <? 0)%Z eqn:En; [apply Z.ltb_lt in En; lia|].
  rewrite length_firstn, length_skipn. lia.
Qed.

Lemma crop_shape {A : Type} (image : Array2 A) (image_w image_h y0 y1 x0 x1 : Z) :
  rectangular image image_w image_h ->
  (0 <= y0 < y1)%Z -> (y1 <= image_h)%Z ->
  (0 <= x0 <= x1)%Z -> (x1 <= image_w)%Z ->
  shape0 (crop_of image y0 y1 x0 x1) = (y1 - y0)%Z
  /\ shape1 (crop_of image y0 y1 x0 x1) = (x1 - x0)%Z.
Proof.
  intros [Hh Hw] Hy Hy1 Hx Hx1. unfold shape0 in Hh. unfold crop_of, shape0, shape1.
  assert (Hrows : Z.of_nat (length (slice image y0 y1)) = (y1 - y0)%Z)
    by (apply slice_length; lia).
  split; [rewrite length_map; exact Hrows|].
  destruct (slice image y0 y1) as [|row rows] eqn:Es; [simpl in Hrows; lia|].
  cbn [map hd]. apply slice_length; [lia|].
  rewrite (Hw row); [lia|]. apply (slice_incl image y0 y1). rewrite Es. left. reflexivity.
Qed.

Lemma child_crop_size_lower (image_w image_h : Z) : (50 <= child_crop_size image_w image_h)%Z.
Proof.
  unfold child_crop_size.
  pose proof (max_lower_l 50 (0.05 * inject_Z (Z.max image_w image_h))) as Hm.
  destruct (int_truncates (max 50 (0.05 * inject_Z (Z.max image_w image_h)))) as [Hpos _].
  destruct (Hpos ltac:(lra)) as [_ Hlt].
  assert (Hq : inject_Z 49 < inject_Z (int (max 50 (0.05 * inject_Z (Z.max image_w image_h))))).
  { change (inject_Z 49) with 49. lra. }
  rewrite <- Zlt_Qlt in Hq. lia.
Qed.

(** X21.  In the strict variant, for an image of [image_h] rows of
    [image_w] pixels (both positive) and a visible wrist inside the
    frame, the crop around the wrist is never empty, so the turn of the
    loop is not skipped and measures that crop; the crop has at most
    twice the crop half-size rows and columns, and the half-size is at
    least 50 pixels. *)
Theorem X21_wrist_crop_not_empty `{MathLib} `{Vision}
  (landmarks : Landmarks) (image : Array2 BGR) (image_w image_h : Z)
  (ppc : Q) (side : Side) :
  rectangular image image_w image_h ->
  (0 < image_w)%Z -> (0 < image_h)%Z ->
  0.5 <= lm_visibility (landmarks (WRIST side)) ->
  0 <= lm_x (landmarks (WRIST side)) <= 1 ->
  0 <= lm_y (landmarks (WRIST side)) <= 1 ->
  let crop := child_wrist_crop image (landmarks (WRIST side)) image_w image_h in
  Child.wrist_side_measurement landmarks image image_w image_h ppc side
  = child_measure_crop crop ppc
  /\ (0 < shape0 crop <= 2 * child_crop_size image_w image_h)%Z
  /\ (0 < shape1 crop <= 2 * child_crop_size image_w image_h)%Z
  /\ (50 <= child_crop_size image_w image_h)%Z.
Proof.
  intros Hrect Hw Hh Hv Hx Hy. cbv zeta.
  pose proof (child_crop_size_lower image_w image_h) as Hcs.
  destruct (pixel_inside_image (landmarks (WRIST side)) image_w image_h
              ltac:(lia) ltac:(lia) Hx Hy) as [Hpx Hpy].
  assert (Hshape :
            (0 < shape0 (child_wrist_crop image (landmarks (WRIST side)) image_w image_h)
             <= 2 * child_crop_size image_w image_h)%Z
            /\ (0 < shape1 (child_wrist_crop image (landmarks (WRIST side)) image_w image_h)
                <= 2 * child_crop_size image_w image_h)%Z).
  { unfold child_wrist_crop.
    destruct (Child.landmark_point_to_pixel (landmarks (WRIST side)) image_w image_h)
      as [wx wy]. cbn [fst snd] in Hpx, Hpy.
    set (cs := child_crop_size image_w image_h) in *.
    destruct (crop_shape image image_w image_h
                (Z.max 0 (wy - cs)) (Z.min image_h (wy + cs))
                (Z.max 0 (wx - cs)) (Z.min image_w (wx + cs)) Hrect) as [Hrows Hcols];
      lia. }
  split; [|split; [exact (proj1 Hshape) | split; [exact (proj2 Hshape) | exact Hcs]]].
  rewrite child_side_by_crop.
  assert (Ev : ltb (lm_visibility (landmarks (WRIST side))) 0.5 = false)
    by (apply ltb_ge; exact Hv).
  rewrite Ev.
  assert (Ez : size_is_zero
                 (child_wrist_crop image (landmarks (WRIST side)) image_w image_h)
               = false).
  { unfold size_is_zero. apply orb_false_iff. split; apply Z.eqb_neq; lia. }
  rewrite Ez. reflexivity.
Qed.

Lemma black_frame_rectangular : rectangular black_frame 100 200.
Proof.
  split; [reflexivity|].
  intros row Hin. apply repeat_spec in Hin. subst row. reflexivity.
Qed.

Lemma X21_wrist_crop_not_empty_witness :
  let sees := edge_vision [long_ruler_contour] (Some standing) in
  let crop := child_wrist_crop black_frame (standing (WRIST LEFT)) 100 200 in
  @Child.wrist_side_measurement math6 sees standing black_frame 100 200 10 LEFT
  = @child_measure_crop math6 sees crop 10
  /\ (0 < shape0 crop <= 2 * child_crop_size 100 200)%Z
  /\ (0 < shape1 crop <= 2 * child_crop_size 100 200)%Z
  /\ (50 <= child_crop_size 100 200)%Z.
Proof.
  cbv zeta.
  apply (@X21_wrist_crop_not_empty
           math6 (edge_vision [long_ruler_contour] (Some standing))
           standing black_frame 100%Z 200%Z 10 LEFT black_frame_rectangular).
  - lia.
  - lia.
  - vm_compute. discriminate.
  - split; vm_compute; discriminate.
  - split; vm_compute; discriminate.
Defined.
